(** * virt-who test harness: the runner (src/virtwho/runner.py)

    A shallow embedding of [VirtwhoRunner] and of the library functions it
    calls ([str] methods, [int], [re], [json], the remote shell), followed
    by the properties of the run loop and of the log analyzer.

    Texts are Python [str] values whose code points are below 256; they are
    modelled by [string].  The library models work on [list ascii]. *)

From Stdlib Require Import List Ascii String ZArith Lia Bool Arith.
From Stdlib Require Import Permutation Sorting.Mergesort Orders.
From Stdlib Require Import Numbers.DecimalString Numbers.DecimalNat.
Import ListNotations.

Open Scope string_scope.
Open Scope Z_scope.

(* ================================================================= *)
(** * Characters and strings *)

Module Py.

Definition chars (s : string) : list ascii := list_ascii_of_string s.
Definition str (l : list ascii) : string := string_of_list_ascii l.

Definition nl : ascii := "010"%char.
Definition dq : ascii := "034"%char.

(** The one-character strings that cannot be written inside a literal. *)
Definition NL : string := String nl EmptyString.
Definition DQ : string := String dq EmptyString.

Definition code (c : ascii) : nat := nat_of_ascii c.

Definition is_digit (c : ascii) : bool :=
  ((48 <=? code c) && (code c <=? 57))%nat.

Definition is_upper (c : ascii) : bool :=
  ((65 <=? code c) && (code c <=? 90))%nat.

Definition is_lower (c : ascii) : bool :=
  ((97 <=? code c) && (code c <=? 122))%nat.

(** [str.isspace] on code points below 256. *)
Definition is_space (c : ascii) : bool :=
  let n := code c in
  (((9 <=? n) && (n <=? 13)) || ((28 <=? n) && (n <=? 32))
   || (n =? 133) || (n =? 160))%nat.

(** The capital letters above the ASCII range: 192 to 222 without the
    multiplication sign. *)
Definition is_latin_upper (c : ascii) : bool :=
  let n := code c in
  (((192 <=? n) && (n <=? 214)) || ((216 <=? n) && (n <=? 222)))%nat.

(** [c.lower()] for a code point below 256; [re.I] compares the lower
    cases of two characters. *)
Definition lower (c : ascii) : ascii :=
  if is_upper c || is_latin_upper c then ascii_of_nat (code c + 32) else c.

Definition upper_char (c : ascii) : ascii :=
  if is_lower c then ascii_of_nat (code c - 32) else c.

(** [s.upper()] for an ASCII receiver (the runner calls it on ['error'] and
    ['warning'] only). *)
Definition upper (s : string) : string := str (map upper_char (chars s)).

(** ** Substring test: [needle in hay] *)

Fixpoint starts_with (p l : list ascii) : bool :=
  match p, l with
  | [], _ => true
  | a :: p', b :: l' => Ascii.eqb a b && starts_with p' l'
  | _ :: _, [] => false
  end.

Fixpoint contains (p l : list ascii) : bool :=
  starts_with p l ||
  match l with
  | [] => false
  | _ :: l' => contains p l'
  end.

Definition str_in (needle hay : string) : bool :=
  contains (chars needle) (chars hay).

(** ** [s.strip()] *)

Fixpoint lstrip (l : list ascii) : list ascii :=
  match l with
  | c :: l' => if is_space c then lstrip l' else l
  | [] => []
  end.

Definition strip_chars (l : list ascii) : list ascii :=
  rev (lstrip (rev (lstrip l))).

Definition strip (s : string) : string := str (strip_chars (chars s)).

(** ** [s.split(sep)] for a one-character separator: the fields between
    separators, so that a text with [n] separators has [n + 1] fields. *)

Fixpoint split_chars (sep : ascii) (l : list ascii) : list (list ascii) :=
  match l with
  | [] => [[]]
  | c :: l' =>
      if Ascii.eqb c sep then [] :: split_chars sep l'
      else match split_chars sep l' with
           | f :: fs => (c :: f) :: fs
           | [] => [[c]]
           end
  end.

Definition split (sep : ascii) (s : string) : list string :=
  map str (split_chars sep (chars s)).

(** ** [s.replace(c, '')] for a one-character [c] *)

Definition remove_char (c : ascii) (s : string) : string :=
  str (filter (fun x => negb (Ascii.eqb x c)) (chars s)).

(** ** [int(s)]: optional surrounding white space, optional sign, decimal
    digits with single underscores between digits.  [None] stands for
    [ValueError]. *)

Definition digit_val (c : ascii) : Z := Z.of_nat (code c - 48).

Fixpoint digits_val (acc : Z) (prev_digit : bool) (l : list ascii) : option Z :=
  match l with
  | [] => if prev_digit then Some acc else None
  | c :: l' =>
      if is_digit c then digits_val (10 * acc + digit_val c) true l'
      else if Ascii.eqb c "_" then
             if prev_digit then digits_val acc false l' else None
           else None
  end.

Definition unsigned_val (l : list ascii) : option Z :=
  match l with
  | c :: _ => if is_digit c then digits_val 0 false l else None
  | [] => None
  end.

(** The white space [int] accepts around the number: [str.isspace] without
    the separators 28 to 31. *)
Definition is_int_space (c : ascii) : bool :=
  let n := code c in
  (((9 <=? n) && (n <=? 13)) || (n =? 32) || (n =? 133) || (n =? 160))%nat.

Fixpoint int_lstrip (l : list ascii) : list ascii :=
  match l with
  | c :: l' => if is_int_space c then int_lstrip l' else l
  | [] => []
  end.

Definition int_chars (l : list ascii) : option Z :=
  match rev (int_lstrip (rev (int_lstrip l))) with
  | "-"%char :: l' => option_map Z.opp (unsigned_val l')
  | "+"%char :: l' => unsigned_val l'
  | l' => unsigned_val l'
  end.

Definition int (s : string) : option Z := int_chars (chars s).

(** ** [str(n)] and the [{n}] of an f-string, for an integer *)

Definition of_nat (n : nat) : string := NilEmpty.string_of_uint (Nat.to_uint n).

Definition of_Z (z : Z) : string :=
  match z with
  | Zneg p => "-" ++ of_nat (Pos.to_nat p)
  | _ => of_nat (Z.to_nat z)
  end.

End Py.

(* ================================================================= *)
(** * Regular expressions: the fragment of Python's [re] the runner uses

    Literals, [.], [\d], escaped punctuation, [\n], the quantifiers [*],
    [+], [?], [{n}] and their lazy forms applied to a one-character atom,
    alternation, one capturing group, look-ahead [(?=...)], look-behind
    over a fixed sequence of atoms [(?<=...)], and [$].  The matcher is the
    backtracking one: alternatives are tried left to right, a greedy
    quantifier tries the longer match first, a lazy one the shorter. *)

Module Re.
Import Py.

Inductive atom : Type :=
| Chr (c : ascii)
| Dot
| Digit.

Inductive regex : Type :=
| Eps
| One (a : atom)
| Rep (a : atom) (lo : nat) (hi : option nat) (greedy : bool)
| Cat (r1 r2 : regex)
| Alt (r1 r2 : regex)
| Grp (r : regex)
| Ahead (r : regex)
| Behind (l : list atom)
| Eos.

(** [re.I] and [re.S]. *)
Record flags : Type := { ignorecase : bool; dotall : bool }.

Definition no_flags : flags := {| ignorecase := false; dotall := false |}.
Definition I : flags := {| ignorecase := true; dotall := false |}.
Definition S_ : flags := {| ignorecase := false; dotall := true |}.

Definition atom_ok (fl : flags) (a : atom) (x : ascii) : bool :=
  match a with
  | Chr c => if ignorecase fl then Ascii.eqb (lower x) (lower c)
             else Ascii.eqb x c
  | Dot => dotall fl || negb (Ascii.eqb x nl)
  | Digit => is_digit x
  end.

(** A position in the subject: the characters already passed (latest
    first), the characters to come, and the text of the group if it has
    been closed. *)
Record pos : Type := { seen : list ascii; rest : list ascii;
                       grp : option (list ascii) }.

Definition at_ (sn rs : list ascii) (g : option (list ascii)) : pos :=
  {| seen := sn; rest := rs; grp := g |}.

Definition orelse {A} (x : option A) (y : unit -> option A) : option A :=
  match x with Some v => Some v | None => y tt end.

Definition hi_allows (hi : option nat) : bool :=
  match hi with Some O => false | _ => true end.

Definition hi_pred (hi : option nat) : option nat := option_map pred hi.

(** A quantified atom, by recursion on the text to come. *)
Fixpoint rep (fl : flags) (a : atom) (greedy : bool) (lo : nat)
    (hi : option nat) (sn rs : list ascii) (g : option (list ascii))
    (k : pos -> option pos) {struct rs} : option pos :=
  let more (_ : unit) :=
    match rs with
    | x :: rs' =>
        if hi_allows hi && atom_ok fl a x
        then rep fl a greedy (pred lo) (hi_pred hi) (x :: sn) rs' g k
        else None
    | [] => None
    end in
  match lo with
  | S _ => more tt
  | O => if greedy then orelse (more tt) (fun _ => k (at_ sn rs g))
         else orelse (k (at_ sn rs g)) more
  end.

Fixpoint behind_ok (fl : flags) (l : list atom) (sn : list ascii) : bool :=
  match l, sn with
  | [], _ => true
  | a :: l', x :: sn' => atom_ok fl a x && behind_ok fl l' sn'
  | _ :: _, [] => false
  end.

Definition at_end (rs : list ascii) : bool :=
  match rs with
  | [] => true
  | [c] => Ascii.eqb c nl
  | _ => false
  end.

(** The text passed between two positions of one subject. *)
Definition passed (p p' : pos) : list ascii :=
  rev (firstn (List.length (seen p') - List.length (seen p)) (seen p')).

Fixpoint run (fl : flags) (r : regex) (p : pos) (k : pos -> option pos)
    {struct r} : option pos :=
  match r with
  | Eps => k p
  | One a =>
      match rest p with
      | x :: rs => if atom_ok fl a x then k (at_ (x :: seen p) rs (grp p))
                   else None
      | [] => None
      end
  | Rep a lo hi greedy => rep fl a greedy lo hi (seen p) (rest p) (grp p) k
  | Cat r1 r2 => run fl r1 p (fun p' => run fl r2 p' k)
  | Alt r1 r2 => orelse (run fl r1 p k) (fun _ => run fl r2 p k)
  | Grp r1 =>
      run fl r1 p (fun p' => k (at_ (seen p') (rest p') (Some (passed p p'))))
  | Ahead r1 =>
      match run fl r1 p Some with
      | Some p' => k (at_ (seen p) (rest p) (grp p'))
      | None => None
      end
  | Behind l => if behind_ok fl (rev l) (seen p) then k p else None
  | Eos => if at_end (rest p) then k p else None
  end.

(** One attempt at a position.  [must_advance] refuses the empty match, as
    the scanner does right after an empty match at the same place. *)
Definition match_at (fl : flags) (r : regex) (must_advance : bool)
    (sn rs : list ascii) : option pos :=
  run fl r (at_ sn rs None)
      (fun p => if must_advance && (List.length (rest p) =? List.length rs)%nat
                then None else Some p).

Definition width (rs : list ascii) (p : pos) : nat :=
  (List.length rs - List.length (rest p))%nat.

(** What [findall] reports for a match: the group if the pattern has one
    (empty when it did not take part), the whole match otherwise. *)
Fixpoint has_group (r : regex) : bool :=
  match r with
  | Grp _ => true
  | Cat r1 r2 | Alt r1 r2 => has_group r1 || has_group r2
  | Ahead r1 => has_group r1
  | _ => false
  end.

Definition item (r : regex) (rs : list ascii) (p : pos) : list ascii :=
  if has_group r
  then match grp p with Some g => g | None => [] end
  else firstn (width rs p) rs.

(** The scanner of [findall]: [skip] counts the characters still covered
    by the latest match.  At a free position the pattern is tried; after
    an empty match the same position is tried once more for a non-empty
    one; the scan then goes on behind the match. *)
Fixpoint scan (fl : flags) (r : regex) (sn rs : list ascii) (skip : nat)
    {struct rs} : list (list ascii) :=
  let next (n : nat) :=
    match rs with
    | x :: rs' => scan fl r (x :: sn) rs' n
    | [] => []
    end in
  match skip with
  | S n => next n
  | O =>
      match match_at fl r false sn rs with
      | None => next O
      | Some p =>
          match width rs p with
          | S n => item r rs p :: next n
          | O =>
              item r rs p ::
              match match_at fl r true sn rs with
              | Some p2 => item r rs p2 :: next (pred (width rs p2))
              | None => next O
              end
          end
      end
  end.

(** [re.search]: does the pattern match somewhere? *)
Fixpoint search (fl : flags) (r : regex) (sn rs : list ascii) : bool :=
  match match_at fl r false sn rs with
  | Some _ => true
  | None => match rs with
            | x :: rs' => search fl r (x :: sn) rs'
            | [] => false
            end
  end.

(** ** Reading a pattern

    [None] stands for [re.error] and for a pattern outside the fragment;
    every pattern of runner.py is inside it ([patterns_compile] below). *)

Definition is_alnum (c : ascii) : bool := is_digit c || is_upper c || is_lower c.

Definition p_atom (l : list ascii) : option (atom * list ascii) :=
  match l with
  | "\"%char :: c :: l' =>
      if Ascii.eqb c "d" then Some (Digit, l')
      else if Ascii.eqb c "n" then Some (Chr nl, l')
      else if is_alnum c then None
      else Some (Chr c, l')
  | "\"%char :: [] => None
  | "."%char :: l' => Some (Dot, l')
  | "["%char :: _ | "^"%char :: _ => None
  | "*"%char :: _ | "+"%char :: _ | "?"%char :: _ => None
  | c :: l' => Some (Chr c, l')
  | [] => None
  end.

Fixpoint p_digits (acc : nat) (l : list ascii) : nat * list ascii :=
  match l with
  | c :: l' => if is_digit c then p_digits (10 * acc + (code c - 48)) l'
               else (acc, l)
  | [] => (acc, l)
  end.

Inductive brace : Type :=
| Times (n : nat) (l : list ascii)   (* [{n}] read, [l] follows *)
| Range                              (* [{m,n}]: outside the fragment *)
| Literal.                           (* the brace is an ordinary character *)

Definition p_brace (l : list ascii) : brace :=
  match l with
  | "{"%char :: l1 =>
      match p_digits 0 l1 with
      | (n, "}"%char :: l2) =>
          if (List.length l2 + 1 =? List.length l1)%nat then Literal else Times n l2
      | (_, ","%char :: l2) =>
          match snd (p_digits 0 l2) with
          | "}"%char :: _ => Range
          | _ => Literal
          end
      | _ => Literal
      end
  | _ => Literal
  end.

Definition starts_quant (l : list ascii) : bool :=
  match l with
  | "*"%char :: _ | "+"%char :: _ | "?"%char :: _ => true
  | _ => match p_brace l with Literal => false | _ => true end
  end.

(** The lazy mark, then nothing that repeats again. *)
Definition p_lazy (a : atom) (lo : nat) (hi : option nat) (l : list ascii)
  : option (regex * list ascii) :=
  match l with
  | "?"%char :: l' =>
      if starts_quant l' then None else Some (Rep a lo hi false, l')
  | _ => if starts_quant l then None else Some (Rep a lo hi true, l)
  end.

Definition p_quant (a : atom) (l : list ascii) : option (regex * list ascii) :=
  match l with
  | "*"%char :: l' => p_lazy a 0 None l'
  | "+"%char :: l' => p_lazy a 1 None l'
  | "?"%char :: l' => p_lazy a 0 (Some 1%nat) l'
  | _ => match p_brace l with
         | Times n l' => p_lazy a n (Some n) l'
         | Range => None
         | Literal => Some (One a, l)
         end
  end.

Fixpoint atoms_of (r : regex) : option (list atom) :=
  match r with
  | Eps => Some []
  | Cat (One a) r' => option_map (cons a) (atoms_of r')
  | _ => None
  end.

Definition unquantified {A} (x : A) (l : list ascii) : option (A * list ascii) :=
  if starts_quant l then None else Some (x, l).

Definition st : Type := regex * list ascii * bool.

Fixpoint p_alt (n : nat) (l : list ascii) (g : bool) : option st :=
  match n with
  | O => None
  | S n' =>
      match p_seq n' l g with
      | Some (r1, "|"%char :: l1, g1) =>
          match p_alt n' l1 g1 with
          | Some (r2, l2, g2) => Some (Alt r1 r2, l2, g2)
          | None => None
          end
      | other => other
      end
  end
with p_seq (n : nat) (l : list ascii) (g : bool) : option st :=
  match n with
  | O => None
  | S n' =>
      match l with
      | [] => Some (Eps, l, g)
      | "|"%char :: _ | ")"%char :: _ => Some (Eps, l, g)
      | _ =>
          match p_piece n' l g with
          | Some (r1, l1, g1) =>
              match p_seq n' l1 g1 with
              | Some (r2, l2, g2) => Some (Cat r1 r2, l2, g2)
              | None => None
              end
          | None => None
          end
      end
  end
with p_piece (n : nat) (l : list ascii) (g : bool) : option st :=
  match n with
  | O => None
  | S n' =>
      match l with
      | "("%char :: "?"%char :: "<"%char :: "="%char :: l1 =>
          match p_alt n' l1 g with
          | Some (r, ")"%char :: l2, g') =>
              if starts_quant l2 then None
              else match atoms_of r with
                   | Some la => Some (Behind la, l2, g')
                   | None => None
                   end
          | _ => None
          end
      | "("%char :: "?"%char :: "="%char :: l1 =>
          match p_alt n' l1 g with
          | Some (r, ")"%char :: l2, g') =>
              if starts_quant l2 then None else Some (Ahead r, l2, g')
          | _ => None
          end
      | "("%char :: "?"%char :: _ => None
      | "("%char :: l1 =>
          if g then None
          else match p_alt n' l1 true with
               | Some (r, ")"%char :: l2, g') =>
                   if starts_quant l2 then None else Some (Grp r, l2, g')
               | _ => None
               end
      | "$"%char :: l1 =>
          if starts_quant l1 then None else Some (Eos, l1, g)
      | _ =>
          match p_atom l with
          | Some (a, l1) =>
              match p_quant a l1 with
              | Some (r, l2) => Some (r, l2, g)
              | None => None
              end
          | None => None
          end
      end
  end.

Definition compile (pat : string) : option regex :=
  match p_alt (4 * List.length (chars pat) + 4) (chars pat) false with
  | Some (r, [], _) => Some r
  | _ => None
  end.

(** [re.findall(pat, s, flags)] and the truth of [re.search]. *)
Definition findall (pat s : string) (fl : flags) : option (list string) :=
  match compile pat with
  | Some r => Some (map str (scan fl r [] (chars s) 0))
  | None => None
  end.

Definition matches (fl : flags) (r : regex) (s : string) : bool :=
  search fl r [] (chars s).

End Re.

(* ================================================================= *)
(** * Python values, dictionaries and exceptions *)

Module Val.
Import Py.

(** The values [json.loads] builds and the analyzer stores.  A float keeps
    the text it was read from. *)
#[local] Set Warnings "-register-all".
Inductive value : Type :=
| VNone
| VBool (b : bool)
| VInt (z : Z)
| VFloat (lexeme : string)
| VStr (s : string)
| VList (l : list value)
| VDict (d : list (value * value)).

Inductive exn : Type :=
| IndexError
| KeyError
| ValueError
| TypeError
| AttributeError
| ReError
| FailException (msg : string).

Inductive res (A : Type) : Type :=
| Ok (a : A)
| Raise (e : exn).
Arguments Ok {A} a.
Arguments Raise {A} e.

Definition hashable (v : value) : bool :=
  match v with
  | VList _ | VDict _ => false
  | _ => true
  end.

(** Equality of dictionary keys; [True] and [1] are one key. *)
Definition key_eqb (a b : value) : bool :=
  match a, b with
  | VNone, VNone => true
  | VBool x, VBool y => Bool.eqb x y
  | VBool x, VInt y | VInt y, VBool x => (if x then 1 else 0) =? y
  | VInt x, VInt y => x =? y
  | VFloat x, VFloat y => String.eqb x y
  | VStr x, VStr y => String.eqb x y
  | _, _ => false
  end.

(** A dictionary keeps its keys in the order of their first insertion. *)
Definition dict_of (V : Type) : Type := list (value * V).
Definition dict : Type := dict_of value.

Fixpoint dict_get {V} (k : value) (d : dict_of V) : option V :=
  match d with
  | (k', v) :: d' => if key_eqb k k' then Some v else dict_get k d'
  | [] => None
  end.

Fixpoint dict_set {V} (k : value) (v : V) (d : dict_of V) : dict_of V :=
  match d with
  | (k', v') :: d' =>
      if key_eqb k k' then (k', v) :: d' else (k', v') :: dict_set k v d'
  | [] => [(k, v)]
  end.

Definition dict_has {V} (k : value) (d : dict_of V) : bool :=
  match dict_get k d with Some _ => true | None => false end.

Definition rbind {A B} (r : res A) (f : A -> res B) : res B :=
  match r with
  | Ok a => f a
  | Raise e => Raise e
  end.

(** [d[k] = v] *)
Definition setitem {V} (k : value) (v : V) (d : dict_of V) : res (dict_of V) :=
  if hashable k then Ok (dict_set k v d) else Raise TypeError.

(** [v[k]] for a string [k] *)
Definition getitem (v : value) (k : string) : res value :=
  match v with
  | VDict d => match dict_get (VStr k) d with
               | Some x => Ok x
               | None => Raise KeyError
               end
  | _ => Raise TypeError
  end.

(** [v[k1][k2]] *)
Definition getitem2 (v : value) (k1 k2 : string) : res value :=
  rbind (getitem v k1) (fun x => getitem x k2).

(** [l[0]] and [l[-1]] of a list of strings *)
Definition first_item (l : list string) : res string :=
  match l with
  | x :: _ => Ok x
  | [] => Raise IndexError
  end.

Definition last_item (l : list string) : res string :=
  match rev l with
  | x :: _ => Ok x
  | [] => Raise IndexError
  end.

(** [d[k]] for any key *)
Definition getkey (v : value) (k : value) : res value :=
  match v with
  | VDict d => if hashable k
               then match dict_get k d with
                    | Some x => Ok x
                    | None => Raise KeyError
                    end
               else Raise TypeError
  | VList l =>
      match k with
      | VInt i =>
          let n := Z.of_nat (List.length l) in
          let j := if i <? 0 then i + n else i in
          if (0 <=? j) && (j <? n)
          then match nth_error l (Z.to_nat j) with
               | Some x => Ok x
               | None => Raise IndexError
               end
          else Raise IndexError
      | _ => Raise TypeError
      end
  | _ => Raise TypeError
  end.

(** [for x in v] *)
Definition iter (v : value) : res (list value) :=
  match v with
  | VList l => Ok l
  | VDict d => Ok (map fst d)
  | VStr s => Ok (map (fun c => VStr (String c EmptyString)) (chars s))
  | _ => Raise TypeError
  end.

(** [len(v)] *)
Definition len (v : value) : res Z :=
  match v with
  | VList l => Ok (Z.of_nat (List.length l))
  | VDict d => Ok (Z.of_nat (List.length d))
  | VStr s => Ok (Z.of_nat (String.length s))
  | _ => Raise TypeError
  end.

(** [k in v.keys()] *)
Definition in_keys (k : string) (v : value) : res bool :=
  match v with
  | VDict d => Ok (dict_has (VStr k) d)
  | _ => Raise AttributeError
  end.

(** Truth of a value in a condition. *)
Definition truthy (v : value) : bool :=
  match v with
  | VNone => false
  | VBool b => b
  | VInt z => negb (z =? 0)
  | VFloat _ => true
  | VStr s => negb (String.eqb s "")
  | VList l => match l with [] => false | _ => true end
  | VDict d => match d with [] => false | _ => true end
  end.

End Val.

(* ================================================================= *)
(** * [json.loads(s, strict=False)]

    [None] stands for [JSONDecodeError].  Control characters are allowed
    inside strings ([strict=False]).  A [\u] escape above code point 255 is
    outside the model of texts and is read as a decoding failure. *)

Module Json.
Import Py Val.
#[local] Open Scope list_scope.

Definition is_ws (c : ascii) : bool :=
  Ascii.eqb c " " || Ascii.eqb c "009" || Ascii.eqb c nl || Ascii.eqb c "013".

Fixpoint skip_ws (l : list ascii) : list ascii :=
  match l with
  | c :: l' => if is_ws c then skip_ws l' else l
  | [] => []
  end.

Definition hex_val (c : ascii) : option nat :=
  let n := code c in
  if is_digit c then Some (n - 48)%nat
  else if ((97 <=? n) && (n <=? 102))%nat then Some (n - 87)%nat
  else if ((65 <=? n) && (n <=? 70))%nat then Some (n - 55)%nat
  else None.

Definition p_hex4 (l : list ascii) : option (ascii * list ascii) :=
  match l with
  | a :: b :: c :: d :: l' =>
      match hex_val a, hex_val b, hex_val c, hex_val d with
      | Some O, Some O, Some x, Some y => Some (ascii_of_nat (16 * x + y), l')
      | _, _, _, _ => None
      end
  | _ => None
  end.

(** The body of a string, after its opening quote. *)
Fixpoint p_string (l : list ascii) (acc : list ascii)
  : option (string * list ascii) :=
  match l with
  | [] => None
  | "034"%char :: l' => Some (str (rev acc), l')
  | "\"%char :: l1 =>
      match l1 with
      | "u"%char :: l2 =>
          match p_hex4 l2 with
          | Some (c, l3) =>
              (* the recursion is on [l]: [l3] is four characters further *)
              match l2 with
              | _ :: _ :: _ :: _ :: l3' => p_string l3' (c :: acc)
              | _ => None
              end
          | None => None
          end
      | e :: l2 =>
          let esc (c : ascii) := p_string l2 (c :: acc) in
          if Ascii.eqb e "034" then esc "034"%char
          else if Ascii.eqb e "\" then esc "\"%char
          else if Ascii.eqb e "/" then esc "/"%char
          else if Ascii.eqb e "b" then esc "008"%char
          else if Ascii.eqb e "f" then esc "012"%char
          else if Ascii.eqb e "n" then esc "010"%char
          else if Ascii.eqb e "r" then esc "013"%char
          else if Ascii.eqb e "t" then esc "009"%char
          else None
      | [] => None
      end
  | c :: l' => p_string l' (c :: acc)
  end.

Fixpoint take_digits (l : list ascii) : list ascii * list ascii :=
  match l with
  | c :: l' => if is_digit c
               then let (d, r) := take_digits l' in (c :: d, r)
               else ([], l)
  | [] => ([], [])
  end.

(** An optional minus sign, then a zero or a number without leading zero. *)
Definition p_intpart (l : list ascii) : option (list ascii * list ascii) :=
  let (sign, l1) := match l with
                    | "-"%char :: l' => (["-"%char], l')
                    | _ => ([], l)
                    end in
  match l1 with
  | "0"%char :: l2 => Some (sign ++ ["0"%char], l2)
  | c :: _ => if is_digit c
              then let (d, r) := take_digits l1 in Some (sign ++ d, r)
              else None
  | [] => None
  end.

(** An optional fraction: a dot and at least one digit. *)
Definition p_frac (l : list ascii) : list ascii * list ascii :=
  match l with
  | "."%char :: l1 =>
      match take_digits l1 with
      | ([], _) => ([], l)
      | (d, r) => ("."%char :: d, r)
      end
  | _ => ([], l)
  end.

(** An optional exponent: [e] or [E], an optional sign, at least one digit. *)
Definition p_exp (l : list ascii) : list ascii * list ascii :=
  match l with
  | e :: l1 =>
      if Ascii.eqb e "e" || Ascii.eqb e "E" then
        let (sg, l2) := match l1 with
                        | "-"%char :: l' => (["-"%char], l')
                        | "+"%char :: l' => (["+"%char], l')
                        | _ => ([], l1)
                        end in
        match take_digits l2 with
        | ([], _) => ([], l)
        | (d, r) => (e :: sg ++ d, r)
        end
      else ([], l)
  | [] => ([], l)
  end.

Definition p_number (l : list ascii) : option (value * list ascii) :=
  match p_intpart l with
  | Some (i, l1) =>
      let (f, l2) := p_frac l1 in
      let (e, l3) := p_exp l2 in
      match f, e with
      | [], [] => match int_chars i with
                  | Some z => Some (VInt z, l3)
                  | None => None
                  end
      | _, _ => Some (VFloat (str (i ++ f ++ e)), l3)
      end
  | None => None
  end.

Definition p_word (w : string) (v : value) (l : list ascii)
  : option (value * list ascii) :=
  if starts_with (chars w) l
  then Some (v, skipn (String.length w) l) else None.

Definition p_scalar (l : list ascii) : option (value * list ascii) :=
  match l with
  | "034"%char :: l1 =>
      match p_string l1 [] with
      | Some (s, l2) => Some (VStr s, l2)
      | None => None
      end
  | "n"%char :: _ => p_word "null" VNone l
  | "t"%char :: _ => p_word "true" (VBool true) l
  | "f"%char :: _ => p_word "false" (VBool false) l
  | "N"%char :: _ => p_word "NaN" (VFloat "NaN") l
  | "I"%char :: _ => p_word "Infinity" (VFloat "Infinity") l
  | "-"%char :: "I"%char :: _ => p_word "-Infinity" (VFloat "-Infinity") l
  | _ => p_number l
  end.

Definition pv : Type := option (value * list ascii).

Fixpoint p_value (n : nat) (l : list ascii) : pv :=
  match n with
  | O => None
  | S n' =>
      match l with
      | "{"%char :: l1 =>
          match skip_ws l1 with
          | "}"%char :: l2 => Some (VDict [], l2)
          | l2 => p_members n' l2 []
          end
      | "["%char :: l1 =>
          match skip_ws l1 with
          | "]"%char :: l2 => Some (VList [], l2)
          | l2 => p_elems n' l2 []
          end
      | _ => p_scalar l
      end
  end
with p_elems (n : nat) (l : list ascii) (acc : list value) : pv :=
  match n with
  | O => None
  | S n' =>
      match p_value n' l with
      | Some (v, l1) =>
          match skip_ws l1 with
          | ","%char :: l2 => p_elems n' (skip_ws l2) (v :: acc)
          | "]"%char :: l2 => Some (VList (rev (v :: acc)), l2)
          | _ => None
          end
      | None => None
      end
  end
with p_members (n : nat) (l : list ascii) (acc : dict) : pv :=
  match n with
  | O => None
  | S n' =>
      match l with
      | "034"%char :: l1 =>
          match p_string l1 [] with
          | Some (k, l2) =>
              match skip_ws l2 with
              | ":"%char :: l3 =>
                  match p_value n' (skip_ws l3) with
                  | Some (v, l4) =>
                      match skip_ws l4 with
                      | ","%char :: l5 =>
                          p_members n' (skip_ws l5) (dict_set (VStr k) v acc)
                      | "}"%char :: l5 =>
                          Some (VDict (dict_set (VStr k) v acc), l5)
                      | _ => None
                      end
                  | None => None
                  end
              | _ => None
              end
          | None => None
          end
      | _ => None
      end
  end.

Definition loads (s : string) : option value :=
  let l := chars s in
  match p_value (2 * List.length l + 2) (skip_ws l) with
  | Some (v, l') => match skip_ws l' with
                    | [] => Some v
                    | _ => None
                    end
  | None => None
  end.

End Json.

(* ================================================================= *)
(** * The world the runner acts on

    The runner talks to a remote host through [self.ssh.runcmd], sleeps,
    starts the agent in a thread and writes log records.  A [world] keeps
    what the main thread did, in order; the remote host answers a command
    from everything that happened before it. *)

Module World.
Import Py Val.

Inductive event : Type :=
| Sleep (secs : Z)          (* [time.sleep(secs)] *)
| Cmd (cmd : string)        (* [self.ssh.runcmd(cmd)] *)
| Spawn (cmd : string).     (* the agent started in thread [t1] *)

Inductive level : Type := INFO | WARNING.

(** A log record keeps the text of the message and, next to it, the values
    its braces are filled with. *)
Record logrec : Type := { lvl : level; text : string; args : list value }.

(** The remote host: (return code, output) of a command, given the events
    before it. *)
Definition remote : Type := list event -> string -> Z * string.

Record world : Type := { trace : list event; logs : list logrec }.

Definition start_world : world := {| trace := []; logs := [] |}.

(** Computations of the main thread: a result or an exception, and the
    world after. *)
Definition M (A : Type) : Type := world -> res A * world.

Definition ret {A} (a : A) : M A := fun w => (Ok a, w).

Definition raise {A} (e : exn) : M A := fun w => (Raise e, w).

Definition bind {A B} (c : M A) (f : A -> M B) : M B :=
  fun w => match c w with
           | (Ok a, w') => f a w'
           | (Raise e, w') => (Raise e, w')
           end.

Definition lift {A} (r : res A) : M A := fun w => (r, w).

Definition emit (e : event) : M unit :=
  fun w => (Ok tt, {| trace := trace w ++ [e]; logs := logs w |}).

(** [time.sleep(secs)]: a negative length raises [ValueError]. *)
Definition sleep (secs : Z) : M unit :=
  if secs <? 0 then raise ValueError else emit (Sleep secs).

Definition spawn (cmd : string) : M unit := emit (Spawn cmd).

Definition runcmd (ssh : remote) (cmd : string) : M (Z * string) :=
  fun w => (Ok (ssh (trace w) cmd),
            {| trace := trace w ++ [Cmd cmd]; logs := logs w |}).

Definition log (l : level) (msg : string) (vs : list value) : M unit :=
  fun w => (Ok tt, {| trace := trace w;
                      logs := logs w ++ [{| lvl := l; text := msg; args := vs |}] |}).

(** ** Loops with [break] and [return] *)

Inductive ctl (S R : Type) : Type :=
| Next (s : S)       (* the body ran to its end *)
| Break (s : S)      (* [break] *)
| Return (r : R).    (* [return r] *)
Arguments Next {S R} s.
Arguments Break {S R} s.
Arguments Return {S R} r.

(** [for x in l: body], threading the variables [s] the body assigns. *)
Fixpoint for_each {A S R} (l : list A) (s : S)
    (body : A -> S -> M (ctl S R)) : M (S + R) :=
  match l with
  | [] => ret (inl s)
  | x :: l' =>
      bind (body x s) (fun c =>
        match c with
        | Next s' => for_each l' s' body
        | Break s' => ret (inl s')
        | Return r => ret (inr r)
        end)
  end.

(** [range(n)] *)
Definition range (n : nat) : list nat := seq 0 n.

End World.

Declare Scope monad_scope.
Delimit Scope monad_scope with monad.
Notation "x <- c ;; k" := (World.bind c (fun x => k))
  (at level 61, c at next level, right associativity) : monad_scope.
Notation "' pat <- c ;; k" := (World.bind c (fun x => match x with pat => k end))
  (at level 61, pat pattern, c at next level, right associativity) : monad_scope.
Notation "c ;; k" := (World.bind c (fun _ => k))
  (at level 61, right associativity) : monad_scope.

(* ================================================================= *)
(** * virtwho/configure.py: the hypervisor section of a mode *)

Module Configure.

(** A section of virtwho.ini, as far as the runner reads it. *)
Record section : Type := { guest_uuid : string }.

(** [virtwho.settings.config]: the sections by name. *)
Definition settings : Type := string -> section.

Definition get_hypervisor_handler (config : settings) (mode : string) : section :=
  if existsb (String.eqb mode)
       ["xen"; "hyperv"; "rhevm"; "libvirt"; "kubevirt"; "ahv"; "local"]
  then config mode
  else config "esx".

End Configure.

(* ================================================================= *)
(** * virtwho/runner.py: [VirtwhoRunner] *)

(** The dictionary [analyzer] returns, one field per key. *)
Module Result.
Import Val.

Record t : Type := {
  debug : bool;
  oneshot : bool;
  terminate : bool;
  thread : Z;
  send : Z;
  reporter_id : option string;
  interval : option Z;
  loop : Z;
  loop_num : Z;
  mappings : value;
  hypervisor_id : value;
  print_json : option string;
  error : Z;
  error_msg : string;
  warning : Z;
  warning_msg : string
}.

Definition opt_str (o : option string) : value :=
  match o with Some s => VStr s | None => VNone end.

Definition opt_int (o : option Z) : value :=
  match o with Some z => VInt z | None => VNone end.

(** The dictionary itself, keys in the order [analyzer] sets them. *)
Definition as_dict (d : t) : value :=
  VDict [ (VStr "debug", VBool (debug d));
          (VStr "oneshot", VBool (oneshot d));
          (VStr "terminate", VBool (terminate d));
          (VStr "thread", VInt (thread d));
          (VStr "send", VInt (send d));
          (VStr "reporter_id", opt_str (reporter_id d));
          (VStr "interval", opt_int (interval d));
          (VStr "loop", VInt (loop d));
          (VStr "loop_num", VInt (loop_num d));
          (VStr "mappings", mappings d);
          (VStr "hypervisor_id", hypervisor_id d);
          (VStr "print_json", opt_str (print_json d));
          (VStr "error", VInt (error d));
          (VStr "error_msg", VStr (error_msg d));
          (VStr "warning", VInt (warning d));
          (VStr "warning_msg", VStr (warning_msg d)) ].

End Result.

Module Runner.
Import Py Val World Configure.
#[local] Open Scope monad_scope.

Record VirtwhoRunner : Type := {
  mode : string;
  register_type : string;
  config_file : string;
  rhsm_log_file : string;
  print_json_file : string;
  ssh : remote
}.

(** [__init__]; [conn] is what [virtwho_ssh_connect(mode)] returns. *)
Definition init (mode register_type : string) (conn : remote) : VirtwhoRunner :=
  {| mode := mode;
     register_type := register_type;
     config_file := "/etc/virt-who.d/" ++ mode ++ ".conf";
     rhsm_log_file := "/var/log/rhsm/rhsm.log";
     print_json_file := "/root/print.json";
     ssh := conn |}.

(** [if x:] for an optional number and an optional string. *)
Definition set_num (o : option Z) : bool :=
  match o with Some z => negb (z =? 0) | None => false end.

Definition set_str (o : option string) : bool :=
  match o with Some s => negb (String.eqb s "") | None => false end.

Definition re_findall (pat s : string) (fl : Re.flags) : M (list string) :=
  match Re.findall pat s fl with
  | Some l => ret l
  | None => raise ReError
  end.

Definition count {A} (l : list A) : Z := Z.of_nat (List.length l).

(** ** Searching the log text *)

Definition msg_number (self : VirtwhoRunner) (output msg : string) : M Z :=
  found <- re_findall msg output Re.I ;;
  let number := count found in
  log INFO "Find '{msg}' {number} times" [VStr msg; VInt number] ;;
  ret number.

(** [msgs] is one string or a list of strings. *)
Inductive msgs : Type :=
| Str (s : string)
| Lst (l : list string).

Definition no_return {S} (r : S + Empty_set) : S :=
  match r with
  | inl s => s
  | inr e => match e with end
  end.

Definition msg_search (self : VirtwhoRunner) (output : string) (ms : msgs)
  : M bool :=
  let ms := match ms with Str s => [s] | Lst l => l end in
  r <- for_each ms ([] : list string) (fun msg search_list =>
         let if_find := "No" in
         if_find <-
           (if str_in "|" msg then
              let keys := split "|" msg in
              r <- for_each keys if_find (fun key if_find =>
                     n <- msg_number self output key ;;
                     ret (Next (R := Empty_set)
                            (if n >? 0 then "Yes" else if_find))) ;;
              ret (no_return r)
            else
              n <- msg_number self output msg ;;
              ret (if n >? 0 then "Yes" else if_find)) ;;
         ret (Next (R := Empty_set) (search_list ++ [if_find])%list)) ;;
  let search_list := no_return r in
  if existsb (String.eqb "No") search_list then ret false else ret true.

(** The pattern [send_number] counts. *)
Definition send_msg (self : VirtwhoRunner) (rhsm_log : string) : string :=
  let msg := "" in
  if str_in "0 hypervisors and 0 guests found" rhsm_log then
    "0 hypervisors and 0 guests found"
  else if str_in "virtwho.main DEBUG" rhsm_log
          || str_in "rhsm.connection DEBUG" rhsm_log then
    let msg :=
      if str_in "satellite" (register_type self) then
        if String.eqb (mode self) "local" then
          "Response: status=200, " ++ "request=" ++ DQ ++ "PUT /rhsm/consumers"
        else
          "Response: status=200, " ++ "request=" ++ DQ ++ "POST /rhsm/hypervisors"
      else msg in
    if str_in "rhsm" (register_type self) then
      if String.eqb (mode self) "local" then
        "Response: status=20.*requestUuid.*request=" ++
        DQ ++ "PUT /subscription/consumers"
      else
        "Response: status=20.*requestUuid.*request=" ++
        DQ ++ "POST /subscription/hypervisors"
    else msg
  else
    if String.eqb (mode self) "local" then
      "Sending update in guests lists for config"
    else
      "Sending updated Host-to-guest mapping to".

Definition send_number (self : VirtwhoRunner) (rhsm_log : string) : M Z :=
  let msg := send_msg self rhsm_log in
  found <- re_findall msg rhsm_log Re.I ;;
  ret (count found).

Definition reporter_id (self : VirtwhoRunner) (rhsm_log : string)
  : M (option string) :=
  found <- re_findall "reporter_id='(.*?)'" rhsm_log Re.no_flags ;;
  match found with
  | r0 :: _ => ret (Some (strip r0))
  | [] => ret None
  end.

Definition py_int (s : string) : M Z :=
  match int s with
  | Some z => ret z
  | None => raise ValueError
  end.

Definition interval_time (self : VirtwhoRunner) (rhsm_log : string)
  : M (option Z) :=
  found <- re_findall "Starting infinite loop with(.*?)seconds interval"
             rhsm_log Re.no_flags ;;
  match found with
  | r0 :: _ =>
      let interval_time := strip r0 in
      z <- py_int interval_time ;;
      ret (Some z)
  | [] => ret None
  end.

(** ** Asking the remote host *)

Definition thread_number (self : VirtwhoRunner) : M Z :=
  let thread_num := 0 in
  let cmd := "ps -ef | grep virt-who -i | grep -v grep |wc -l" in
  '(_, output) <- runcmd (ssh self) cmd ;;
  if negb (String.eqb output "") then py_int (strip output)
  else ret thread_num.

Definition error_warning (self : VirtwhoRunner) (msg : string)
  : M (Z * string) :=
  let msg_number := 0 in
  let cmd := "grep '\[.*" ++ upper msg ++ ".*\]' " ++ rhsm_log_file self
             ++ " |sort" in
  '(_, output) <- runcmd (ssh self) cmd ;;
  if negb (String.eqb output "")
  then ret (count (split nl (strip output)), output)
  else ret (msg_number, output).

Definition loop_number (self : VirtwhoRunner) : M (string * Z) :=
  let key := "" in
  let loop_num := 0 in
  let cmd := "grep 'Report for config' " ++ rhsm_log_file self ++ " |" ++ NL
             ++ "                 grep 'placing in datastore' |" ++ NL
             ++ "                 head -1" in
  '(_, output) <- runcmd (ssh self) cmd ;;
  keys <- re_findall ("Report for config " ++ DQ ++ "(.*?)" ++ DQ) output
            Re.no_flags ;;
  match keys with
  | k0 :: _ =>
      if negb (String.eqb output "") then
        let key := "Report for config " ++ DQ ++ k0 ++ DQ
                   ++ " gathered, placing in datastore" in
        let cmd := "grep '" ++ key ++ "' " ++ rhsm_log_file self
                   ++ " | wc -l" in
        '(_, output) <- runcmd (ssh self) cmd ;;
        (* [output is not None or output != ""] holds of every string *)
        n <- py_int output ;;
        ret (key, n - 1)
      else ret (key, loop_num)
  | [] => ret (key, loop_num)
  end.

(** [h, m, s = d.strip().split(":")], then the seconds since midnight. *)
Definition seconds (d : string) : M Z :=
  match split ":" (strip d) with
  | [h; m; s] =>
      h <- py_int h ;; m <- py_int m ;; s <- py_int s ;;
      ret (h * 3600 + m * 60 + s)
  | _ => raise ValueError
  end.

Definition first_time (line : string) : M string :=
  found <- re_findall "\d{2}:\d{2}:\d{2}" line Re.no_flags ;;
  lift (first_item found).

Definition loop_info (self : VirtwhoRunner) : M (Z * Z) :=
  let loop_time := -1 in
  '(key, loop_num) <- loop_number self ;;
  if negb (loop_num =? 0) then
    let cmd := "grep '" ++ key ++ "' " ++ rhsm_log_file self ++ " | head -2" in
    '(_, output) <- runcmd (ssh self) cmd ;;
    let output := split nl output in
    (* [len(output) > 0] holds of every split *)
    match output with
    | o0 :: rest =>
        d1 <- first_time o0 ;;
        o1 <- match rest with
              | o1 :: _ => ret o1
              | [] => raise IndexError
              end ;;
        d2 <- first_time o1 ;;
        s1 <- seconds d1 ;;
        s2 <- seconds d2 ;;
        ret (s2 - s1, loop_num)
    | [] => ret (loop_time, loop_num)
    end
  else ret (loop_time, loop_num).

Definition print_json (self : VirtwhoRunner) : M (option string) :=
  '(r, output) <- runcmd (ssh self) ("cat " ++ print_json_file self) ;;
  if (r =? 0) && negb (String.eqb output "") then ret (Some output)
  else ret None.

(** ** The host-to-guest mappings *)

Definition mappings_local (self : VirtwhoRunner) (rhsm_log : string) : M value :=
  let data : dict := [] in
  let key := "Domain info:" in
  found <- re_findall "(?<=Domain info: )\[.*?\]\n+(?=\d\d\d\d|$)"
             rhsm_log Re.S_ ;;
  mapping_info <- lift (first_item found) ;;
  match Json.loads (remove_char nl mapping_info) with
  | None =>
      log WARNING "json.loads failed: {mapping_info}" [VStr mapping_info] ;;
      ret (VDict data)
  | Some mapping_info =>
      items <- lift (iter mapping_info) ;;
      r <- for_each items data (fun item data =>
             guestId <- lift (getitem item "guestId") ;;
             state <- lift (getitem item "state") ;;
             active <- lift (getitem2 item "attributes" "active") ;;
             type <- lift (getitem2 item "attributes" "virtWhoType") ;;
             let attr : dict := [ (VStr "state", state);
                                  (VStr "active", active);
                                  (VStr "type", type) ] in
             data <- lift (setitem guestId (VDict attr) data) ;;
             ret (Next (R := Empty_set) data)) ;;
      ret (VDict (no_return r))
  end.

(** What a key of [data] holds in [mappings_remote]: a value of its own, or
    a reference to the one dictionary [org_data], which every organisation
    key shares. *)
Inductive slot : Type :=
| Own (v : value)
| Shared.

(** [data] as the caller sees it: a shared key shows [org_data] as it is
    when the function returns. *)
Definition resolve (data : dict_of slot) (org_data : dict) : value :=
  VDict (map (fun kv => (fst kv, match snd kv with
                                 | Own v => v
                                 | Shared => VDict org_data
                                 end)) data).

(** The body of [for guest in item['guestIds']]. *)
Definition guest_entry (hypervisorId guest : value)
    (st : list value * dict) : M (ctl (list value * dict) Empty_set) :=
  let '(guests, org_data) := st in
  guestId <- lift (getitem guest "guestId") ;;
  let guests := (guests ++ [guestId])%list in
  state <- lift (getitem guest "state") ;;
  active <- lift (getitem2 guest "attributes" "active") ;;
  type <- lift (getitem2 guest "attributes" "virtWhoType") ;;
  let attr : dict := [ (VStr "guest_hypervisor", hypervisorId);
                       (VStr "state", state);
                       (VStr "active", active);
                       (VStr "type", type) ] in
  org_data <- lift (setitem guestId (VDict attr) org_data) ;;
  ret (Next (guests, org_data)).

(** The body of [for item in hypervisors]. *)
Definition hypervisor_entry (item : value) (org_data : dict)
  : M (ctl dict Empty_set) :=
  hypervisorId <- lift (getitem2 item "hypervisorId" "hypervisorId") ;;
  has_name <- lift (in_keys "name" item) ;;
  hypervisor_name <- (if has_name then lift (getitem item "name")
                      else ret (VStr "")) ;;
  type <- lift (getitem2 item "facts" "hypervisor.type") ;;
  version <- lift (getitem2 item "facts" "hypervisor.version") ;;
  socket <- lift (getitem2 item "facts" "cpu.cpu_socket(s)") ;;
  dmi <- lift (getitem2 item "facts" "dmi.system.uuid") ;;
  facts_of_item <- lift (getitem item "facts") ;;
  has_cluster <- lift (in_keys "hypervisor.cluster" facts_of_item) ;;
  cluster <- (if has_cluster
              then lift (getitem2 item "facts" "hypervisor.cluster")
              else ret (VStr "")) ;;
  guestIds <- lift (getitem item "guestIds") ;;
  gs <- lift (iter guestIds) ;;
  r <- for_each gs ([], org_data) (guest_entry hypervisorId) ;;
  let '(guests, org_data) := no_return r in
  let facts : dict := [ (VStr "name", hypervisor_name);
                        (VStr "type", type);
                        (VStr "version", version);
                        (VStr "socket", socket);
                        (VStr "dmi", dmi);
                        (VStr "cluster", cluster);
                        (VStr "guests", VList guests) ] in
  org_data <- lift (setitem hypervisorId (VDict facts) org_data) ;;
  ret (Next org_data).

(** The body of [for org in orgs]: the block is looked up in the whole
    text; [key] is computed and not used. *)
Definition org_entry (rhsm_log : string) (org : string)
    (st : dict_of slot * dict) : M (ctl (dict_of slot * dict) value) :=
  let '(data, org_data) := st in
  let key := "Host-to-guest mapping being sent to '" ++ org ++ "'" in
  found <- re_findall "(?<=: ){.*?}\n+(?=202|$)" rhsm_log Re.S_ ;;
  mapping_info <- lift (last_item found) ;;
  match Json.loads (remove_char nl mapping_info) with
  | None =>
      log WARNING "Failed to run json.loads for rhsm.log" [] ;;
      ret (Return (resolve data org_data))
  | Some mapping_info =>
      hypervisors <- lift (getitem mapping_info "hypervisors") ;;
      n <- lift (len hypervisors) ;;
      let org_data := dict_set (VStr "hypervisor_num") (VInt n) org_data in
      items <- lift (iter hypervisors) ;;
      r <- for_each items org_data hypervisor_entry ;;
      let org_data := no_return r in
      let data := dict_set (VStr org) Shared data in
      ret (Next (data, org_data))
  end.

Definition mappings_remote (self : VirtwhoRunner) (rhsm_log : string)
  : M value :=
  let data : dict_of slot := [] in
  orgs <- re_findall "Host-to-guest mapping being sent to '(.*?)'"
            rhsm_log Re.no_flags ;;
  match orgs with
  | _ :: _ =>
      let data := dict_set (VStr "orgs") (Own (VList (map VStr orgs))) data in
      let org_data : dict := [] in
      r <- for_each orgs (data, org_data) (org_entry rhsm_log) ;;
      match r with
      | inl (data, org_data) => ret (resolve data org_data)
      | inr v => ret v
      end
  | [] => ret (resolve data [])
  end.

Definition mappings (self : VirtwhoRunner) (rhsm_log : string) : M value :=
  if String.eqb (mode self) "local" then mappings_local self rhsm_log
  else mappings_remote self rhsm_log.

Section WithSettings.

(** [config] of virtwho.settings. *)
Variable config : settings.

Definition hypervisor_id (self : VirtwhoRunner) (mapping : value) : M value :=
  if truthy mapping then
    let guest_uuid := guest_uuid (get_hypervisor_handler config (mode self)) in
    orgs <- lift (getitem mapping "orgs") ;;
    orgs <- lift (iter orgs) ;;
    r <- for_each orgs tt (fun org _ =>
           org_dict <- lift (getkey mapping org) ;;
           found <- lift (in_keys guest_uuid org_dict) ;;
           if found then
             d <- lift (getkey mapping org) ;;
             g <- lift (getitem d guest_uuid) ;;
             h <- lift (getitem g "guest_hypervisor") ;;
             ret (Return h)
           else ret (Next tt)) ;;
    match r with
    | inr h => ret h
    | inl _ => ret (VStr "")
    end
  else ret (VStr "").

(** ** The analyzer *)

Definition analyzer (self : VirtwhoRunner) (rhsm_log : string) : M Result.t :=
  debug <- msg_search self rhsm_log (Str "\[.*DEBUG\]") ;;
  oneshot <- msg_search self rhsm_log
               (Str "Thread '.*' stopped after running once") ;;
  terminate <- msg_search self rhsm_log (Str "virt-who terminated") ;;
  thread <- thread_number self ;;
  send <- send_number self rhsm_log ;;
  reporter_id <- reporter_id self rhsm_log ;;
  interval <- interval_time self rhsm_log ;;
  '(loop, loop_num) <- loop_info self ;;
  mappings <- mappings self rhsm_log ;;
  hypervisor_id <- hypervisor_id self mappings ;;
  print_json <- print_json self ;;
  '(error, error_msg) <- error_warning self "error" ;;
  '(warning, warning_msg) <- error_warning self "warning" ;;
  let data :=
    {| Result.debug := debug; Result.oneshot := oneshot;
       Result.terminate := terminate; Result.thread := thread;
       Result.send := send; Result.reporter_id := reporter_id;
       Result.interval := interval; Result.loop := loop;
       Result.loop_num := loop_num; Result.mappings := mappings;
       Result.hypervisor_id := hypervisor_id;
       Result.print_json := print_json;
       Result.error := error; Result.error_msg := error_msg;
       Result.warning := warning; Result.warning_msg := warning_msg |} in
  log INFO ("Completed the analyzer after run virt-who, the result is:"
            ++ NL ++ "{data}") [Result.as_dict data] ;;
  ret data.

(** ** Starting and stopping the agent *)

Definition operate_service (self : VirtwhoRunner) (name action : string)
  : M (Z * string) :=
  let cmd := "systemctl " ++ action ++ " " ++ name in
  r <- runcmd (ssh self) cmd ;;
  sleep 10 ;;
  ret r.

Definition kill_pid (self : VirtwhoRunner) (process_name : string) : M bool :=
  let cmd := "ps -ef |" ++ NL
             ++ "                grep " ++ process_name ++ " -i |" ++ NL
             ++ "                grep -v grep |" ++ NL
             ++ "                awk '{print $2}' |" ++ NL
             ++ "                xargs -I {} kill -9 {}" in
  _ <- runcmd (ssh self) cmd ;;
  let cmd := "rm -f /var/run/" ++ process_name ++ ".pid" in
  _ <- runcmd (ssh self) cmd ;;
  let cmd := "ps -ef | grep " ++ process_name ++ " -i | grep -v grep |sort" in
  '(_, output) <- runcmd (ssh self) cmd ;;
  if String.eqb (strip output) "" then ret true else ret false.

Definition stop (self : VirtwhoRunner) : M unit :=
  _ <- operate_service self "virt-who" "stop" ;;
  ok <- kill_pid self "virt-who" ;;
  if ok then ret tt
  else raise (FailException "Failed to stop and clean virt-who process").

Definition log_clean (self : VirtwhoRunner) : M unit :=
  _ <- runcmd (ssh self) "rm -rf /var/log/rhsm/*" ;;
  _ <- runcmd (ssh self) ("rm -rf " ++ print_json_file self) ;;
  ret tt.

(** The body of thread [t1]: the one command it runs on the remote host.
    Its own log record and the settle delay of [operate_service] belong to
    that thread and are no events of the main thread. *)
Definition start (self : VirtwhoRunner) (cli : option string) : string :=
  match cli with
  | Some c => if negb (String.eqb c "") then c
              else "systemctl restart virt-who"
  | None => "systemctl restart virt-who"
  end.

(** ** Polling the log *)

(** The body of [for i in range(30)]. *)
Definition poll_round (self : VirtwhoRunner) (i : nat) (_ : string)
  : M (ctl string Empty_set) :=
  sleep 15 ;;
  '(_, rhsm_output) <- runcmd (ssh self) ("cat " ++ rhsm_log_file self) ;;
  limited <- msg_search self rhsm_output (Str "status=429") ;;
  if limited then
    log WARNING "429 code found when run virt-who" [] ;;
    ret (Break rhsm_output)
  else
    threads <- thread_number self ;;
    if threads =? 0 then
      log INFO "Virt-who is terminated after run once" [] ;;
      ret (Break rhsm_output)
    else
      failed <- msg_search self rhsm_output (Str "\[.*ERROR.*\]") ;;
      if failed then
        log INFO "Error found when run virt-who" [] ;;
        ret (Break rhsm_output)
      else
        sent <- send_number self rhsm_output ;;
        if sent >? 0 then
          log INFO "Succeed to send mapping after run virt-who" [] ;;
          ret (Break rhsm_output)
        else if (i =? 29)%nat then
          log INFO "Timeout when run virt-who" [] ;;
          ret (Break rhsm_output)
        else ret (Next rhsm_output).

Definition rhsm_log_get (self : VirtwhoRunner) (wait : option Z) : M string :=
  let rhsm_output := "" in
  (if set_num wait
   then sleep (match wait with Some z => z | None => 0 end)
   else ret tt) ;;
  r <- for_each (range 30) rhsm_output (poll_round self) ;;
  ret (no_return r).

Definition thread_start (self : VirtwhoRunner) (cli : option string)
    (wait : option Z) : M string :=
  stop self ;;
  log_clean self ;;
  spawn (start self cli) ;;
  rhsm_ouput <- rhsm_log_get self wait ;;
  ret rhsm_ouput.

(** ** The run loop *)

(** The body of [for i in range(4)]. *)
Definition attempt (self : VirtwhoRunner) (cli : option string)
    (wait : option Z) (i : nat) (_ : unit) : M (ctl unit Result.t) :=
  rhsm_output <- thread_start self cli wait ;;
  limited <- msg_search self rhsm_output (Str "status=429") ;;
  if limited then
    let wait_time := 60 * (Z.of_nat i + 3) in
    log WARNING ("429 code found, re-register virt-who host and try "
                 ++ "again after {wait_time} seconds...")
        [VInt wait_time] ;;
    sleep wait_time ;;
    ret (Next tt)
  else
    broken <- msg_search self rhsm_output
                (Str ("RemoteServerException: Server error "
                      ++ "attempting a GET.*returned status 500")) ;;
    if broken then
      log WARNING ("RemoteServerException return 500 code, restart "
                   ++ "virt-who again after 60s") [] ;;
      sleep 60 ;;
      ret (Next tt)
    else
      result_data <- analyzer self rhsm_output ;;
      ret (Return result_data).

Definition run_start (self : VirtwhoRunner) (cli : option string)
    (wait : option Z) : M Result.t :=
  r <- for_each (range 4) tt (attempt self cli wait) ;;
  match r with
  | inr result_data => ret result_data
  | inl _ => raise (FailException "Failed to run virt-who service.")
  end.

Definition run_service (self : VirtwhoRunner) (wait : option Z) : M Result.t :=
  run_start self None wait.

(** The command line [run_cli] builds. *)
Definition cli_of (self : VirtwhoRunner) (debug oneshot : bool)
    (interval : option Z) (prt : bool) (config : option string) : string :=
  let cmd := "virt-who " in
  let cmd := if debug then cmd ++ "-d " else cmd in
  let cmd := if oneshot then cmd ++ "-o " else cmd in
  let cmd := match interval with
             | Some n => if negb (n =? 0) then cmd ++ "-i " ++ of_Z n ++ " "
                         else cmd
             | None => cmd
             end in
  let cmd := if prt then cmd ++ "-p " else cmd in
  let cmd := match config with
             | Some c =>
                 if negb (String.eqb c "") then
                   let c := if String.eqb c "default" then config_file self
                            else c in
                   cmd ++ "-c " ++ c ++ " "
                 else cmd
             | None => cmd
             end in
  if prt then cmd ++ " > " ++ print_json_file self else cmd.

Definition run_cli (self : VirtwhoRunner) (debug oneshot : bool)
    (interval : option Z) (prt : bool) (config : option string)
    (wait : option Z) : M Result.t :=
  run_start self (Some (cli_of self debug oneshot interval prt config)) wait.

End WithSettings.

End Runner.

(* ================================================================= *)
(** * A remote host with files

    The meaning of the shell pipelines the runner sends, for a host whose
    log file, print file and process table are given.  [grep] reads its
    pattern as a basic regular expression; the model covers ordinary
    characters, [.], the star after one character and escaped
    punctuation.  A pattern outside this fragment selects no line, as a
    malformed pattern does. *)

Module StringOrder <: TotalLeBool.
Definition t := string.
Definition leb := String.leb.
Definition leb_total : forall a1 a2, leb a1 a2 = true \/ leb a2 a1 = true
  := String.leb_total.
End StringOrder.

Module StringSort := Sort StringOrder.

Module Host.
Import Py World.

Record files : Type := {
  log_text : string;              (* /var/log/rhsm/rhsm.log *)
  print_text : option string;     (* /root/print.json, if it exists *)
  processes : nat                 (* running processes named virt-who *)
}.

(** ** [grep] *)

Definition escapable (c : ascii) : bool :=
  existsb (Ascii.eqb c) (chars "\.*[]^$").

(** Characters that open a bracket expression or an anchor, and the star
    with nothing before it. *)
Definition special (c : ascii) : bool :=
  existsb (Ascii.eqb c) (chars "[^$*").

Definition bre_atom (c : ascii) : Re.atom :=
  if Ascii.eqb c "." then Re.Dot else Re.Chr c.

Definition starred (a : Re.atom) : Re.regex -> Re.regex :=
  Re.Cat (Re.Rep a 0 None true).

Definition single (a : Re.atom) : Re.regex -> Re.regex :=
  Re.Cat (Re.One a).

Fixpoint bre (l : list ascii) : option Re.regex :=
  match l with
  | [] => Some Re.Eps
  | c :: l1 =>
      if Ascii.eqb c "\" then
        match l1 with
        | e :: l2 =>
            if escapable e then
              match l2 with
              | s :: l3 =>
                  if Ascii.eqb s "*"
                  then option_map (starred (Re.Chr e)) (bre l3)
                  else option_map (single (Re.Chr e)) (bre l2)
              | [] => option_map (single (Re.Chr e)) (bre l2)
              end
            else None
        | [] => None
        end
      else if special c then None
      else
        match l1 with
        | s :: l2 =>
            if Ascii.eqb s "*"
            then option_map (starred (bre_atom c)) (bre l2)
            else option_map (single (bre_atom c)) (bre l1)
        | [] => option_map (single (bre_atom c)) (bre l1)
        end
  end.

(** Inside a line every character is matched by a dot. *)
Definition line_flags : Re.flags := Re.S_.

Definition grep_match (pat line : string) : bool :=
  match bre (chars pat) with
  | Some r => Re.matches line_flags r line
  | None => false
  end.

(** The lines of a file: a final newline ends the last line. *)
Definition file_lines (s : string) : list string :=
  let fs := split nl s in
  match rev fs with
  | last :: front => if String.eqb last "" then rev front else fs
  | [] => fs
  end.

Definition unlines (ls : list string) : string :=
  String.concat "" (map (fun l => l ++ NL) ls).

Definition grep (pat : string) (ls : list string) : list string :=
  filter (grep_match pat) ls.

(** ** The commands *)

Fixpoint strip_prefix (p s : string) : option string :=
  match p, s with
  | EmptyString, _ => Some s
  | String a p', String b s' =>
      if Ascii.eqb a b then strip_prefix p' s' else None
  | String _ _, EmptyString => None
  end.

(** The text up to the first quote, and the text from that quote on. *)
Fixpoint quoted (s : string) : string * string :=
  match s with
  | EmptyString => ("", "")
  | String c s' =>
      if Ascii.eqb c "'" then ("", s)
      else let (a, b) := quoted s' in (String c a, b)
  end.

Definition log_path : string := "/var/log/rhsm/rhsm.log".
Definition print_path : string := "/root/print.json".

Definition first_report_cmd : string :=
  "grep 'Report for config' " ++ log_path ++ " |" ++ NL
  ++ "                 grep 'placing in datastore' |" ++ NL
  ++ "                 head -1".

Definition count_cmd : string :=
  "ps -ef | grep virt-who -i | grep -v grep |wc -l".

Definition exec (h : files) (cmd : string) : Z * string :=
  let ls := file_lines (log_text h) in
  if String.eqb cmd ("cat " ++ log_path) then (0, log_text h)
  else if String.eqb cmd ("cat " ++ print_path) then
    match print_text h with
    | Some s => (0, s)
    | None => (1, "")
    end
  else if String.eqb cmd count_cmd then
    (0, of_nat (processes h) ++ NL)
  else if String.eqb cmd first_report_cmd then
    (0, unlines (firstn 1 (grep "placing in datastore"
                             (grep "Report for config" ls))))
  else
    match strip_prefix "grep '" cmd with
    | Some s =>
        let (pat, tail) := quoted s in
        if String.eqb tail ("' " ++ log_path ++ " |sort") then
          (0, unlines (StringSort.sort (grep pat ls)))
        else if String.eqb tail ("' " ++ log_path ++ " | wc -l") then
          (0, of_nat (List.length (grep pat ls)) ++ NL)
        else if String.eqb tail ("' " ++ log_path ++ " | head -2") then
          (0, unlines (firstn 2 (grep pat ls)))
        else (0, "")
    | None => (0, "")
    end.

(** A host whose files stay as they are. *)
Definition static (h : files) : remote := fun _ cmd => exec h cmd.

End Host.

(* ================================================================= *)
(** * The language of a pattern

    For patterns without group, look-around and anchor: the texts a
    pattern matches, said without the matcher. *)

Module Lang.
Import Py Re.

Fixpoint simple (r : regex) : bool :=
  match r with
  | Eps | One _ | Rep _ _ _ _ => true
  | Cat r1 r2 | Alt r1 r2 => simple r1 && simple r2
  | _ => false
  end.

Definition within (hi : option nat) (n : nat) : Prop :=
  match hi with
  | Some h => (n <= h)%nat
  | None => True
  end.

Fixpoint lang (fl : flags) (r : regex) (s : list ascii) : Prop :=
  match r with
  | Eps => s = []
  | One a => exists x, s = [x] /\ atom_ok fl a x = true
  | Rep a lo hi _ =>
      Forall (fun x => atom_ok fl a x = true) s
      /\ (lo <= List.length s)%nat /\ within hi (List.length s)
  | Cat r1 r2 => exists s1 s2, s = (s1 ++ s2)%list /\ lang fl r1 s1 /\ lang fl r2 s2
  | Alt r1 r2 => lang fl r1 s \/ lang fl r2 s
  | _ => False
  end.

(** The characters of a text, one after the other, and then [r]. *)
Fixpoint then_lit (l : list ascii) (r : regex) : regex :=
  match l with
  | [] => r
  | c :: l' => Cat (One (Chr c)) (then_lit l' r)
  end.

(** The pattern of a text without special characters. *)
Definition lit (l : list ascii) : regex := then_lit l Eps.

End Lang.

(* ================================================================= *)
(** * Printed lines *)

Module Lines.
Import Py.
#[local] Open Scope list_scope.

(** The characters of the lines of a file, each ended by a newline. *)
Definition ulines (ls : list (list ascii)) : list ascii :=
  List.concat (map (fun l => l ++ [nl]) ls).

(** A line as [grep] prints it and [strip] leaves it: no newline inside,
    and some character that is no white space. *)
Definition solid (l : list ascii) : Prop :=
  ~ In nl l /\ exists x, In x l /\ is_space x = false.

End Lines.

(* ================================================================= *)
(** * What the specification says, as definitions *)

Module Spec.
Import Py Val World Runner.

(** ** The command line (run_cli)

    The options as the specification lists them: each flag is present
    exactly when its option is set. *)
Definition command_line (mode : string) (debug oneshot : bool)
    (interval : option Z) (prt : bool) (config : option string) : string :=
  "virt-who "
  ++ (if debug then "-d " else "")
  ++ (if oneshot then "-o " else "")
  ++ (match interval with
      | Some n => "-i " ++ of_Z n ++ " "
      | None => ""
      end)
  ++ (if prt then "-p " else "")
  ++ (match config with
      | None => ""
      | Some c =>
          if String.eqb c "" then ""
          else if String.eqb c "default"
               then "-c /etc/virt-who.d/" ++ mode ++ ".conf "
               else "-c " ++ c ++ " "
      end)
  ++ (if prt then " > /root/print.json" else "").

(** The interval that counts as given: [if interval:] takes the number 0
    for no interval. *)
Definition given (interval : option Z) : option Z :=
  match interval with
  | Some n => if n =? 0 then None else Some n
  | None => None
  end.

(** ** send-count: the decision table *)

Inductive backend : Type := Rhsm | Satellite.

Definition backend_name (b : backend) : string :=
  match b with Rhsm => "rhsm" | Satellite => "satellite" end.

Inductive branch : Type :=
| ZeroFound      (* the text reports 0 hypervisors and 0 guests *)
| DebugHttp      (* the text has a debug connection-log marker *)
| Sending.       (* neither *)

Definition branch_of (rhsm_log : string) : branch :=
  if str_in "0 hypervisors and 0 guests found" rhsm_log then ZeroFound
  else if str_in "virtwho.main DEBUG" rhsm_log
          || str_in "rhsm.connection DEBUG" rhsm_log then DebugHttp
  else Sending.

Definition http_success (b : backend) (local : bool) : string :=
  match b, local with
  | Satellite, true =>
      "Response: status=200, request=" ++ DQ ++ "PUT /rhsm/consumers"
  | Satellite, false =>
      "Response: status=200, request=" ++ DQ ++ "POST /rhsm/hypervisors"
  | Rhsm, true =>
      "Response: status=20.*requestUuid.*request=" ++ DQ
      ++ "PUT /subscription/consumers"
  | Rhsm, false =>
      "Response: status=20.*requestUuid.*request=" ++ DQ
      ++ "POST /subscription/hypervisors"
  end.

Definition send_pattern (b : backend) (local : bool) (br : branch) : string :=
  match br with
  | ZeroFound => "0 hypervisors and 0 guests found"
  | DebugHttp => http_success b local
  | Sending => if local then "Sending update in guests lists for config"
               else "Sending updated Host-to-guest mapping to"
  end.

(** The non-overlapping, case-insensitive matches of a pattern. *)
Definition hits (pat text : string) : Z :=
  match Re.findall pat text Re.I with
  | Some l => count l
  | None => 0
  end.

Definition found (pat text : string) : bool := hits pat text >? 0.

(** ** Remote mappings: the block sent to one organisation

    The last object that follows the line naming the organisation, up to
    the line before a 202 marker or the end of the text. *)
Definition org_block (org text : string) : option string :=
  match Re.findall ("(?<=Host-to-guest mapping being sent to '" ++ org
                    ++ "': ){.*?}\n+(?=202|$)") text Re.S_ with
  | Some l => match rev l with b :: _ => Some b | [] => None end
  | None => None
  end.

(** The record [msg_number] writes. *)
Definition find_record (pat text : string) : logrec :=
  {| lvl := INFO; text := "Find '{msg}' {number} times";
     args := [VStr pat; VInt (Spec.hits pat text)] |}.

Definition logged (w : world) (ls : list logrec) : world :=
  {| trace := trace w; logs := (logs w ++ ls)%list |}.

Definition traced (w : world) (es : list event) : world :=
  {| trace := (trace w ++ es)%list; logs := logs w |}.

(** ** The polling cycle *)

(** What ends a polling cycle. *)
Inductive terminal : Type :=
| RateLimited      (* the 429 marker is in the text *)
| AgentExited      (* the thread count is zero *)
| ErrorLogged      (* an ERROR-tagged line is in the text *)
| SendObserved     (* the send count is above zero *)
| Timeout.         (* the 30th round is over *)

Inductive verdict : Type :=
| Exit (t : terminal)
| Go.

(** The log record the runner writes when it leaves the cycle. *)
Definition exit_record (t : terminal) : logrec :=
  match t with
  | RateLimited =>
      {| lvl := WARNING; text := "429 code found when run virt-who"; args := [] |}
  | AgentExited =>
      {| lvl := INFO; text := "Virt-who is terminated after run once"; args := [] |}
  | ErrorLogged =>
      {| lvl := INFO; text := "Error found when run virt-who"; args := [] |}
  | SendObserved =>
      {| lvl := INFO; text := "Succeed to send mapping after run virt-who";
         args := [] |}
  | Timeout =>
      {| lvl := INFO; text := "Timeout when run virt-who"; args := [] |}
  end.

Definition fetch_cmd : string := "cat /var/log/rhsm/rhsm.log".

(** The thread count the host reports after the events [tr]. *)
Definition threads (ssh : remote) (tr : list event) : res Z :=
  let output := snd (ssh tr Host.count_cmd) in
  if String.eqb output "" then Ok 0
  else match int (strip output) with
       | Some z => Ok z
       | None => Raise ValueError
       end.

Definition send_count (self : VirtwhoRunner) (text : string) : Z :=
  hits (send_msg self text) text.

(** One round: the conditions in the order of the specification.  The
    thread count is asked for only when the text is not rate-limited. *)
Definition decide (limited : bool) (threads : res Z) (failed : bool)
    (sent : Z) (last_round : bool) : res verdict :=
  if limited then Ok (Exit RateLimited)
  else match threads with
       | Raise e => Raise e
       | Ok n =>
           if n =? 0 then Ok (Exit AgentExited)
           else if failed then Ok (Exit ErrorLogged)
           else if sent >? 0 then Ok (Exit SendObserved)
           else if last_round then Ok (Exit Timeout)
           else Ok Go
       end.

(** The events of a round: the sleep, the fetch and, unless the text is
    rate-limited, the thread count. *)
Definition round_events (limited : bool) : list event :=
  ([Sleep 15; Cmd fetch_cmd]
   ++ (if limited then [] else [Cmd Host.count_cmd]))%list.

Record polled : Type := {
  value : res string;            (* the text returned, or the exception *)
  events : list event;           (* the trace after the cycle *)
  reason : option terminal;      (* what ended the cycle *)
  rounds : nat                   (* the rounds that were run *)
}.

(** The cycle from round [i] on, with [n] rounds left. *)
Fixpoint poll (self : VirtwhoRunner) (n i : nat) (tr : list event)
    (last : string) : polled :=
  match n with
  | O => {| value := Ok last; events := tr; reason := None; rounds := 0 |}
  | S n' =>
      let text := snd (ssh self (tr ++ [Sleep 15])%list fetch_cmd) in
      let limited := found "status=429" text in
      let tr' := (tr ++ round_events limited)%list in
      match decide limited
              (threads (ssh self) (tr ++ [Sleep 15; Cmd fetch_cmd])%list)
              (found "\[.*ERROR.*\]" text) (send_count self text)
              (i =? 29)%nat with
      | Raise e =>
          {| value := Raise e; events := tr'; reason := None; rounds := 1 |}
      | Ok (Exit t) =>
          {| value := Ok text; events := tr'; reason := Some t; rounds := 1 |}
      | Ok Go =>
          let p := poll self n' (S i) tr' text in
          {| value := value p; events := events p; reason := reason p;
             rounds := S (rounds p) |}
      end
  end.

(** The optional delay before the first round. *)
Definition delay (wait : option Z) : list event :=
  match wait with
  | Some z => if z =? 0 then [] else [Sleep z]
  | None => []
  end.

(** A wait that [time.sleep] refuses. *)
Definition negative (wait : option Z) : bool :=
  match wait with Some z => z <? 0 | None => false end.

(** ** Error and warning lines *)

Inductive tag : Type := Errors | Warnings.

(** The argument of [error_warning] and the word it looks for. *)
Definition tag_arg (t : tag) : string :=
  match t with Errors => "error" | Warnings => "warning" end.

Definition tag_word (t : tag) : string :=
  match t with Errors => "ERROR" | Warnings => "WARNING" end.

(** A line carries the tag: an opening bracket, later the word in upper
    case, later a closing bracket. *)
Definition tagged (t : tag) (line : string) : Prop :=
  exists a b c d, line = a ++ "[" ++ b ++ tag_word t ++ c ++ "]" ++ d.

(** The same as [grep] decides it. *)
Definition tagged_b (t : tag) (line : string) : bool :=
  Host.grep_match ("\[.*" ++ tag_word t ++ ".*\]") line.

(** The tag in any case of letters, as a case-insensitive search finds
    it. *)
Definition tagged_any_case (t : tag) (line : string) : bool :=
  match Host.bre (chars ("\[.*" ++ tag_word t ++ ".*\]")) with
  | Some r => Re.matches {| Re.ignorecase := true; Re.dotall := true |} r line
  | None => false
  end.

(** The pattern of a bracketed word. *)
Definition bracketed (word : list ascii) : Re.regex :=
  Re.Cat (Re.One (Re.Chr "["))
    (Re.Cat (Re.Rep Re.Dot 0 None true)
       (Lang.then_lit word
          (Re.Cat (Re.Rep Re.Dot 0 None true)
             (Re.Cat (Re.One (Re.Chr "]")) Re.Eps)))).

(** ** Report loops *)

Definition report_phrase (name : string) : string :=
  "Report for config " ++ DQ ++ name ++ DQ ++ " gathered, placing in datastore".

(** The first report line of the log. *)
Definition located (ls : list string) : option string :=
  find (fun l => str_in "Report for config" l
                 && str_in "placing in datastore" l) ls.

(** The name a report line gives: the first quoted text that follows the
    words [Report for config], up to the next double quote of the line. *)
Definition config_name (line : string) : option string :=
  match Re.findall ("Report for config " ++ DQ ++ "(.*?)" ++ DQ)
          (line ++ NL) Re.no_flags with
  | Some (k :: _) => Some k
  | _ => None
  end.

Definition report_name (ls : list string) : option string :=
  match located ls with
  | Some first => config_name first
  | None => None
  end.

(** The lines that contain the phrase of the located name. *)
Definition occurrences (ls : list string) : list string :=
  match report_name ls with
  | Some name => filter (str_in (report_phrase name)) ls
  | None => []
  end.

(** The time of day of a line: its first HH:MM:SS, in seconds since
    midnight. *)
Definition hms (d : string) : option Z :=
  match split ":" (strip d) with
  | [h; m; s] =>
      match int h, int m, int s with
      | Some h, Some m, Some s => Some (h * 3600 + m * 60 + s)
      | _, _, _ => None
      end
  | _ => None
  end.

Definition clock (line : string) : option Z :=
  match Re.findall "\d{2}:\d{2}:\d{2}" line Re.no_flags with
  | Some (d :: _) => hms d
  | _ => None
  end.

Definition loop_count (ls : list string) : Z :=
  match report_name ls with
  | Some _ => Z.of_nat (List.length (occurrences ls)) - 1
  | None => 0
  end.

Definition loop_interval (ls : list string) : Z :=
  match occurrences ls with
  | l1 :: l2 :: _ =>
      match clock l1, clock l2 with
      | Some s1, Some s2 => s2 - s1
      | _, _ => -1
      end
  | _ => -1
  end.

(** Characters that [grep] and the shell read as they are. *)
Definition plain_char (c : ascii) : bool :=
  negb (existsb (Ascii.eqb c) (chars "\.*[^$'")).

Definition plain (s : string) : Prop := forallb plain_char (chars s) = true.

(** A log the loop measure is defined for: the name of the first report
    line is plain, that line carries the phrase of its name, and the first
    two lines with the phrase carry a time of day. *)
Definition regular (ls : list string) : Prop :=
  match located ls with
  | None => True
  | Some first =>
      match config_name first with
      | None => True
      | Some name =>
          plain name
          /\ str_in (report_phrase name) first = true
          /\ match filter (str_in (report_phrase name)) ls with
             | l1 :: l2 :: _ => clock l1 <> None /\ clock l2 <> None
             | _ => True
             end
      end
  end.

(** ** The run loop *)

Definition server_error : string :=
  "RemoteServerException: Server error attempting a GET.*returned status 500".

(** What the captured text of an attempt says. *)
Inductive judged : Type :=
| RateLimit        (* the 429 marker *)
| ServerError      (* the status-500 marker *)
| Fine.

Definition judge (text : string) : judged :=
  if found "status=429" text then RateLimit
  else if found server_error text then ServerError
  else Fine.

(** The wait before the retry after attempt [i], counted from 0. *)
Definition backoff (i : nat) (j : judged) : option Z :=
  match j with
  | RateLimit => Some (60 * (Z.of_nat i + 3))
  | ServerError => Some 60
  | Fine => None
  end.

(** The log records of the judgement. *)
Definition notes (i : nat) (text : string) : list logrec :=
  match judge text with
  | RateLimit =>
      [ find_record "status=429" text;
        {| lvl := WARNING;
           text := "429 code found, re-register virt-who host and try "
                   ++ "again after {wait_time} seconds...";
           args := [VInt (60 * (Z.of_nat i + 3))] |} ]
  | ServerError =>
      [ find_record "status=429" text; find_record server_error text;
        {| lvl := WARNING;
           text := "RemoteServerException return 500 code, restart "
                   ++ "virt-who again after 60s";
           args := [] |} ]
  | Fine => [ find_record "status=429" text; find_record server_error text ]
  end.

Definition exhausted : exn := FailException "Failed to run virt-who service.".

(** The launch attempts made in a trace. *)
Definition launches (tr : list event) : nat :=
  List.length (filter (fun e => match e with Spawn _ => true | _ => false end) tr).

Section Run.

Variable config : Configure.settings.
Variable self : VirtwhoRunner.
Variable cli : option string.
Variable wait : option Z.

(** [runs i w r w']: from attempt [i] in world [w] the run loop ends with
    [r] in world [w']. *)
Inductive runs : nat -> world -> res Result.t -> world -> Prop :=
| run_exhausted (w : world) :
    runs 4 w (Raise exhausted) w
| run_launch_failed (i : nat) (w w1 : world) (e : exn) :
    (i < 4)%nat ->
    thread_start self cli wait w = (Raise e, w1) ->
    runs i w (Raise e) w1
| run_retried (i : nat) (w w1 w' : world) (text : string) (secs : Z)
    (r : res Result.t) :
    (i < 4)%nat ->
    thread_start self cli wait w = (Ok text, w1) ->
    backoff i (judge text) = Some secs ->
    runs (S i) (traced (logged w1 (notes i text)) [Sleep secs]) r w' ->
    runs i w r w'
| run_succeeded (i : nat) (w w1 w' : world) (text : string)
    (r : res Result.t) :
    (i < 4)%nat ->
    thread_start self cli wait w = (Ok text, w1) ->
    backoff i (judge text) = None ->
    analyzer config self text (logged w1 (notes i text)) = (r, w') ->
    runs i w r w'.

End Run.

(** The fields of the result that are read from the text. *)
Definition text_fields (d : Result.t)
  : bool * bool * bool * Z * option string * option Z * Val.value * Val.value :=
  (Result.debug d, Result.oneshot d, Result.terminate d, Result.send d,
   Result.reporter_id d, Result.interval d, Result.mappings d,
   Result.hypervisor_id d).

End Spec.

(* ================================================================= *)
(** * Properties of computations

    [quiet c]: the value of [c] is the same in every world and [c] leaves
    the trace as it is (it may write log records).  [det c]: value and
    trace of [c] depend on the trace alone, not on the log records.
    [launches_le k c]: [c] starts the agent at most [k] times. *)

Module Effects.
Import Py Val World.

Definition quiet {A} (c : M A) : Prop :=
  exists v, forall w, fst (c w) = v /\ trace (snd (c w)) = trace w.

Definition det {A} (c : M A) : Prop :=
  forall w1 w2, trace w1 = trace w2 ->
    fst (c w1) = fst (c w2) /\ trace (snd (c w1)) = trace (snd (c w2)).

Definition launches_le {A} (k : nat) (c : M A) : Prop :=
  forall w, (Spec.launches (trace (snd (c w))) <= Spec.launches (trace w) + k)%nat.

End Effects.

(* ================================================================= *)
(** * Sample logs and hosts *)

Module Sample.
Import Py Val World Runner.

(** A log line is written with a back quote where the log has a double
    quote. *)
Definition q (s : string) : string :=
  str (map (fun c => if Ascii.eqb c "`" then dq else c) (chars s)).

Definition text (ls : list string) : string := Host.unlines (map q ls).

Definition config : Configure.settings :=
  fun _ => {| Configure.guest_uuid := "g1" |}.

Definition host (log : string) : remote :=
  Host.static {| Host.log_text := log; Host.print_text := None;
                 Host.processes := 1 |}.

(** A local-mode log with one guest. *)
Definition local_log : string :=
  text [ "2022-03-01 10:00:00,100 [virtwho.main DEBUG] Domain info: [";
         "    {";
         "        `guestId`: `g1`,";
         "        `attributes`: {`active`: 1, `virtWhoType`: `libvirt`},";
         "        `state`: 1";
         "    }";
         "]";
         "2022-03-01 10:00:01,100 [virtwho.main INFO] Sending update in guests lists for config `local` to 1 guests" ].

(** A log without mapping data. *)
Definition plain_log : string :=
  text [ "2022-03-01 10:00:00,100 [virtwho.main INFO] Waiting for reports" ].

(** A log with an ERROR line, a WARNING line and a line whose tag is in
    lower case. *)
Definition tagged_log : string :=
  text [ "2022-03-01 10:00:02,100 [virtwho.main WARNING] slow answer";
         "2022-03-01 10:00:01,100 [virtwho.main ERROR] no route to host";
         "2022-03-01 10:00:03,100 [virtwho.main error] lower case" ].

(** A log with one line whose tag is in lower case. *)
Definition lower_case_log : string :=
  text [ "2022-03-01 10:00:03,100 [virtwho.main error] lower case" ].

(** A log with three reports of one configuration, 60 seconds apart. *)
Definition loop_log : string :=
  text [ "2022-03-01 10:00:00,100 [virtwho.main INFO] Report for config `esx` gathered, placing in datastore";
         "2022-03-01 10:01:00,100 [virtwho.main INFO] Report for config `esx` gathered, placing in datastore";
         "2022-03-01 10:02:00,100 [virtwho.main INFO] Report for config `esx` gathered, placing in datastore" ].

(** A log with one report of the configuration [a.b] and one of [aXb]. *)
Definition dotted_log : string :=
  text [ "2022-03-01 10:00:00,100 [virtwho.main INFO] Report for config `a.b` gathered, placing in datastore";
         "2022-03-01 10:00:05,100 [virtwho.main INFO] Report for config `aXb` gathered, placing in datastore" ].

(** A log with two reports that carry no time of day. *)
Definition untimed_log : string :=
  text [ "Report for config `esx` gathered, placing in datastore";
         "Report for config `esx` gathered, placing in datastore" ].

(** A log with the rate-limit marker. *)
Definition limited_log : string :=
  text [ "2022-03-01 10:00:00,100 [rhsm.connection DEBUG] Response: status=429" ].

(** A log with an interval that is no number. *)
Definition odd_interval_log : string :=
  text [ "2022-03-01 10:00:00,100 [virtwho.main DEBUG] Starting infinite loop with ten seconds interval" ].

(** A remote-mode log: one block goes to [org1], a later one to [org2]. *)
Definition block (hypervisor guest : string) : list string :=
  [ "    `hypervisors`: [ { `hypervisorId`: {`hypervisorId`: `" ++ hypervisor ++ "`},";
    "        `name`: `host-" ++ hypervisor ++ "`,";
    "        `guestIds`: [ {`guestId`: `" ++ guest ++ "`, `state`: 1,";
    "            `attributes`: {`active`: 1, `virtWhoType`: `esx`}} ],";
    "        `facts`: {`hypervisor.type`: `VMware ESXi`, `hypervisor.version`: `6.7`,";
    "            `cpu.cpu_socket(s)`: `2`, `dmi.system.uuid`: `uuid-" ++ hypervisor ++ "`} } ]";
    "}" ].

Definition two_orgs_log : string :=
  text ([ "2022-03-01 10:00:00,100 [virtwho.destination DEBUG] Host-to-guest mapping being sent to 'org1': {" ]
        ++ block "hA" "gA"
        ++ [ "2022-03-01 10:00:01,100 [rhsm.connection DEBUG] Response: status=200" ]
        ++ [ "2022-03-01 10:00:02,100 [virtwho.destination DEBUG] Host-to-guest mapping being sent to 'org2': {" ]
        ++ block "hB" "gB"
        ++ [ "2022-03-01 10:00:03,100 [rhsm.connection DEBUG] Response: status=200" ])%list.

(** What [org_entry] stores for a block with one hypervisor and one guest. *)
Definition org_data_of (hypervisor guest : string) : value :=
  VDict [ (VStr "hypervisor_num", VInt 1);
          (VStr guest,
           VDict [ (VStr "guest_hypervisor", VStr hypervisor);
                   (VStr "state", VInt 1);
                   (VStr "active", VInt 1);
                   (VStr "type", VStr "esx") ]);
          (VStr hypervisor,
           VDict [ (VStr "name", VStr ("host-" ++ hypervisor));
                   (VStr "type", VStr "VMware ESXi");
                   (VStr "version", VStr "6.7");
                   (VStr "socket", VStr "2");
                   (VStr "dmi", VStr ("uuid-" ++ hypervisor));
                   (VStr "cluster", VStr "");
                   (VStr "guests", VList [VStr guest]) ]) ].

(** A host that counts one agent process the first time it is asked and
    none afterwards. *)
Definition fading_host : remote :=
  fun tr cmd =>
    if String.eqb cmd Host.count_cmd then
      if existsb (fun e => match e with
                           | Cmd c => String.eqb c Host.count_cmd
                           | _ => false
                           end) tr
      then (0, "0" ++ NL) else (0, "1" ++ NL)
    else Host.exec {| Host.log_text := plain_log; Host.print_text := None;
                      Host.processes := 0 |} cmd.

(** A host without agent process and with a print file. *)
Definition other_host : remote :=
  Host.static {| Host.log_text := plain_log; Host.print_text := Some "[]";
                 Host.processes := 0 |}.

(** A remote-mode log of one debug run: the reporter id, the interval, one
    mapping block sent to [org1] with the guest of [config], the answer of
    the server, and the end of the run. *)
Definition full_log : string :=
  text ([ "2022-03-01 10:00:00,100 [virtwho.main DEBUG] Using reporter_id='host-7f3a'";
          "2022-03-01 10:00:00,200 [virtwho.main DEBUG] Starting infinite loop with 3600 seconds interval";
          "2022-03-01 10:00:01,100 [virtwho.destination DEBUG] Host-to-guest mapping being sent to 'org1': {" ]
        ++ block "h1" "g1"
        ++ [ "2022-03-01 10:00:02,100 [rhsm.connection DEBUG] Response: status=200, requestUuid: 9c1, request=`POST /subscription/hypervisors/org1`";
             "2022-03-01 10:00:03,100 [virtwho.main DEBUG] Thread 'esx' stopped after running once";
             "2022-03-01 10:00:03,200 [virtwho.main DEBUG] virt-who terminated" ])%list.

(** A host without agent process, with a print file, and whose log file
    holds three reports. *)
Definition looping_host : remote :=
  Host.static {| Host.log_text := loop_log; Host.print_text := Some "[]";
                 Host.processes := 0 |}.

(** What the analyzer returns for [full_log]. *)
Definition full_result (threads loop loop_num : Z) (printed : option string)
  : Result.t :=
  {| Result.debug := true; Result.oneshot := true;
     Result.terminate := true; Result.thread := threads;
     Result.send := 1; Result.reporter_id := Some "host-7f3a";
     Result.interval := Some 3600; Result.loop := loop;
     Result.loop_num := loop_num;
     Result.mappings := VDict [ (VStr "orgs", VList [VStr "org1"]);
                                (VStr "org1", org_data_of "h1" "g1") ];
     Result.hypervisor_id := VStr "h1";
     Result.print_json := printed;
     Result.error := 0; Result.error_msg := "";
     Result.warning := 0; Result.warning_msg := "" |}.

(** What the analyzer returns for [plain_log]. *)
Definition plain_result (threads : Z) (printed : option string) : Result.t :=
  {| Result.debug := false; Result.oneshot := false;
     Result.terminate := false; Result.thread := threads;
     Result.send := 0; Result.reporter_id := None;
     Result.interval := None; Result.loop := -1; Result.loop_num := 0;
     Result.mappings := VDict []; Result.hypervisor_id := VStr "";
     Result.print_json := printed;
     Result.error := 0; Result.error_msg := "";
     Result.warning := 0; Result.warning_msg := "" |}.

End Sample.
(* ================================================================= *)
(** * What a computation adds to the trace

    [emits Q c]: whatever the world, [c] only appends events to the trace,
    and every event it appends satisfies [Q].  [sleeps_le k c]: the seconds
    [c] sleeps add up to [k] at most. *)

Module Footprint.
Import Py Val World Runner.
#[local] Open Scope list_scope.

Definition emits {A} (Q : event -> Prop) (c : M A) : Prop :=
  forall w, exists evs,
    trace (snd (c w)) = trace w ++ evs /\ Forall Q evs.

(** The seconds slept in a trace. *)
Definition slept (tr : list event) : Z :=
  fold_right (fun e acc => match e with Sleep s => s + acc | _ => acc end) 0 tr.

Definition sleeps_le {A} (k : Z) (c : M A) : Prop :=
  forall w, slept (trace (snd (c w))) <= slept (trace w) + k.

(** A command whose text begins as a process listing, a [grep] or a [cat]
    does.  Only the beginning is looked at. *)
Definition query_prefix (e : event) : bool :=
  match e with
  | Cmd c => starts_with (chars "ps -ef ") (chars c)
             || starts_with (chars "grep '") (chars c)
             || starts_with (chars "cat ") (chars c)
  | _ => false
  end.

(** The commands of the analyzer.  Five are fixed: the count of the agent
    processes, the search for the first report line, the [cat] of the print
    file and the sorted [grep] for the ERROR and the WARNING tag.  Two are
    built around a key: [loop_number] and [loop_info] put the key between
    the quotes of a [grep] as it is, and the key holds the name found in
    the first report line of the log. *)
Definition probes (self : VirtwhoRunner) : list string :=
  [ "ps -ef | grep virt-who -i | grep -v grep |wc -l";
    ("grep 'Report for config' " ++ rhsm_log_file self ++ " |" ++ NL
     ++ "                 grep 'placing in datastore' |" ++ NL
     ++ "                 head -1")%string;
    ("cat " ++ print_json_file self)%string;
    ("grep '\[.*ERROR.*\]' " ++ rhsm_log_file self ++ " |sort")%string;
    ("grep '\[.*WARNING.*\]' " ++ rhsm_log_file self ++ " |sort")%string ].

Definition keyed (self : VirtwhoRunner) (cmd : string) : Prop :=
  exists key,
    cmd = ("grep '" ++ key ++ "' " ++ rhsm_log_file self ++ " | wc -l")%string
    \/ cmd = ("grep '" ++ key ++ "' " ++ rhsm_log_file self ++ " | head -2")%string.

Definition probe (self : VirtwhoRunner) (e : event) : Prop :=
  match e with
  | Cmd c => In c (probes self) \/ keyed self c
  | _ => False
  end.

(** No launch. *)
Definition no_spawn (e : event) : Prop :=
  match e with Spawn _ => False | _ => True end.

(** No launch of anything but [cmd]. *)
Definition spawns_only (cmd : string) (e : event) : Prop :=
  match e with Spawn c => c = cmd | _ => True end.

(** The commands of [stop], in order. *)
Definition stop_events : list event :=
  [ Cmd "systemctl stop virt-who"; Sleep 10;
    Cmd ("ps -ef |" ++ NL
         ++ "                grep virt-who -i |" ++ NL
         ++ "                grep -v grep |" ++ NL
         ++ "                awk '{print $2}' |" ++ NL
         ++ "                xargs -I {} kill -9 {}");
    Cmd "rm -f /var/run/virt-who.pid" ].

(** The listing [kill_pid] asks for after the kill. *)
Definition survivors_cmd : string :=
  "ps -ef | grep virt-who -i | grep -v grep |sort".

(** The longest a run may sleep, in seconds: four attempts of a stop (10),
    the wait and 30 rounds of 15, and the back-off of 180, 240, 300 and
    360 after them. *)
Definition wait_secs (wait : option Z) : Z :=
  if set_num wait then match wait with Some z => z | None => 0 end else 0.

(** A wait that [time.sleep] accepts. *)
Definition sound_wait (wait : option Z) : Prop :=
  match wait with Some z => 0 <= z | None => True end.

Definition attempt_budget (wait : option Z) : Z :=
  10 + wait_secs wait + 30 * 15.

Definition run_budget (wait : option Z) : Z :=
  4 * attempt_budget wait + (180 + 240 + 300 + 360).

End Footprint.

(* ================================================================= *)
(** * Searching for messages *)

Module Search.
Import Py Val World Runner.

(** The messages of a search: one string or the strings of a list. *)
Definition items (ms : msgs) : list string :=
  match ms with Str s => [s] | Lst l => l end.





(** The word cafe with an acute accent on its last letter (code point
    233), and a text that has it in capitals (code point 201). *)
Definition cafe : string := str (chars "caf" ++ [ascii_of_nat 233]).

Definition cafe_ferme : string :=
  str (chars "CAF" ++ [ascii_of_nat 201] ++ chars " ferm" ++ [ascii_of_nat 233]).

End Search.

(* ================================================================= *)
(** * The data of the mappings *)

Module Mapping.
Import Py Val World Runner.

(** The patterns of [mappings_remote]. *)
Definition orgs_pattern : string :=
  "Host-to-guest mapping being sent to '(.*?)'".

Definition block_pattern : string := "(?<=: ){.*?}\n+(?=202|$)".

(** What [data] holds while the organisations [done] have been stored:
    every one of them refers to the shared dictionary, and the key [orgs]
    keeps the list of names unless one of them took it. *)
Definition stored (names : list string) (done : list string)
    (data : dict_of slot) : Prop :=
  (forall org, In org done -> dict_get (VStr org) data = Some Shared)
  /\ (~ In "orgs" done ->
      dict_get (VStr "orgs") data = Some (Own (VList (map VStr names)))).

End Mapping.

(* ================================================================= *)
(** * Places in a text *)

Module Text.
Import Py.

(** [s.find(sub)]: where [sub] begins first, counting from [i]. *)
Fixpoint find_from (p l : list ascii) (i : nat) : option nat :=
  if starts_with p l then Some i
  else match l with
       | [] => None
       | _ :: l' => find_from p l' (S i)
       end.

Definition find (sub s : string) : option nat :=
  find_from (chars sub) (chars s) 0.

(** A pattern that is a text, a group of any characters taken lazily, and
    a text. *)
Definition framed (l1 l2 : list ascii) : Re.regex :=
  Lang.then_lit l1
    (Re.Cat (Re.Grp (Re.Cat (Re.Rep Re.Dot 0 None false) Re.Eps))
       (Lang.then_lit l2 Re.Eps)).

End Text.

(* ================================================================= *)
(** * virtwho/configure.py: the configuration file of a mode

    [virtwho.settings.config] is a store of sections, each a bag of
    attributes; a section is named here, so that an assignment to an
    attribute is seen by every holder of the section.  The class
    [Configure] that keeps the file is not part of configure.py: what
    [create] asks of it is recorded, call by call. *)

Module ConfigFile.
Import Py Val.

(** [config.<section>.<attribute>] *)
Definition ini : Type := string -> string -> value.

Definition setattr (cfg : ini) (section attribute : string) (v : value) : ini :=
  fun s a => if String.eqb s section && String.eqb a attribute then v
             else cfg s a.

(** The section [get_register_handler] returns. *)
Definition get_register_handler (register_type : string) : string :=
  let register := "rhsm" in
  if String.eqb register_type "satellite" then "satellite" else register.

(** The section [get_hypervisor_handler] returns. *)
Definition get_hypervisor_handler (mode : string) : string :=
  let hypervisor := "esx" in
  if existsb (String.eqb mode)
       ["xen"; "hyperv"; "rhevm"; "libvirt"; "kubevirt"; "ahv"; "local"]
  then mode else hypervisor.

(** [VirtwhoHypervisorConfig], as far as [create] reads it. *)
Record VirtwhoHypervisorConfig : Type := {
  mode : string;
  section : string;
  register : string;
  hypervisor : string
}.

Definition init (mode register_type : string) : VirtwhoHypervisorConfig :=
  {| mode := mode;
     section := ("virtwho-" ++ mode)%string;
     register := get_register_handler register_type;
     hypervisor := get_hypervisor_handler mode |}.

(** A call [self.cfg.update(section, option, value)]. *)
Record update_call : Type := {
  in_section : string; option_name : string; new_value : value
}.

Definition update (self : VirtwhoHypervisorConfig) (option : string)
    (v : value) : update_call :=
  {| in_section := section self; option_name := option; new_value := v |}.

Definition spaces (n : nat) : string := str (repeat " "%char n).

Section Create.

(** [hostname_get(SSHConnect(host, user, pwd))] of virtwho.base: the
    name of the host, a text. *)
Variable hostname_get : value -> value -> value -> string.

(** The address [create] puts together in the mode rhevm: the text of
    the source goes over two lines, so the line end and the indentation
    of the second line are part of it. *)
Definition rhevm_server (cfg : ini) (self : VirtwhoHypervisorConfig) : string :=
  let ssh_host := cfg (hypervisor self) "server" in
  let ssh_user := cfg (hypervisor self) "ssh_username" in
  let ssh_pwd := cfg (hypervisor self) "ssh_password" in
  ("https://" ++ hostname_get ssh_host ssh_user ssh_pwd ++ ":" ++ NL
   ++ spaces 45 ++ "443/ovirt-engine")%string.

(** [create]: the calls of [update], in order, and the store after. *)
Definition create (cfg : ini) (self : VirtwhoHypervisorConfig)
  : list update_call * ini :=
  let calls :=
    if String.eqb (mode self) "local" then [update self "type" (VStr "libvirt")]
    else [update self "type" (VStr (mode self));
          update self "hypervisor_id" (VStr "hostname")] in
  let calls :=
    if String.eqb (mode self) "kubevirt"
    then (calls ++ [update self "kubeconfig"
                      (cfg (hypervisor self) "config_file")])%list
    else calls in
  let '(calls, cfg) :=
    if existsb (String.eqb (mode self))
         ["esx"; "xen"; "hyperv"; "rhevm"; "libvirt"; "ahv"]
    then
      let cfg :=
        if String.eqb (mode self) "rhevm"
        then setattr cfg (hypervisor self) "server"
               (VStr (rhevm_server cfg self))
        else cfg in
      ((calls ++ [update self "server" (cfg (hypervisor self) "server");
                  update self "username" (cfg (hypervisor self) "username");
                  update self "password" (cfg (hypervisor self) "password")])%list,
       cfg)
    else (calls, cfg) in
  ((calls ++ [update self "rhsm_hostname" (cfg (register self) "server");
              update self "rhsm_username" (cfg (register self) "username");
              update self "rhsm_password" (cfg (register self) "password");
              update self "rhsm_prefix" (cfg (register self) "prefix");
              update self "rhsm_port" (cfg (register self) "port");
              update self "owner" (cfg (register self) "default_org")])%list,
   cfg).

End Create.

(** The options every configuration file ends with. *)
Definition registration_options : list string :=
  ["rhsm_hostname"; "rhsm_username"; "rhsm_password"; "rhsm_prefix";
   "rhsm_port"; "owner"].

Definition remote_modes : list string :=
  ["esx"; "xen"; "hyperv"; "rhevm"; "libvirt"; "ahv"].

End ConfigFile.

(* ================================================================= *)
(** * The entries of the mappings *)

Module Entry.
Import Py Val.

(** What [mappings_local] keeps of a guest. *)
Definition local_guest (v : value) : Prop :=
  exists state active type,
    v = VDict [ (VStr "state", state); (VStr "active", active);
                (VStr "type", type) ].

(** What [mappings_remote] keeps in the shared dictionary: the number of
    hypervisors, a guest with its hypervisor, or the facts of a
    hypervisor with the list of its guests. *)
Definition remote_entry (v : value) : Prop :=
  (exists n, v = VInt n)
  \/ (exists hypervisor state active type,
        v = VDict [ (VStr "guest_hypervisor", hypervisor);
                    (VStr "state", state); (VStr "active", active);
                    (VStr "type", type) ])
  \/ (exists name type version socket dmi cluster guests,
        v = VDict [ (VStr "name", name); (VStr "type", type);
                    (VStr "version", version); (VStr "socket", socket);
                    (VStr "dmi", dmi); (VStr "cluster", cluster);
                    (VStr "guests", VList guests) ]).

Definition values_are (Q : value -> Prop) (d : dict) : Prop :=
  Forall (fun kv => Q (snd kv)) d.

(** What a key of the remote mappings holds: the list of organisations,
    or a dictionary of remote entries. *)
Definition remote_value (v : value) : Prop :=
  (exists names, v = VList names)
  \/ (exists d, v = VDict d /\ values_are remote_entry d).

(** The slots of [data] while [mappings_remote] runs. *)
Definition remote_slot (s : Runner.slot) : Prop :=
  match s with
  | Runner.Own v => exists names, v = VList names
  | Runner.Shared => True
  end.

End Entry.

(* ================================================================= *)
(** * More sample hosts *)

Module Hosts.
Import Py Val World.

(** A host on which an agent process survives the kill. *)
Definition busy : remote :=
  fun _ cmd =>
    if String.eqb cmd Footprint.survivors_cmd
    then (0, "root 812 1 0 10:00 ? 00:00:01 /usr/bin/python3 /usr/bin/virt-who"
             ++ NL)
    else (0, "").

End Hosts.

(* ================================================================= *)
(** * A host with a print file

    The print file as the commands of a run make it.  The command
    [rm -rf /root/print.json] removes the file; a launched command that
    ends with the redirection [ > /root/print.json] leaves its standard
    output in the file, [agent cmd] being the standard output of [cmd];
    [cat /root/print.json] shows the file, and fails without one.  Every
    other command is answered by [base] and leaves the file as it is. *)

Module PrintFile.
Import Py World Runner.

Definition path : string := "/root/print.json".

Definition ends_with (suffix s : string) : bool :=
  starts_with (rev (chars suffix)) (rev (chars s)).

Definition redirects (cmd : string) : bool := ends_with (" > " ++ path) cmd.

Definition step (agent : string -> string) (file : option string) (e : event)
  : option string :=
  match e with
  | Cmd c => if String.eqb c ("rm -rf " ++ path) then None else file
  | Spawn c => if redirects c then Some (agent c) else file
  | Sleep _ => file
  end.

(** The file after the events of [tr], [old] being the file before them. *)
Definition file (agent : string -> string) (old : option string)
    (tr : list event) : option string :=
  fold_left (step agent) tr old.

Definition host (agent : string -> string) (old : option string)
    (base : remote) : remote :=
  fun tr cmd =>
    if String.eqb cmd ("cat " ++ path) then
      match file agent old tr with
      | Some s => (0, s)
      | None => (1, "")
      end
    else base tr cmd.

(** What [print_json] returns for a file: nothing for no file and for an
    empty one. *)
Definition shown (f : option string) : option string :=
  match f with
  | Some s => if String.eqb s "" then None else Some s
  | None => None
  end.

(** An event that leaves the print file as it is. *)
Definition keeps (e : event) : bool :=
  match e with
  | Cmd c => negb (String.eqb c ("rm -rf " ++ path))
  | Spawn _ => false
  | Sleep _ => true
  end.

(** An agent that prints the command line it was started with, and a
    host with such an agent, a stale print file and no agent process left
    at the first poll. *)
Definition echo (cmd : string) : string := "ran " ++ cmd.

Definition sample : remote := host echo (Some "stale") Sample.other_host.

End PrintFile.


(* ================================================================= *)
(** * Properties *)

(** ** Strings *)

Module StrFacts.
Import Py.

Lemma append_assoc (a b c : string) : (a ++ b) ++ c = a ++ (b ++ c).
Proof. induction a as [|x a IH]; cbn; [reflexivity | now rewrite IH]. Qed.

Lemma append_nil_r (a : string) : a ++ "" = a.
Proof. induction a as [|x a IH]; cbn; [reflexivity | now rewrite IH]. Qed.

Lemma chars_append (a b : string) : chars (a ++ b) = (chars a ++ chars b)%list.
Proof.
  unfold chars. induction a as [|x a IH]; cbn; [reflexivity | now rewrite IH].
Qed.

Lemma str_chars (s : string) : str (chars s) = s.
Proof. apply string_of_list_ascii_of_string. Qed.

Lemma chars_str (l : list ascii) : chars (str l) = l.
Proof. apply list_ascii_of_string_of_list_ascii. Qed.

End StrFacts.

(** ** The matcher and the language of a pattern *)

Module ReFacts.
Import Py Re Lang.

Lemma orelse_some {A} (x : option A) (y : unit -> option A) :
  orelse x y <> None <-> x <> None \/ y tt <> None.
Proof.
  unfold orelse. destruct x; split; intros H.
  - left. discriminate.
  - discriminate.
  - right. exact H.
  - destruct H as [H|H]; [congruence | exact H].
Qed.

Lemma pos_eta (p : pos) : at_ (seen p) (rest p) (grp p) = p.
Proof. now destruct p. Qed.

Lemma hi_allows_within (hi : option nat) (n : nat) :
  within hi (S n) <-> hi_allows hi = true /\ within (hi_pred hi) n.
Proof.
  destruct hi as [[|h]|]; cbn; split; intros H; try tauto; try lia.
Qed.

(** A quantified atom: some run of matching characters, long enough and
    not too long, after which the continuation succeeds. *)
Lemma rep_iff (fl : flags) (a : atom) (greedy : bool) (g : option (list ascii))
    (k : pos -> option pos) (rs : list ascii) :
  forall (lo : nat) (hi : option nat) (sn : list ascii),
    rep fl a greedy lo hi sn rs g k <> None
    <-> exists s1 s2,
          rs = (s1 ++ s2)%list
          /\ Forall (fun x => atom_ok fl a x = true) s1
          /\ (lo <= List.length s1)%nat /\ within hi (List.length s1)
          /\ k (at_ (rev s1 ++ sn) s2 g) <> None.
Proof.
  induction rs as [|x rs IH]; intros lo hi sn.
  - cbn [rep]. destruct lo as [|lo].
    + assert (E : (if greedy
                   then orelse None (fun _ => k (at_ sn [] g))
                   else orelse (k (at_ sn [] g)) (fun _ => None)) <> None
                  <-> k (at_ sn [] g) <> None).
      { destruct greedy; rewrite orelse_some; cbn; tauto. }
      rewrite E. split.
      * intros H. exists [], []. cbn. repeat split; auto; try lia.
        destruct hi; cbn; auto; lia.
      * intros (s1 & s2 & E1 & _ & _ & _ & Hk).
        symmetry in E1. apply app_eq_nil in E1. destruct E1; subst. exact Hk.
    + split; [congruence|].
      intros (s1 & s2 & E1 & _ & Hlo & _).
      symmetry in E1. apply app_eq_nil in E1. destruct E1; subst. cbn in Hlo. lia.
  - cbn [rep].
    set (more := if hi_allows hi && atom_ok fl a x
                 then rep fl a greedy (pred lo) (hi_pred hi) (x :: sn) rs g k
                 else None).
    assert (Hmore : more <> None
                    <-> exists s1 s2,
                          rs = (s1 ++ s2)%list
                          /\ Forall (fun y => atom_ok fl a y = true) (x :: s1)
                          /\ (lo <= S (List.length s1))%nat
                          /\ within hi (S (List.length s1))
                          /\ k (at_ (rev (x :: s1) ++ sn) s2 g) <> None).
    { subst more. destruct (hi_allows hi) eqn:Eh, (atom_ok fl a x) eqn:Ea;
        cbn [andb].
      - rewrite IH. split.
        + intros (s1 & s2 & E1 & F & Hlo & Hhi & Hk). exists s1, s2.
          repeat split; auto; try lia.
          * apply hi_allows_within. auto.
          * cbn [rev]. rewrite <- app_assoc. exact Hk.
        + intros (s1 & s2 & E1 & F & Hlo & Hhi & Hk). exists s1, s2.
          repeat split; auto; try lia.
          * now inversion F.
          * apply hi_allows_within in Hhi. tauto.
          * cbn [rev] in Hk. rewrite <- app_assoc in Hk. exact Hk.
      - split; [congruence|]. intros (s1 & s2 & _ & F & _). inversion F. congruence.
      - split; [congruence|]. intros (s1 & s2 & _ & _ & _ & Hhi & _).
        apply hi_allows_within in Hhi. destruct Hhi. congruence.
      - split; [congruence|]. intros (s1 & s2 & _ & F & _). inversion F. congruence. }
    destruct lo as [|lo].
    + assert (E : (if greedy
                   then orelse more (fun _ => k (at_ sn (x :: rs) g))
                   else orelse (k (at_ sn (x :: rs) g)) (fun _ => more)) <> None
                  <-> more <> None \/ k (at_ sn (x :: rs) g) <> None).
      { destruct greedy; rewrite orelse_some; tauto. }
      rewrite E, Hmore. split.
      * intros [(s1 & s2 & E1 & F & Hlo & Hhi & Hk) | Hk].
        -- exists (x :: s1), s2. cbn [app List.length]. subst rs.
           repeat split; auto.
        -- exists [], (x :: rs). cbn. repeat split; auto.
           destruct hi; cbn; auto; lia.
      * intros (s1 & s2 & E1 & F & Hlo & Hhi & Hk).
        destruct s1 as [|y s1]; cbn in E1.
        -- right. subst s2. exact Hk.
        -- left. injection E1 as -> ->. exists s1, s2. repeat split; auto.
    + rewrite Hmore. split.
      * intros (s1 & s2 & E1 & F & Hlo & Hhi & Hk).
        exists (x :: s1), s2. cbn [app List.length]. subst rs.
        repeat split; auto.
      * intros (s1 & s2 & E1 & F & Hlo & Hhi & Hk).
        destruct s1 as [|y s1]; cbn in E1, Hlo; [lia|].
        injection E1 as -> ->. exists s1, s2. repeat split; auto.
Qed.

(** The matcher succeeds exactly when a prefix of the text to come is in
    the language of the pattern and the continuation succeeds behind it. *)
Lemma run_iff (fl : flags) (r : regex) :
  simple r = true ->
  forall (p : pos) (k : pos -> option pos),
    run fl r p k <> None
    <-> exists s1 s2,
          rest p = (s1 ++ s2)%list /\ lang fl r s1
          /\ k (at_ (rev s1 ++ seen p) s2 (grp p)) <> None.
Proof.
  induction r as [ | a | a lo hi greedy | r1 IH1 r2 IH2 | r1 IH1 r2 IH2
                 | r1 _ | r1 _ | l | ]; cbn [simple]; try discriminate;
    intros Hs p k.
  - cbn [run lang]. split.
    + intros H. exists [], (rest p). cbn. rewrite pos_eta. auto.
    + intros (s1 & s2 & E & -> & Hk). cbn in E, Hk. subst s2.
      now rewrite pos_eta in Hk.
  - cbn [run lang]. destruct (rest p) as [|x rs] eqn:Er.
    + split; [congruence|]. intros (s1 & s2 & E & (y & -> & _) & _). discriminate.
    + destruct (atom_ok fl a x) eqn:Ea.
      * split.
        -- intros H. exists [x], rs. cbn. eauto.
        -- intros (s1 & s2 & E & (y & -> & Hy) & Hk). cbn in E.
           injection E as -> ->. exact Hk.
      * split; [congruence|]. intros (s1 & s2 & E & (y & -> & Hy) & _).
        cbn in E. injection E as -> ->. congruence.
  - cbn [run lang]. rewrite rep_iff. split.
    + intros (s1 & s2 & E & F & Hlo & Hhi & Hk). exists s1, s2. auto.
    + intros (s1 & s2 & E & (F & Hlo & Hhi) & Hk). exists s1, s2. auto.
  - apply andb_prop in Hs. destruct Hs as [Hs1 Hs2].
    cbn [run lang]. rewrite (IH1 Hs1). split.
    + intros (s1 & s2 & E & L1 & Hk). rewrite (IH2 Hs2) in Hk.
      cbn [rest seen grp at_] in Hk. destruct Hk as (t1 & t2 & E2 & L2 & Hk).
      exists (s1 ++ t1)%list, t2. subst s2. rewrite <- app_assoc.
      split; [exact E|]. split; [eauto|].
      rewrite rev_app_distr, <- app_assoc. exact Hk.
    + intros (s & s2 & E & (s1 & t1 & -> & L1 & L2) & Hk).
      exists s1, (t1 ++ s2)%list. rewrite <- app_assoc in E. split; [exact E|].
      split; [exact L1|]. rewrite (IH2 Hs2). cbn [rest seen grp at_].
      exists t1, s2. split; [reflexivity|]. split; [exact L2|].
      rewrite rev_app_distr, <- app_assoc in Hk. exact Hk.
  - apply andb_prop in Hs. destruct Hs as [Hs1 Hs2].
    cbn [run lang]. rewrite orelse_some, (IH1 Hs1), (IH2 Hs2). split.
    + intros [(s1 & s2 & E & L & Hk) | (s1 & s2 & E & L & Hk)];
        exists s1, s2; auto.
    + intros (s1 & s2 & E & [L|L] & Hk); [left | right]; exists s1, s2; auto.
Qed.

(** [search]: some part of the text is in the language. *)
Lemma search_iff (fl : flags) (r : regex) (rs : list ascii) :
  simple r = true ->
  forall sn,
    search fl r sn rs = true
    <-> exists pre mid post, rs = (pre ++ mid ++ post)%list /\ lang fl r mid.
Proof.
  intros Hs. induction rs as [|x rs IH]; intros sn; cbn [search].
  - destruct (match_at fl r false sn []) as [p|] eqn:Em.
    + split; [|reflexivity]. intros _.
      assert (H : match_at fl r false sn [] <> None) by congruence.
      unfold match_at in H. rewrite (run_iff fl r Hs) in H.
      destruct H as (s1 & s2 & E & L & _). cbn in E.
      exists [], s1, s2. auto.
    + split; [discriminate|]. intros (pre & mid & post & E & L).
      symmetry in E. apply app_eq_nil in E. destruct E as [-> E].
      apply app_eq_nil in E. destruct E as [-> ->].
      assert (H : match_at fl r false sn [] <> None).
      { unfold match_at. rewrite (run_iff fl r Hs). exists [], []. cbn. 
        split; [reflexivity|]. split; [exact L | discriminate]. }
      congruence.
  - destruct (match_at fl r false sn (x :: rs)) as [p|] eqn:Em.
    + split; [|reflexivity]. intros _.
      assert (H : match_at fl r false sn (x :: rs) <> None) by congruence.
      unfold match_at in H. rewrite (run_iff fl r Hs) in H.
      destruct H as (s1 & s2 & E & L & _). cbn in E.
      exists [], s1, s2. auto.
    + rewrite IH. split.
      * intros (pre & mid & post & E & L). exists (x :: pre), mid, post.
        subst rs. auto.
      * intros (pre & mid & post & E & L). destruct pre as [|y pre].
        -- exfalso. cbn in E.
           assert (H : match_at fl r false sn (x :: rs) <> None).
           { unfold match_at. rewrite (run_iff fl r Hs). exists mid, post.
             cbn. split; [exact E|]. split; [exact L | discriminate]. }
           congruence.
        -- cbn in E. injection E as -> ->. exists pre, mid, post. auto.
Qed.

End ReFacts.

(** ** Computations and the world *)

Module WorldFacts.
Import Py Val World.
Export Effects.

Lemma quiet_ret {A} (a : A) : quiet (ret a).
Proof. exists (Ok a). intros w. split; reflexivity. Qed.

Lemma quiet_raise {A} (e : exn) : quiet (raise (A := A) e).
Proof. exists (Raise e). intros w. split; reflexivity. Qed.

Lemma quiet_lift {A} (r : res A) : quiet (lift r).
Proof. exists r. intros w. split; reflexivity. Qed.

Lemma quiet_log l m vs : quiet (log l m vs).
Proof. exists (Ok tt). intros w. split; reflexivity. Qed.

Lemma quiet_bind {A B} (c : M A) (f : A -> M B) :
  quiet c -> (forall a, quiet (f a)) -> quiet (bind c f).
Proof.
  intros [v Hc] Hf. destruct v as [a|e].
  - destruct (Hf a) as [vf Hfa]. exists vf. intros w. unfold bind.
    destruct (Hc w) as [E1 E2]. destruct (c w) as [r w']. cbn in E1, E2.
    subst r. destruct (Hfa w') as [E3 E4]. rewrite E4, E2. auto.
  - exists (Raise e). intros w. unfold bind.
    destruct (Hc w) as [E1 E2]. destruct (c w) as [r w']. cbn in E1, E2.
    subst r. auto.
Qed.

Lemma quiet_for_each {A S R} (l : list A) (body : A -> S -> M (ctl S R)) :
  (forall x s, quiet (body x s)) -> forall s, quiet (for_each l s body).
Proof.
  intros Hb. induction l as [|x l IH]; intros s; cbn [for_each].
  - apply quiet_ret.
  - apply quiet_bind; [apply Hb|]. intros [s'|s'|r]; auto using quiet_ret.
Qed.

(** The value of a quiet computation, read in two worlds. *)
Lemma quiet_value {A} (c : M A) (w1 w2 : world) :
  quiet c -> fst (c w1) = fst (c w2).
Proof.
  intros [v H]. destruct (H w1) as [E1 _]. destruct (H w2) as [E2 _].
  congruence.
Qed.

Lemma quiet_trace {A} (c : M A) (w : world) :
  quiet c -> trace (snd (c w)) = trace w.
Proof. intros [v H]. apply H. Qed.

Lemma quiet_det {A} (c : M A) : quiet c -> det c.
Proof.
  intros H w1 w2 E. split; [apply quiet_value, H|].
  rewrite !quiet_trace by exact H. exact E.
Qed.

Lemma det_emit (e : event) : det (emit e).
Proof. intros w1 w2 E. cbn. rewrite E. auto. Qed.

Lemma det_runcmd (ssh : remote) (cmd : string) : det (runcmd ssh cmd).
Proof. intros w1 w2 E. cbn. rewrite E. auto. Qed.

Lemma det_bind {A B} (c : M A) (f : A -> M B) :
  det c -> (forall a, det (f a)) -> det (bind c f).
Proof.
  intros Hc Hf w1 w2 E. unfold bind.
  destruct (Hc w1 w2 E) as [E1 E2].
  destruct (c w1) as [r1 w1'], (c w2) as [r2 w2']. cbn in E1, E2. subst r2.
  destruct r1 as [a|e]; [apply Hf; exact E2 | auto].
Qed.

Lemma det_for_each {A S R} (l : list A) (body : A -> S -> M (ctl S R)) :
  (forall x s, det (body x s)) -> forall s, det (for_each l s body).
Proof.
  intros Hb. induction l as [|x l IH]; intros s; cbn [for_each].
  - apply quiet_det, quiet_ret.
  - apply det_bind; [apply Hb|].
    intros [s'|s'|r]; auto using quiet_det, quiet_ret.
Qed.

Lemma launches_app (a b : list event) :
  Spec.launches (a ++ b) = (Spec.launches a + Spec.launches b)%nat.
Proof. unfold Spec.launches. now rewrite filter_app, length_app. Qed.

Lemma launches_quiet {A} (c : M A) : quiet c -> launches_le 0 c.
Proof. intros H w. rewrite (quiet_trace c w H). lia. Qed.

Lemma launches_runcmd ssh cmd : launches_le 0 (runcmd ssh cmd).
Proof.
  intros w. unfold runcmd. cbn [snd trace]. rewrite launches_app. cbn. lia.
Qed.

Lemma sleep_ok (secs : Z) (w : world) :
  0 <= secs -> sleep secs w = emit (Sleep secs) w.
Proof. intros H. unfold sleep. now destruct (Z.ltb_spec secs 0); [lia|]. Qed.

Lemma sleep_neg (secs : Z) (w : world) :
  secs < 0 -> sleep secs w = (Raise ValueError, w).
Proof. intros H. unfold sleep. now destruct (Z.ltb_spec secs 0); [|lia]. Qed.

Lemma launches_sleep secs : launches_le 0 (sleep secs).
Proof.
  intros w. unfold sleep, emit, raise. destruct (secs <? 0).
  - cbn [snd]. lia.
  - cbn [snd trace]. rewrite launches_app. cbn. lia.
Qed.

Lemma launches_spawn cmd : launches_le 1 (spawn cmd).
Proof.
  intros w. unfold spawn, emit. cbn [snd trace]. rewrite launches_app. cbn. lia.
Qed.

Lemma launches_bind {A B} (k1 k2 : nat) (c : M A) (f : A -> M B) :
  launches_le k1 c -> (forall a, launches_le k2 (f a)) ->
  launches_le (k1 + k2) (bind c f).
Proof.
  intros Hc Hf w. unfold bind. specialize (Hc w).
  destruct (c w) as [[a|e] w']; cbn [snd] in *.
  - specialize (Hf a w'). lia.
  - lia.
Qed.

Lemma launches_free_bind {A B} (c : M A) (f : A -> M B) :
  launches_le 0 c -> (forall a, launches_le 0 (f a)) ->
  launches_le 0 (bind c f).
Proof. apply (launches_bind 0 0). Qed.

Lemma launches_for_each {A S R} (l : list A) (body : A -> S -> M (ctl S R)) :
  (forall x s, launches_le 0 (body x s)) ->
  forall s, launches_le 0 (for_each l s body).
Proof.
  intros Hb. induction l as [|x l IH]; intros s; cbn [for_each].
  - apply launches_quiet, quiet_ret.
  - apply launches_free_bind; [apply Hb|].
    intros [s'|s'|r]; auto using launches_quiet, quiet_ret.
Qed.

Lemma launches_weaken {A} (k k' : nat) (c : M A) :
  (k <= k')%nat -> launches_le k c -> launches_le k' c.
Proof. intros Hk H w. specialize (H w). lia. Qed.

End WorldFacts.

(** ** Lines *)

Module LineFacts.
Import Py StrFacts Lines.
#[local] Open Scope list_scope.

Lemma split_chars_nonempty (sep : ascii) (l : list ascii) :
  split_chars sep l <> [].
Proof.
  induction l as [|c l IH]; cbn; [discriminate|].
  destruct (Ascii.eqb c sep); [discriminate|].
  destruct (split_chars sep l); [congruence | discriminate].
Qed.

Lemma split_chars_plain (sep : ascii) (l : list ascii) :
  ~ In sep l -> split_chars sep l = [l].
Proof.
  induction l as [|c l IH]; intros H; cbn; [reflexivity|].
  destruct (Ascii.eqb_spec c sep) as [->|Hc]; [exfalso; apply H; now left|].
  rewrite IH; [reflexivity|]. intros Hin. apply H. now right.
Qed.

Lemma split_chars_sep (sep : ascii) (l rest : list ascii) :
  ~ In sep l ->
  split_chars sep (l ++ sep :: rest) = l :: split_chars sep rest.
Proof.
  induction l as [|c l IH]; intros H; cbn.
  - now rewrite Ascii.eqb_refl.
  - destruct (Ascii.eqb_spec c sep) as [->|Hc]; [exfalso; apply H; now left|].
    rewrite IH; [reflexivity|]. intros Hin. apply H. now right.
Qed.

Lemma split_chars_no_sep (sep : ascii) (l f : list ascii) :
  In f (split_chars sep l) -> ~ In sep f.
Proof.
  revert f. induction l as [|c l IH]; intros f; cbn.
  - intros [<-|[]]. auto.
  - destruct (Ascii.eqb_spec c sep) as [->|Hc].
    + intros [<-|H]; [auto | now apply IH].
    + destruct (split_chars sep l) as [|g gs] eqn:E.
      * intros [<-|[]]. intros [E'|[]]. congruence.
      * intros [<-|H].
        -- intros [E'|H']; [congruence|]. apply (IH g); [now left | exact H'].
        -- apply IH. now right.
Qed.

Lemma split_ulines (front : list (list ascii)) (r : list ascii) :
  Forall (fun l => ~ In nl l) front -> ~ In nl r ->
  split_chars nl (ulines front ++ r) = front ++ [r].
Proof.
  intros Hf Hr. induction Hf as [|l front Hl Hf IH]; cbn.
  - now apply split_chars_plain.
  - unfold ulines in *. cbn [map List.concat].
    rewrite <- !app_assoc. cbn [app]. rewrite split_chars_sep by exact Hl.
    now rewrite IH.
Qed.

Lemma lstrip_app (a b : list ascii) :
  (exists x, In x a /\ is_space x = false) -> lstrip (a ++ b) = lstrip a ++ b.
Proof.
  induction a as [|c a IH]; intros (x & Hin & Hx); [destruct Hin|].
  cbn. destruct (is_space c) eqn:Ec; [|reflexivity].
  apply IH. destruct Hin as [->|Hin]; [congruence | eauto].
Qed.

Lemma lstrip_incl (a : list ascii) (x : ascii) : In x (lstrip a) -> In x a.
Proof.
  induction a as [|c a IH]; cbn; [auto|].
  destruct (is_space c); [intros H; right; auto | auto].
Qed.

Lemma lstrip_keeps (a : list ascii) :
  (exists x, In x a /\ is_space x = false) ->
  exists x, In x (lstrip a) /\ is_space x = false.
Proof.
  induction a as [|c a IH]; intros (x & Hin & Hx); [destruct Hin|].
  cbn. destruct (is_space c) eqn:Ec.
  - apply IH. destruct Hin as [->|Hin]; [congruence | eauto].
  - exists c. split; [now left | exact Ec].
Qed.

Lemma solid_lstrip (l : list ascii) : solid l -> solid (lstrip l).
Proof.
  intros [Hn Hx]. split; [|now apply lstrip_keeps].
  intros H. apply Hn. now apply lstrip_incl.
Qed.

Lemma solid_rev (l : list ascii) : solid l -> solid (rev l).
Proof.
  intros [Hn (x & Hin & Hx)]. split.
  - intros H. apply Hn. now apply in_rev.
  - exists x. split; [now apply in_rev in Hin | exact Hx].
    Unshelve.
Qed.

Lemma ulines_snoc (front : list (list ascii)) (l : list ascii) :
  ulines (front ++ [l]) = ulines front ++ l ++ [nl].
Proof.
  unfold ulines. rewrite map_app, concat_app. cbn. now rewrite app_nil_r.
Qed.

Lemma nl_space : is_space nl = true.
Proof. reflexivity. Qed.

Lemma rstrip_ulines_fields (ls : list (list ascii)) :
  ls <> [] -> Forall solid ls ->
  List.length (split_chars nl (rev (lstrip (rev (ulines ls))))) = List.length ls.
Proof.
  intros Hne Hs.
  destruct (exists_last Hne) as (front & last & ->).
  apply Forall_app in Hs. destruct Hs as [Hf Hl].
  inversion Hl as [|? ? Hlast _]; subst.
  rewrite ulines_snoc, app_assoc, rev_app_distr. cbn [rev app lstrip].
  rewrite nl_space, rev_app_distr.
  rewrite lstrip_app by (apply solid_rev, Hlast).
  rewrite rev_app_distr, rev_involutive.
  rewrite split_ulines.
  - rewrite !length_app. reflexivity.
  - eapply Forall_impl; [|exact Hf]. intros l Hsol. apply Hsol.
  - intros H. apply in_rev in H. apply lstrip_incl in H. apply in_rev in H.
    now apply Hlast.
Qed.

(** Stripping the printed lines leaves as many fields as there are
    lines. *)
Lemma strip_ulines_fields (ls : list (list ascii)) :
  ls <> [] -> Forall solid ls ->
  List.length (split_chars nl (strip_chars (ulines ls))) = List.length ls.
Proof.
  intros Hne Hs. destruct ls as [|l1 tl]; [congruence|]. clear Hne.
  inversion Hs as [|? ? H1 Htl]; subst.
  unfold strip_chars.
  assert (E1 : lstrip (ulines (l1 :: tl)) = ulines (lstrip l1 :: tl)).
  { unfold ulines. cbn [map List.concat]. rewrite <- !app_assoc.
    apply lstrip_app. apply H1. }
  rewrite E1. rewrite rstrip_ulines_fields; [reflexivity | discriminate |].
  constructor; [now apply solid_lstrip | exact Htl].
Qed.

Lemma concat_cons (x : string) (xs : list string) :
  String.concat "" (x :: xs) = (x ++ String.concat "" xs)%string.
Proof.
  destruct xs as [|y ys]; cbn [String.concat].
  - now rewrite append_nil_r.
  - reflexivity.
Qed.

Lemma chars_unlines (ls : list string) :
  chars (Host.unlines ls) = ulines (map chars ls).
Proof.
  unfold Host.unlines, ulines. induction ls as [|l ls IH]; [reflexivity|].
  cbn [map List.concat]. rewrite concat_cons, chars_append, IH, chars_append.
  reflexivity.
Qed.

(** [len(output.strip().split("\n"))] of printed lines. *)
Lemma count_printed (ls : list string) :
  ls <> [] -> Forall (fun l => solid (chars l)) ls ->
  List.length (split nl (strip (Host.unlines ls))) = List.length ls.
Proof.
  intros Hne Hs. unfold split, strip. rewrite length_map, chars_str, chars_unlines.
  rewrite strip_ulines_fields.
  - apply length_map.
  - destruct ls; [congruence | discriminate].
  - apply Forall_map. exact Hs.
Qed.

Lemma unlines_nonempty (l : string) (ls : list string) :
  String.eqb (Host.unlines (l :: ls)) "" = false.
Proof.
  apply String.eqb_neq. intros H. apply (f_equal chars) in H.
  rewrite chars_unlines in H. unfold ulines in H. cbn in H.
  destruct (chars l); discriminate.
Qed.

(** The lines of a file have no newline inside. *)
Lemma file_lines_no_nl (s l : string) :
  In l (Host.file_lines s) -> ~ In nl (chars l).
Proof.
  unfold Host.file_lines, split. intros H.
  assert (Hin : In l (map str (split_chars nl (chars s)))).
  { destruct (rev (map str (split_chars nl (chars s)))) as [|last front] eqn:E;
      [exact H|].
    destruct (String.eqb last ""); [|exact H].
    apply in_rev. rewrite E. right. now apply in_rev in H. }
  apply in_map_iff in Hin. destruct Hin as (f & <- & Hf).
  rewrite chars_str. eapply split_chars_no_sep. exact Hf.
Qed.

End LineFacts.

Module Facts.
Import Py Val World Runner StrFacts ReFacts WorldFacts Lines LineFacts.
#[local] Open Scope monad_scope.

(** ** The command line *)

Lemma cli_of_command_line mode rt conn
    (debug oneshot prt : bool) (interval : option Z) (config : option string) :
  cli_of (init mode rt conn) debug oneshot interval prt config
  = Spec.command_line mode debug oneshot (Spec.given interval) prt config.
Proof.
  unfold cli_of, Spec.command_line, Spec.given.
  cbn [config_file print_json_file init].
  destruct interval as [n|]; [destruct (n =? 0); cbn [negb]|];
    destruct debug, oneshot, prt; destruct config as [c|];
    try (destruct (String.eqb c ""); [|destruct (String.eqb c "default")]);
    cbn; rewrite ?append_assoc; cbn; rewrite ?append_assoc; reflexivity.
Qed.

(** ** Patterns *)

Lemma findall_compiled (pat s : string) (fl : Re.flags) (r : Re.regex) :
  Re.compile pat = Some r ->
  Re.findall pat s fl = Some (map str (Re.scan fl r [] (chars s) 0)).
Proof. intros H. unfold Re.findall. now rewrite H. Qed.

(** Every pattern of runner.py is inside the fragment. *)
Lemma patterns_compile :
  Forall (fun pat => Re.compile pat <> None)
    [ "\[.*DEBUG\]"; "Thread '.*' stopped after running once";
      "virt-who terminated"; "status=429"; "\[.*ERROR.*\]";
      "RemoteServerException: Server error attempting a GET.*returned status 500";
      "0 hypervisors and 0 guests found";
      Spec.http_success Spec.Satellite true;
      Spec.http_success Spec.Satellite false;
      Spec.http_success Spec.Rhsm true;
      Spec.http_success Spec.Rhsm false;
      "Sending update in guests lists for config";
      "Sending updated Host-to-guest mapping to";
      "reporter_id='(.*?)'";
      "Starting infinite loop with(.*?)seconds interval";
      "Report for config " ++ DQ ++ "(.*?)" ++ DQ;
      "\d{2}:\d{2}:\d{2}";
      "(?<=Domain info: )\[.*?\]\n+(?=\d\d\d\d|$)";
      "Host-to-guest mapping being sent to '(.*?)'";
      "(?<=: ){.*?}\n+(?=202|$)" ].
Proof. repeat constructor; vm_compute; discriminate. Qed.

Lemma hits_findall (pat s : string) :
  Re.compile pat <> None ->
  exists l, Re.findall pat s Re.I = Some l /\ Spec.hits pat s = count l.
Proof.
  intros H. unfold Spec.hits, Re.findall.
  destruct (Re.compile pat) as [r|]; [|congruence].
  eexists; split; reflexivity.
Qed.

(** ** send-count *)

Lemma send_msg_table (b : Spec.backend) (mode : string) (conn : remote)
    (rhsm_log : string) :
  send_msg (init mode (Spec.backend_name b) conn) rhsm_log
  = Spec.send_pattern b (String.eqb mode "local") (Spec.branch_of rhsm_log).
Proof.
  unfold send_msg, Spec.send_pattern, Spec.branch_of.
  cbn [register_type Runner.mode init].
  assert (E1 : str_in "satellite" "rhsm" = false) by reflexivity.
  assert (E2 : str_in "rhsm" "rhsm" = true) by reflexivity.
  assert (E3 : str_in "satellite" "satellite" = true) by reflexivity.
  assert (E4 : str_in "rhsm" "satellite" = false) by reflexivity.
  destruct (str_in "0 hypervisors and 0 guests found" rhsm_log); [reflexivity|].
  destruct (str_in "virtwho.main DEBUG" rhsm_log
            || str_in "rhsm.connection DEBUG" rhsm_log); [|reflexivity].
  destruct b; cbn [Spec.backend_name]; rewrite ?E1, ?E2, ?E3, ?E4;
    destruct (String.eqb mode "local"); reflexivity.
Qed.

Lemma send_pattern_compiles (b : Spec.backend) (local : bool) (br : Spec.branch) :
  Re.compile (Spec.send_pattern b local br) <> None.
Proof. destruct b, local, br; vm_compute; discriminate. Qed.

(** C4.  [send_number] selects its pattern by three exclusive branches of
    the text (the zero-found phrase, else a debug marker and the HTTP
    success string of the backend and mode, else the sending phrase of the
    mode) and returns the number of non-overlapping, case-insensitive
    matches of that pattern. *)
Theorem send_number_decision_table (b : Spec.backend) (mode : string)
    (conn : remote) (rhsm_log : string) (w : world) :
  let self := init mode (Spec.backend_name b) conn in
  let pat := Spec.send_pattern b (String.eqb mode "local")
               (Spec.branch_of rhsm_log) in
  exists l,
    Re.findall pat rhsm_log Re.I = Some l
    /\ send_number self rhsm_log w = (Ok (count l), w).
Proof.
  intros self pat.
  destruct (hits_findall pat rhsm_log) as [l [Hl _]].
  { apply send_pattern_compiles. }
  exists l. split; [exact Hl|].
  unfold send_number, self. rewrite send_msg_table. fold pat.
  unfold bind, re_findall. rewrite Hl. reflexivity.
Qed.

(** ** Failing inputs of the analyzer *)

(** C1.  The analyzer raises on malformed or absent data: in local mode a
    text without a [Domain info:] block raises [IndexError]; an interval
    that is no number raises [ValueError]; in local mode a text with
    guests raises [KeyError] in the hypervisor-id lookup. *)
Theorem analyzer_raises :
  fst (analyzer Sample.config
         (init "local" "rhsm" (Sample.host Sample.plain_log))
         Sample.plain_log start_world) = Raise IndexError
  /\ fst (analyzer Sample.config
            (init "esx" "rhsm" (Sample.host Sample.odd_interval_log))
            Sample.odd_interval_log start_world) = Raise ValueError
  /\ fst (analyzer Sample.config
            (init "local" "rhsm" (Sample.host Sample.local_log))
            Sample.local_log start_world) = Raise KeyError.
Proof.
  split; [vm_compute; reflexivity|].
  split; vm_compute; reflexivity.
Qed.

(** C7.  In local mode a text without mapping data makes [mappings] raise
    [IndexError]; no mapping object is returned. *)
Theorem mappings_local_raises (rt : string) (conn : remote) (w : world) :
  mappings (init "local" rt conn) Sample.plain_log w = (Raise IndexError, w).
Proof. destruct w. vm_compute. reflexivity. Qed.

(** In remote mode the same text gives the empty dictionary. *)
Lemma mappings_remote_empty (rt : string) (conn : remote) (w : world) :
  mappings (init "esx" rt conn) Sample.plain_log w = (Ok (VDict []), w).
Proof. destruct w. vm_compute. reflexivity. Qed.

(** C5.  With one block sent to [org1] and a later one to [org2], both
    organisations get the data of the block sent to [org2]; the block sent
    to [org1] names another hypervisor. *)
Theorem mappings_remote_last_block_for_all (conn : remote) :
  fst (mappings_remote (init "esx" "rhsm" conn) Sample.two_orgs_log start_world)
  = Ok (VDict [ (VStr "orgs", VList [VStr "org1"; VStr "org2"]);
                (VStr "org1", Sample.org_data_of "hB" "gB");
                (VStr "org2", Sample.org_data_of "hB" "gB") ])
  /\ (exists b1 v1 h1,
        Spec.org_block "org1" Sample.two_orgs_log = Some b1
        /\ Json.loads (remove_char nl b1) = Some v1
        /\ getitem v1 "hypervisors" = Ok (VList [h1])
        /\ getitem2 h1 "hypervisorId" "hypervisorId" = Ok (VStr "hA")).
Proof.
  split; [vm_compute; reflexivity|].
  do 3 eexists.
  split; [vm_compute; reflexivity|].
  split; [vm_compute; reflexivity|].
  split; vm_compute; reflexivity.
Qed.

(** ** The analyzer and the remote host *)

Ltac quiet_step :=
  match goal with
  | |- quiet (bind _ _) => apply quiet_bind; [|intros ?]
  | |- quiet (ret _) => apply quiet_ret
  | |- quiet (raise _) => apply quiet_raise
  | |- quiet (lift _) => apply quiet_lift
  | |- quiet (log _ _ _) => apply quiet_log
  | |- quiet (for_each _ _ _) => apply quiet_for_each; intros ? ?
  | |- quiet (match ?x with _ => _ end) => destruct x
  end.

Ltac det_step :=
  match goal with
  | |- det (bind _ _) => apply det_bind; [|intros ?]
  | |- det (ret _) => apply quiet_det, quiet_ret
  | |- det (raise _) => apply quiet_det, quiet_raise
  | |- det (lift _) => apply quiet_det, quiet_lift
  | |- det (log _ _ _) => apply quiet_det, quiet_log
  | |- det (sleep _) => apply det_emit
  | |- det (spawn _) => apply det_emit
  | |- det (runcmd _ _) => apply det_runcmd
  | |- det (for_each _ _ _) => apply det_for_each; intros ? ?
  | |- det (match ?x with _ => _ end) => destruct x
  end.

Lemma quiet_re_findall pat s fl : quiet (re_findall pat s fl).
Proof. unfold re_findall. repeat quiet_step. Qed.

Lemma quiet_py_int s : quiet (py_int s).
Proof. unfold py_int. repeat quiet_step. Qed.

Lemma quiet_msg_number self output msg : quiet (msg_number self output msg).
Proof.
  unfold msg_number. apply quiet_bind; [apply quiet_re_findall|].
  intros. repeat quiet_step.
Qed.

Lemma quiet_msg_search self output ms : quiet (msg_search self output ms).
Proof.
  unfold msg_search.
  repeat first [apply quiet_msg_number | quiet_step].
Qed.

Lemma quiet_send_number self rhsm_log : quiet (send_number self rhsm_log).
Proof.
  unfold send_number. repeat first [apply quiet_re_findall | quiet_step].
Qed.

Lemma quiet_reporter_id self rhsm_log : quiet (reporter_id self rhsm_log).
Proof.
  unfold reporter_id. repeat first [apply quiet_re_findall | quiet_step].
Qed.

Lemma quiet_interval_time self rhsm_log : quiet (interval_time self rhsm_log).
Proof.
  unfold interval_time.
  repeat first [apply quiet_re_findall | apply quiet_py_int | quiet_step].
Qed.

Lemma quiet_mappings_local self rhsm_log : quiet (mappings_local self rhsm_log).
Proof.
  unfold mappings_local. repeat first [apply quiet_re_findall | quiet_step].
Qed.

Lemma quiet_mappings_remote self rhsm_log : quiet (mappings_remote self rhsm_log).
Proof.
  unfold mappings_remote, org_entry, hypervisor_entry, guest_entry.
  repeat first [apply quiet_re_findall | quiet_step].
Qed.

Lemma quiet_mappings self rhsm_log : quiet (mappings self rhsm_log).
Proof.
  unfold mappings.
  destruct (String.eqb (mode self) "local");
    [apply quiet_mappings_local | apply quiet_mappings_remote].
Qed.

Lemma quiet_hypervisor_id config self mapping :
  quiet (hypervisor_id config self mapping).
Proof. unfold hypervisor_id. repeat quiet_step. Qed.

Lemma det_thread_number self : det (thread_number self).
Proof.
  unfold thread_number.
  repeat first [apply quiet_det, quiet_py_int | det_step].
Qed.

Lemma det_error_warning self msg : det (error_warning self msg).
Proof. unfold error_warning. repeat det_step. Qed.

Lemma det_loop_number self : det (loop_number self).
Proof.
  unfold loop_number.
  repeat first [apply quiet_det, quiet_py_int
               | apply quiet_det, quiet_re_findall | det_step].
Qed.

Lemma det_loop_info self : det (loop_info self).
Proof.
  unfold loop_info, first_time, seconds.
  repeat first [apply det_loop_number | apply quiet_det, quiet_py_int
               | apply quiet_det, quiet_re_findall | det_step].
Qed.

Lemma det_print_json self : det (print_json self).
Proof. unfold print_json. repeat det_step. Qed.

Lemma det_analyzer config self rhsm_log : det (analyzer config self rhsm_log).
Proof.
  unfold analyzer.
  repeat first [ apply quiet_det, quiet_msg_search
               | apply det_thread_number
               | apply quiet_det, quiet_send_number
               | apply quiet_det, quiet_reporter_id
               | apply quiet_det, quiet_interval_time
               | apply det_loop_info
               | apply quiet_det, quiet_mappings
               | apply quiet_det, quiet_hypervisor_id
               | apply det_print_json
               | apply det_error_warning
               | det_step ].
Qed.

Lemma bind_ok {A B} (c : M A) (f : A -> M B) (w : world) (b : B) :
  fst (bind c f w) = Ok b ->
  exists a w', c w = (Ok a, w') /\ fst (f a w') = Ok b.
Proof.
  unfold bind. destruct (c w) as [[a|e] w']; cbn; [eauto | discriminate].
Qed.

Lemma quiet_pair {A} (c1 c2 : M A) (w1 w2 w1' w2' : world) (a1 a2 : A) :
  c1 = c2 -> quiet c1 ->
  c1 w1 = (Ok a1, w1') -> c2 w2 = (Ok a2, w2') -> a1 = a2.
Proof.
  intros <- Hq E1 E2.
  pose proof (quiet_value c1 w1 w2 Hq) as E. rewrite E1, E2 in E. cbn in E.
  congruence.
Qed.

(** C8, as amended.  Two invocations of the analyzer on one text and one
    context that both return agree on every field that is read from the
    text (debug, oneshot, terminate, send, reporter_id, interval, mappings,
    hypervisor_id), whatever the remote hosts answer and whatever was done
    before. *)
Theorem analyzer_text_fields (config : Configure.settings)
    (mode rt : string) (conn1 conn2 : remote) (rhsm_log : string)
    (w1 w2 : world) (d1 d2 : Result.t)
    (H1 : fst (analyzer config (init mode rt conn1) rhsm_log w1) = Ok d1)
    (H2 : fst (analyzer config (init mode rt conn2) rhsm_log w2) = Ok d2) :
  Spec.text_fields d1 = Spec.text_fields d2.
Proof.
  unfold analyzer in H1, H2.
  repeat match goal with
         | H : fst (bind _ _ _) = Ok _ |- _ =>
             apply bind_ok in H; destruct H as (? & ? & ? & H)
         | H : fst ((let (_, _) := ?p in _) _) = Ok _ |- _ => destruct p
         end.
  cbn in H1, H2. injection H1 as <-. injection H2 as <-.
  unfold Spec.text_fields; cbn.
  repeat match goal with
         | E1 : ?c1 ?u1 = (Ok ?a1, _), E2 : ?c2 ?u2 = (Ok ?a2, _) |- _ =>
             lazymatch c1 with
             | msg_search _ _ ?p =>
                 lazymatch c2 with msg_search _ _ p =>
                   assert (a1 = a2)
                     by (apply (quiet_pair c1 c2 u1 u2 _ _ a1 a2 eq_refl
                                  (quiet_msg_search _ _ _) E1 E2));
                   clear E1 E2; subst a2 end
             | send_number _ _ =>
                 lazymatch c2 with send_number _ _ =>
                   assert (a1 = a2)
                     by (apply (quiet_pair c1 c2 u1 u2 _ _ a1 a2 eq_refl
                                  (quiet_send_number _ _) E1 E2));
                   clear E1 E2; subst a2 end
             | reporter_id _ _ =>
                 lazymatch c2 with reporter_id _ _ =>
                   assert (a1 = a2)
                     by (apply (quiet_pair c1 c2 u1 u2 _ _ a1 a2 eq_refl
                                  (quiet_reporter_id _ _) E1 E2));
                   clear E1 E2; subst a2 end
             | interval_time _ _ =>
                 lazymatch c2 with interval_time _ _ =>
                   assert (a1 = a2)
                     by (apply (quiet_pair c1 c2 u1 u2 _ _ a1 a2 eq_refl
                                  (quiet_interval_time _ _) E1 E2));
                   clear E1 E2; subst a2 end
             | mappings _ _ =>
                 lazymatch c2 with mappings _ _ =>
                   assert (a1 = a2)
                     by (apply (quiet_pair c1 c2 u1 u2 _ _ a1 a2 eq_refl
                                  (quiet_mappings _ _) E1 E2));
                   clear E1 E2; subst a2 end
             | hypervisor_id _ _ _ =>
                 lazymatch c2 with hypervisor_id _ _ _ =>
                   assert (a1 = a2)
                     by (apply (quiet_pair c1 c2 u1 u2 _ _ a1 a2 eq_refl
                                  (quiet_hypervisor_id _ _ _) E1 E2));
                   clear E1 E2; subst a2 end
             end
         end.
  reflexivity.
Qed.

(** C8, witness: the log of a debug run with a mapping, analyzed on a host
    with one agent process and no print file, and on a host with no agent
    process, a print file and three reports in its log file.  The fields
    read from the text are set and agree; the thread count, the loop
    figures and the print file differ. *)
Lemma analyzer_text_fields_witness :
  fst (analyzer Sample.config (init "esx" "rhsm" (Sample.host Sample.full_log))
         Sample.full_log start_world)
  = Ok (Sample.full_result 1 (-1) 0 None)
  /\ fst (analyzer Sample.config (init "esx" "rhsm" Sample.looping_host)
            Sample.full_log start_world)
     = Ok (Sample.full_result 0 60 2 (Some "[]"))
  /\ Spec.text_fields (Sample.full_result 1 (-1) 0 None)
     = Spec.text_fields (Sample.full_result 0 60 2 (Some "[]"))
  /\ Spec.text_fields (Sample.full_result 1 (-1) 0 None)
     = (true, true, true, 1, Some "host-7f3a", Some 3600,
        VDict [ (VStr "orgs", VList [VStr "org1"]);
                (VStr "org1", Sample.org_data_of "h1" "g1") ],
        VStr "h1").
Proof.
  assert (H1 : fst (analyzer Sample.config
                      (init "esx" "rhsm" (Sample.host Sample.full_log))
                      Sample.full_log start_world)
               = Ok (Sample.full_result 1 (-1) 0 None))
    by (vm_compute; reflexivity).
  assert (H2 : fst (analyzer Sample.config
                      (init "esx" "rhsm" Sample.looping_host)
                      Sample.full_log start_world)
               = Ok (Sample.full_result 0 60 2 (Some "[]")))
    by (vm_compute; reflexivity).
  split; [exact H1|]. split; [exact H2|]. split.
  - exact (analyzer_text_fields _ _ _ _ _ _ _ _ _ _ H1 H2).
  - reflexivity.
Defined.

(** C8, counterexample: one runner, one text, two invocations in a row;
    the agent process is gone at the second one and the thread counts
    differ. *)
Lemma analyzer_not_pure :
  let self := init "esx" "rhsm" Sample.fading_host in
  let first := analyzer Sample.config self Sample.plain_log start_world in
  let second := analyzer Sample.config self Sample.plain_log (snd first) in
  fst first = Ok (Sample.plain_result 1 None)
  /\ fst second = Ok (Sample.plain_result 0 None)
  /\ fst first <> fst second.
Proof.
  cbv zeta.
  assert (H1 : fst (analyzer Sample.config (init "esx" "rhsm" Sample.fading_host)
                      Sample.plain_log start_world)
               = Ok (Sample.plain_result 1 None))
    by (vm_compute; reflexivity).
  assert (H2 : fst (analyzer Sample.config (init "esx" "rhsm" Sample.fading_host)
                      Sample.plain_log
                      (snd (analyzer Sample.config
                              (init "esx" "rhsm" Sample.fading_host)
                              Sample.plain_log start_world)))
               = Ok (Sample.plain_result 0 None))
    by (vm_compute; reflexivity).
  split; [exact H1|]. split; [exact H2|].
  rewrite H1, H2. discriminate.
Qed.

(** ** The polling cycle *)

Lemma bind_step {A B} (c : M A) (f : A -> M B) (w w' : world) (a : A) :
  c w = (Ok a, w') -> bind c f w = f a w'.
Proof. intros H. unfold bind. now rewrite H. Qed.

Lemma bind_fail {A B} (c : M A) (f : A -> M B) (w w' : world) (e : exn) :
  c w = (Raise e, w') -> bind c f w = (Raise e, w').
Proof. intros H. unfold bind. now rewrite H. Qed.

Lemma msg_search_found self (output pat : string) (w : world) :
  str_in "|" pat = false ->
  Re.compile pat <> None ->
  msg_search self output (Str pat) w
  = (Ok (Spec.found pat output), Spec.logged w [Spec.find_record pat output]).
Proof.
  intros Hbar Hc.
  destruct (hits_findall pat output Hc) as [l [Hl Hh]].
  unfold msg_search. cbn [for_each]. rewrite Hbar.
  unfold msg_number, re_findall, bind at 3. rewrite Hl.
  unfold Spec.found, Spec.find_record, Spec.logged. rewrite Hh.
  unfold bind, log, ret. cbn.
  destruct (count l >? 0); reflexivity.
Qed.

Lemma thread_number_spec self (w : world) :
  thread_number self w
  = (Spec.threads (ssh self) (trace w), Spec.traced w [Cmd Host.count_cmd]).
Proof.
  unfold thread_number, Spec.threads, bind, runcmd, Spec.traced.
  change "ps -ef | grep virt-who -i | grep -v grep |wc -l"
    with Host.count_cmd.
  destruct (ssh self (trace w) Host.count_cmd) as [rc output].
  cbn [snd trace logs].
  destruct (String.eqb output ""); cbn [negb]; [reflexivity|].
  unfold py_int, ret, raise.
  destruct (int (strip output)); reflexivity.
Qed.

Lemma send_msg_compiles self (rhsm_log : string) :
  Re.compile (send_msg self rhsm_log) <> None.
Proof.
  unfold send_msg.
  destruct (str_in "0 hypervisors and 0 guests found" rhsm_log);
    [vm_compute; discriminate|].
  destruct (str_in "virtwho.main DEBUG" rhsm_log
            || str_in "rhsm.connection DEBUG" rhsm_log);
    destruct (str_in "satellite" (register_type self));
    destruct (str_in "rhsm" (register_type self));
    destruct (String.eqb (mode self) "local");
    vm_compute; discriminate.
Qed.

Lemma send_number_spec self (rhsm_log : string) (w : world) :
  send_number self rhsm_log w = (Ok (Spec.send_count self rhsm_log), w).
Proof.
  destruct (hits_findall (send_msg self rhsm_log) rhsm_log
              (send_msg_compiles self rhsm_log)) as [l [Hl Hh]].
  unfold send_number, Spec.send_count, bind, re_findall.
  rewrite Hl, Hh. reflexivity.
Qed.

Lemma found_429_bar : str_in "|" "status=429" = false.
Proof. reflexivity. Qed.

Lemma found_error_bar : str_in "|" "\[.*ERROR.*\]" = false.
Proof. reflexivity. Qed.

Lemma compiles_429 : Re.compile "status=429" <> None.
Proof. vm_compute. discriminate. Qed.

Lemma compiles_error : Re.compile "\[.*ERROR.*\]" <> None.
Proof. vm_compute. discriminate. Qed.

(** One round of the loop against one round of the specification. *)
Lemma poll_round_spec mode rt conn (i : nat) (s : string) (w : world) :
  let self := init mode rt conn in
  let text := snd (conn (trace w ++ [Sleep 15])%list Spec.fetch_cmd) in
  let limited := Spec.found "status=429" text in
  let out := poll_round self i s w in
  trace (snd out) = (trace w ++ Spec.round_events limited)%list
  /\ match Spec.decide limited
             (Spec.threads conn (trace w ++ [Sleep 15; Cmd Spec.fetch_cmd])%list)
             (Spec.found "\[.*ERROR.*\]" text) (Spec.send_count self text)
             (i =? 29)%nat with
     | Raise e => fst out = Raise e
     | Ok (Spec.Exit t) =>
         fst out = Ok (Break text)
         /\ exists ls, logs (snd out) = (ls ++ [Spec.exit_record t])%list
     | Ok Spec.Go => fst out = Ok (Next text)
     end.
Proof.
  intros self. cbv zeta.
  remember (poll_round self i s w) as out eqn:Hout.
  unfold poll_round in Hout.
  rewrite (bind_step _ _ w (Spec.traced w [Sleep 15]) tt) in Hout by reflexivity.
  unfold bind at 1, runcmd at 1 in Hout.
  cbn [ssh rhsm_log_file self init trace logs Spec.traced] in Hout.
  change ("cat " ++ "/var/log/rhsm/rhsm.log") with Spec.fetch_cmd in Hout.
  destruct (conn (trace w ++ [Sleep 15])%list Spec.fetch_cmd) as [rc text].
  cbn [snd].
  rewrite (bind_step _ _ _ _ _ (msg_search_found _ text "status=429" _
                                  found_429_bar compiles_429)) in Hout.
  unfold Spec.decide, Spec.round_events.
  destruct (Spec.found "status=429" text).
  { subst out. cbn. split; [rewrite <- ?app_assoc; reflexivity|]. split; [reflexivity|].
    eexists. reflexivity. }
  unfold bind at 1 in Hout. rewrite thread_number_spec in Hout.
  cbn [trace logs Spec.logged Spec.traced ssh init self] in Hout.
  rewrite <- app_assoc in Hout. cbn [app] in Hout.
  destruct (Spec.threads conn (trace w ++ [Sleep 15; Cmd Spec.fetch_cmd]))
    as [n|e]; [|subst out; cbn; split; [rewrite <- ?app_assoc; reflexivity | reflexivity]].
  destruct (n =? 0).
  { subst out. cbn. split; [rewrite <- ?app_assoc; reflexivity|]. split; [reflexivity|].
    eexists. reflexivity. }
  rewrite (bind_step _ _ _ _ _ (msg_search_found _ text "\[.*ERROR.*\]" _
                                  found_error_bar compiles_error)) in Hout.
  destruct (Spec.found "\[.*ERROR.*\]" text).
  { subst out. cbn. split; [rewrite <- ?app_assoc; reflexivity|]. split; [reflexivity|].
    eexists. reflexivity. }
  rewrite (bind_step _ _ _ _ _ (send_number_spec _ text _)) in Hout.
  destruct (Spec.send_count self text >? 0).
  { subst out. cbn. split; [rewrite <- ?app_assoc; reflexivity|]. split; [reflexivity|].
    eexists. reflexivity. }
  destruct (i =? 29)%nat.
  { subst out. cbn. split; [rewrite <- ?app_assoc; reflexivity|]. split; [reflexivity|].
    eexists. reflexivity. }
  subst out. cbn. split; [rewrite <- ?app_assoc; reflexivity | reflexivity].
Qed.

(** The loop from round [i] on against the specification. *)
Lemma for_each_poll mode rt conn (n i : nat) (s : string) (w : world) :
  let self := init mode rt conn in
  let p := Spec.poll self n i (trace w) s in
  let out := for_each (seq i n) s (poll_round self) w in
  fst out = match Spec.value p with
            | Ok t => Ok (inl t)
            | Raise e => Raise e
            end
  /\ trace (snd out) = Spec.events p
  /\ match Spec.reason p with
     | Some t => exists ls, logs (snd out) = (ls ++ [Spec.exit_record t])%list
     | None => True
     end.
Proof.
  intros self. revert i s w.
  induction n as [|n IH]; intros i s w; cbn [seq for_each Spec.poll].
  { cbn. auto. }
  pose proof (poll_round_spec mode rt conn i s w) as H. cbv zeta in H.
  fold self in H. destruct H as [Htr Hv].
  cbn [ssh init self].
  destruct (Spec.decide _ _ _ _ _) as [[t|]|e].
  - destruct Hv as [Hf [ls Hl]]. unfold bind.
    destruct (poll_round self i s w) as [r w']. cbn [fst snd] in Hf, Htr, Hl.
    subst r. cbn. eauto.
  - unfold bind.
    destruct (poll_round self i s w) as [r w']. cbn [fst snd] in Hv, Htr.
    subst r. rewrite <- Htr. specialize (IH (S i)
      (snd (conn (trace w ++ [Sleep 15])%list Spec.fetch_cmd)) w').
    cbv zeta in IH. fold self in IH. cbn [Spec.value Spec.events Spec.reason].
    exact IH.
  - unfold bind.
    destruct (poll_round self i s w) as [r w']. cbn [fst snd] in Hv, Htr.
    subst r. cbn. auto.
Qed.

Lemma poll_rounds self (n i : nat) (tr : list event) (s : string) :
  (Spec.rounds (Spec.poll self n i tr s) <= n)%nat
  /\ (0 < n -> 0 < Spec.rounds (Spec.poll self n i tr s))%nat
  /\ (Spec.reason (Spec.poll self n i tr s) = Some Spec.Timeout ->
      (i <= 29 -> i + Spec.rounds (Spec.poll self n i tr s) = 30)%nat)
  /\ exists rs,
       Spec.events (Spec.poll self n i tr s) = (tr ++ List.concat rs)%list
       /\ List.length rs = Spec.rounds (Spec.poll self n i tr s)
       /\ Forall (fun r => exists b, r = Spec.round_events b) rs.
Proof.
  revert i tr s. induction n as [|n IH]; intros i tr s; cbn [Spec.poll].
  { cbn. repeat split; try lia; try discriminate.
    exists []. cbn. rewrite app_nil_r. auto. }
  set (text := snd (ssh self (tr ++ [Sleep 15])%list Spec.fetch_cmd)).
  set (limited := Spec.found "status=429" text).
  unfold Spec.decide.
  assert (Hone : exists rs,
             (tr ++ Spec.round_events limited)%list = (tr ++ List.concat rs)%list
             /\ List.length rs = 1%nat
             /\ Forall (fun r => exists b, r = Spec.round_events b) rs).
  { exists [Spec.round_events limited]. cbn. rewrite app_nil_r.
    repeat split; eauto. }
  destruct limited eqn:El.
  { cbn. repeat split; try lia; try discriminate. exact Hone. }
  destruct (Spec.threads _ _) as [k|e].
  2:{ cbn. repeat split; try lia; try discriminate. exact Hone. }
  destruct (k =? 0).
  { cbn. repeat split; try lia; try discriminate. exact Hone. }
  destruct (Spec.found "\[.*ERROR.*\]" text).
  { cbn. repeat split; try lia; try discriminate. exact Hone. }
  destruct (Spec.send_count self text >? 0).
  { cbn. repeat split; try lia; try discriminate. exact Hone. }
  destruct (Nat.eqb_spec i 29) as [Ei|Ei].
  { cbn. repeat split; try lia; try discriminate. exact Hone. }
  cbn [Spec.value Spec.events Spec.reason Spec.rounds].
  destruct (IH (S i) (tr ++ Spec.round_events false)%list text)
    as (H1 & H2 & H3 & rs & H4 & H5 & H6).
  repeat split; try lia.
  - intros Ht Hi. specialize (H3 Ht). lia.
  - exists (Spec.round_events false :: rs). cbn [List.concat List.length].
    rewrite H4, <- app_assoc. repeat split; [lia|].
    constructor; eauto.
Qed.

(** A cycle of 30 rounds never runs out of rounds: it ends with one of the
    five conditions or with an exception. *)
Lemma poll_ends self (n i : nat) (tr : list event) (s : string) :
  (0 < n)%nat -> (i + n = 30)%nat ->
  match Spec.reason (Spec.poll self n i tr s) with
  | Some _ => True
  | None => exists e, Spec.value (Spec.poll self n i tr s) = Raise e
  end.
Proof.
  revert i tr s. induction n as [|n IH]; intros i tr s Hn Hi; [lia|].
  cbn [Spec.poll]. unfold Spec.decide.
  destruct (Spec.found "status=429" _); [exact Logic.I|].
  destruct (Spec.threads _ _) as [k|e]; [|cbn; eauto].
  destruct (k =? 0); [exact Logic.I|].
  destruct (Spec.found "\[.*ERROR.*\]" _); [exact Logic.I|].
  destruct (Spec.send_count _ _ >? 0); [exact Logic.I|].
  destruct (Nat.eqb_spec i 29) as [Ei|Ei]; [exact Logic.I|].
  cbn [Spec.value Spec.reason]. apply IH; lia.
Qed.

Lemma wait_step (wait : option Z) (w : world) :
  Spec.negative wait = false ->
  (if set_num wait
   then sleep (match wait with Some z => z | None => 0 end)
   else ret tt) w = (Ok tt, Spec.traced w (Spec.delay wait)).
Proof.
  unfold set_num, Spec.delay, Spec.traced, Spec.negative. intros Hw.
  destruct wait as [z|]; [destruct (z =? 0)|]; cbn [negb];
    try (rewrite sleep_ok by lia; unfold emit); unfold ret;
    rewrite ?app_nil_r; destruct w; reflexivity.
Qed.

Lemma wait_refused (wait : option Z) (w : world) :
  Spec.negative wait = true ->
  (if set_num wait
   then sleep (match wait with Some z => z | None => 0 end)
   else ret tt) w = (Raise ValueError, w).
Proof.
  unfold set_num, Spec.negative. intros Hw.
  destruct wait as [z|]; [|discriminate].
  apply Z.ltb_lt in Hw. destruct (Z.eqb_spec z 0); [lia|]. cbn [negb].
  now apply sleep_neg.
Qed.

(** C2.  One polling cycle is the cycle of the specification.  A negative
    wait is refused by the sleep before the first round: the cycle ends
    there with [ValueError], having fetched nothing.  For every other wait
    the cycle has at least 1 and at most 30 rounds, each a sleep of 15
    seconds followed by a fetch of the log; in a round the conditions are
    taken in the order rate-limit marker, thread count zero, ERROR-tagged
    line, send count above zero, and the first that holds ends the cycle;
    the 30th round ends it in any case.  The cycle always ends, with the
    text last fetched or an exception. *)
Theorem rhsm_log_get_poll (mode rt : string) (conn : remote)
    (wait : option Z) (w : world) :
  let self := init mode rt conn in
  let p := Spec.poll self 30 0 (trace w ++ Spec.delay wait)%list "" in
  let out := rhsm_log_get self wait w in
  if Spec.negative wait then out = (Raise ValueError, w)
  else
    fst out = Spec.value p
    /\ trace (snd out) = Spec.events p
    /\ match Spec.reason p with
       | Some t => exists ls, logs (snd out) = (ls ++ [Spec.exit_record t])%list
       | None => exists e, fst out = Raise e
       end
    /\ (1 <= Spec.rounds p <= 30)%nat
    /\ (exists rs,
          Spec.events p = (trace w ++ Spec.delay wait ++ List.concat rs)%list
          /\ List.length rs = Spec.rounds p
          /\ Forall (fun r => exists b, r = Spec.round_events b) rs)
    /\ match Spec.reason p with
       | Some Spec.Timeout => Spec.rounds p = 30%nat
       | _ => True
       end.
Proof.
  intros self p out.
  destruct (Spec.negative wait) eqn:Hneg.
  { subst out. unfold rhsm_log_get.
    apply (bind_fail _ _ _ _ _ (wait_refused wait w Hneg)). }
  set (w0 := Spec.traced w (Spec.delay wait)).
  assert (Hout : out = bind (for_each (range 30) "" (poll_round self))
                         (fun r => ret (no_return r)) w0).
  { subst out w0. unfold rhsm_log_get.
    rewrite (bind_step _ _ _ _ _ (wait_step wait w Hneg)). reflexivity. }
  pose proof (for_each_poll mode rt conn 30 0 "" w0) as H.
  cbv zeta in H. fold self in H.
  change (trace w0) with (trace w ++ Spec.delay wait)%list in H. fold p in H.
  change (seq 0 30) with (range 30) in H.
  destruct (poll_rounds self 30 0 (trace w ++ Spec.delay wait)%list "")
    as (H1 & H2 & H3 & rs & H4 & H5 & H6).
  fold p in H1, H2, H3, H4, H5, H6.
  pose proof (poll_ends self 30 0 (trace w ++ Spec.delay wait)%list ""
                ltac:(lia) ltac:(lia)) as He. fold p in He.
  clearbody p out w0.
  destruct H as (Hv & Htr & Hlog).
  assert (Hfst : fst out = Spec.value p
                 /\ trace (snd out) = Spec.events p
                 /\ logs (snd out)
                    = logs (snd (for_each (range 30) "" (poll_round self) w0))).
  { rewrite Hout. unfold bind.
    destruct (for_each (range 30) "" (poll_round self) w0) as [r w'].
    cbn [fst snd] in Hv, Htr |- *. subst r.
    destruct (Spec.value p) as [t|e]; cbn [fst snd ret]; auto. }
  destruct Hfst as (Hf & Ht & Hl).
  split; [exact Hf|]. split; [exact Ht|].
  split.
  { destruct (Spec.reason p) as [t|].
    - rewrite Hl. exact Hlog.
    - destruct He as [e He]. exists e. now rewrite Hf. }
  split; [lia|].
  split.
  { exists rs. rewrite H4, <- app_assoc. auto. }
  destruct (Spec.reason p) as [[]|]; try exact Logic.I.
  specialize (H3 eq_refl). lia.
Qed.

(** ** The run loop *)

Ltac free_step :=
  match goal with
  | |- launches_le 0 (bind _ _) => apply launches_free_bind; [|intros ?]
  | |- launches_le 0 (ret _) => apply launches_quiet, quiet_ret
  | |- launches_le 0 (raise _) => apply launches_quiet, quiet_raise
  | |- launches_le 0 (lift _) => apply launches_quiet, quiet_lift
  | |- launches_le 0 (log _ _ _) => apply launches_quiet, quiet_log
  | |- launches_le 0 (sleep _) => apply launches_sleep
  | |- launches_le 0 (runcmd _ _) => apply launches_runcmd
  | |- launches_le 0 (py_int _) => apply launches_quiet, quiet_py_int
  | |- launches_le 0 (re_findall _ _ _) => apply launches_quiet, quiet_re_findall
  | |- launches_le 0 (msg_search _ _ _) => apply launches_quiet, quiet_msg_search
  | |- launches_le 0 (send_number _ _) => apply launches_quiet, quiet_send_number
  | |- launches_le 0 (reporter_id _ _) => apply launches_quiet, quiet_reporter_id
  | |- launches_le 0 (interval_time _ _) =>
      apply launches_quiet, quiet_interval_time
  | |- launches_le 0 (mappings _ _) => apply launches_quiet, quiet_mappings
  | |- launches_le 0 (hypervisor_id _ _ _) =>
      apply launches_quiet, quiet_hypervisor_id
  | |- launches_le 0 (for_each _ _ _) => apply launches_for_each; intros ? ?
  | |- launches_le 0 (match ?x with _ => _ end) => destruct x
  end.

Lemma launches_analyzer config self rhsm_log :
  launches_le 0 (analyzer config self rhsm_log).
Proof.
  unfold analyzer, thread_number, loop_info, loop_number, first_time, seconds,
    print_json, error_warning.
  repeat free_step.
Qed.

Lemma launches_rhsm_log_get self wait : launches_le 0 (rhsm_log_get self wait).
Proof.
  unfold rhsm_log_get, poll_round, thread_number. repeat free_step.
Qed.

Lemma launches_thread_start self cli wait :
  launches_le 1 (thread_start self cli wait).
Proof.
  unfold thread_start.
  apply (launches_bind 0 1).
  { unfold stop, operate_service, kill_pid. repeat free_step. }
  intros _. apply (launches_bind 0 1).
  { unfold log_clean. repeat free_step. }
  intros _. apply (launches_bind 1 0); [apply launches_spawn|].
  intros _. apply launches_free_bind; [apply launches_rhsm_log_get|].
  intros. apply launches_quiet, quiet_ret.
Qed.

Lemma found_500_bar : str_in "|" Spec.server_error = false.
Proof. reflexivity. Qed.

Lemma compiles_500 : Re.compile Spec.server_error <> None.
Proof. vm_compute. discriminate. Qed.

Lemma logged_logged (w : world) (a b : list logrec) :
  Spec.logged (Spec.logged w a) b = Spec.logged w (a ++ b).
Proof. unfold Spec.logged. cbn. now rewrite app_assoc. Qed.

(** One attempt of the loop against the judgement of the specification. *)
Lemma attempt_spec config self cli wait (i : nat) (w : world) :
  attempt config self cli wait i tt w
  = match thread_start self cli wait w with
    | (Raise e, w1) => (Raise e, w1)
    | (Ok text, w1) =>
        let w2 := Spec.logged w1 (Spec.notes i text) in
        match Spec.backoff i (Spec.judge text) with
        | Some secs => (Ok (Next tt), Spec.traced w2 [Sleep secs])
        | None =>
            match analyzer config self text w2 with
            | (Ok d, w') => (Ok (Return d), w')
            | (Raise e, w') => (Raise e, w')
            end
        end
    end.
Proof.
  unfold attempt. unfold bind at 1.
  destruct (thread_start self cli wait w) as [[text|e] w1]; [|reflexivity].
  rewrite (bind_step _ _ _ _ _ (msg_search_found _ text "status=429" _
                                  found_429_bar compiles_429)).
  unfold Spec.notes, Spec.judge. cbv zeta.
  destruct (Spec.found "status=429" text).
  { cbn [Spec.backoff]. unfold bind, log, sleep.
    destruct (Z.ltb_spec (60 * (Z.of_nat i + 3)) 0) as [Hn|_]; [lia|].
    unfold emit, ret, Spec.traced.
    cbn [fst snd trace logs Spec.logged]. rewrite <- app_assoc. reflexivity. }
  change ("RemoteServerException: Server error "
          ++ "attempting a GET.*returned status 500") with Spec.server_error.
  rewrite (bind_step _ _ _ _ _ (msg_search_found _ text Spec.server_error _
                                  found_500_bar compiles_500)).
  rewrite logged_logged. cbn [app].
  destruct (Spec.found Spec.server_error text).
  { cbn [Spec.backoff]. unfold bind, log, sleep.
    change (60 <? 0) with false. cbv iota. unfold emit, ret, Spec.traced.
    cbn [fst snd trace logs Spec.logged]. rewrite <- app_assoc. reflexivity. }
  cbn [Spec.backoff]. unfold bind.
  destruct (analyzer config self text _) as [[d|e] w']; reflexivity.
Qed.

Lemma run_loop_step {S R} (body : nat -> S -> M (ctl S R))
    (fin : S + R -> M R) (i n : nat) (s : S) (w : world) :
  bind (for_each (seq i (Datatypes.S n)) s body) fin w
  = match body i s w with
    | (Ok (Next s'), w1) => bind (for_each (seq (Datatypes.S i) n) s' body) fin w1
    | (Ok (Break s'), w1) => fin (inl s') w1
    | (Ok (Return r), w1) => fin (inr r) w1
    | (Raise e, w1) => (Raise e, w1)
    end.
Proof.
  cbn [seq for_each]. unfold bind.
  destruct (body i s w) as [[[s'|s'|r]|e] w1]; reflexivity.
Qed.

Lemma for_each_runs config self cli wait (n i : nat) (w : world) :
  (i + n = 4)%nat ->
  let out := bind (for_each (seq i n) tt (attempt config self cli wait))
               (fun r => match r with
                         | inr result_data => ret result_data
                         | inl _ => raise Spec.exhausted
                         end) w in
  Spec.runs config self cli wait i w (fst out) (snd out).
Proof.
  revert i w. induction n as [|n IH]; intros i w Hi; cbv zeta.
  { replace i with 4%nat by lia. cbn. constructor. }
  rewrite run_loop_step, attempt_spec.
  destruct (thread_start self cli wait w) as [[text|e] w1] eqn:Et.
  2:{ cbn [fst snd]. eapply Spec.run_launch_failed; [lia | exact Et]. }
  cbv zeta.
  destruct (Spec.backoff i (Spec.judge text)) as [secs|] eqn:Eb.
  - eapply Spec.run_retried; [lia | exact Et | exact Eb |].
    apply (IH (S i)). lia.
  - eapply Spec.run_succeeded; [lia | exact Et | exact Eb |].
    destruct (analyzer config self text _) as [[d|e] w']; reflexivity.
Qed.

Lemma runs_launches config self cli wait (i : nat) (w w' : world)
    (r : res Result.t) :
  Spec.runs config self cli wait i w r w' ->
  (Spec.launches (trace w') + i <= Spec.launches (trace w) + 4)%nat.
Proof.
  induction 1 as [w | i w w1 e Hi Ht | i w w1 w' text secs r Hi Ht Hb Hr IH
                 | i w w1 w' text r Hi Ht Hb Ha].
  - lia.
  - pose proof (launches_thread_start self cli wait w) as H.
    rewrite Ht in H. cbn [snd] in H. lia.
  - pose proof (launches_thread_start self cli wait w) as H.
    rewrite Ht in H. cbn [snd] in H.
    cbn [Spec.traced Spec.logged trace] in IH.
    rewrite launches_app in IH. cbn in IH. lia.
  - pose proof (launches_thread_start self cli wait w) as H.
    rewrite Ht in H. cbn [snd] in H.
    pose proof (launches_analyzer config self text
                  (Spec.logged w1 (Spec.notes i text))) as H'.
    rewrite Ha in H'. cbn [snd Spec.logged trace] in H'. lia.
Qed.

(** C3.  The run loop makes at most 4 launch attempts.  When the text
    captured by attempt [i] (from 0) has the 429 marker it waits
    [60 * (i + 3)] seconds and retries (180 seconds after the first
    attempt); when it has the status-500 marker it waits 60 seconds and
    retries; otherwise the analyzed result is returned; after 4 retries it
    fails with the run-exhausted error. *)
Theorem run_start_runs (config : Configure.settings) (self : VirtwhoRunner)
    (cli : option string) (wait : option Z) (w : world) :
  let out := run_start config self cli wait w in
  Spec.runs config self cli wait 0 w (fst out) (snd out)
  /\ (Spec.launches (trace (snd out)) <= Spec.launches (trace w) + 4)%nat
  /\ Spec.backoff 0 Spec.RateLimit = Some 180.
Proof.
  intros out.
  assert (H : Spec.runs config self cli wait 0 w (fst out) (snd out)).
  { apply (for_each_runs config self cli wait 4 0 w eq_refl). }
  split; [exact H|]. split; [|reflexivity].
  apply runs_launches in H. lia.
Qed.

(** The scenario of the specification: the log has the rate-limit marker
    from the start.  Every polling cycle ends in its first round, the run
    loop waits 180, 240, 300 and 360 seconds after its four launches and
    then fails. *)
Example rate_limited_run :
  let self := init "esx" "rhsm" (Sample.host Sample.limited_log) in
  let out := run_start Sample.config self None None start_world in
  fst out = Raise Spec.exhausted
  /\ Spec.launches (trace (snd out)) = 4%nat
  /\ filter (fun e => match e with Sleep s => 60 <=? s | _ => false end)
       (trace (snd out))
     = [Sleep 180; Sleep 240; Sleep 300; Sleep 360]
  /\ Spec.rounds (Spec.poll self 30 0 [] "") = 1%nat
  /\ Spec.reason (Spec.poll self 30 0 [] "") = Some Spec.RateLimited.
Proof.
  cbv zeta. split; [vm_compute; reflexivity|].
  split; [vm_compute; reflexivity|].
  split; [vm_compute; reflexivity|].
  split; vm_compute; reflexivity.
Qed.

(** ** Error and warning lines *)

Lemma bre_tag (t : Spec.tag) :
  Host.bre (chars ("\[.*" ++ Spec.tag_word t ++ ".*\]"))
  = Some (Spec.bracketed (chars (Spec.tag_word t))).
Proof. destruct t; vm_compute; reflexivity. Qed.

Lemma simple_then_lit (l : list ascii) (r : Re.regex) :
  Lang.simple (Lang.then_lit l r) = Lang.simple r.
Proof. induction l as [|c l IH]; cbn; auto. Qed.

Lemma lang_then_lit (fl : Re.flags) (l : list ascii) (r : Re.regex)
    (s : list ascii) :
  Re.ignorecase fl = false ->
  Lang.lang fl (Lang.then_lit l r) s
  <-> exists s', s = (l ++ s')%list /\ Lang.lang fl r s'.
Proof.
  intros Hfl. revert s. induction l as [|c l IH]; intros s; cbn [Lang.then_lit].
  - split; [intros H; exists s; auto | intros (s' & -> & H); exact H].
  - cbn [Lang.lang]. split.
    + intros (s1 & s2 & -> & (x & -> & Hx) & H2). apply IH in H2.
      destruct H2 as (s' & -> & H2). cbn in Hx. rewrite Hfl in Hx.
      apply Ascii.eqb_eq in Hx. subst x. exists s'. auto.
    + intros (s' & -> & H). exists [c], (l ++ s')%list. split; [reflexivity|].
      split.
      * exists c. split; [reflexivity|]. cbn. rewrite Hfl. apply Ascii.eqb_refl.
      * apply IH. eauto.
Qed.

Lemma all_dot (s : list ascii) :
  Forall (fun x => Re.atom_ok Host.line_flags Re.Dot x = true) s.
Proof. induction s; constructor; auto. Qed.

Lemma lang_bracketed (word s : list ascii) :
  Lang.lang Host.line_flags (Spec.bracketed word) s
  <-> exists b c, s = ("["%char :: b ++ word ++ c ++ ["]"%char])%list.
Proof.
  unfold Spec.bracketed. cbn [Lang.lang]. split.
  - intros (s1 & s2 & -> & (x & -> & Hx) & s3 & s4 & -> & _ & H).
    apply lang_then_lit in H; [|reflexivity].
    destruct H as (s' & -> & H). cbn [Lang.lang] in H.
    destruct H as (s5 & s6 & -> & _ & s7 & s8 & -> & (y & -> & Hy) & ->).
    cbn in Hx, Hy. apply Ascii.eqb_eq in Hx, Hy. subst.
    exists s3, s5. cbn. reflexivity.
  - intros (b & c & ->). exists ["["%char], (b ++ word ++ c ++ ["]"%char])%list.
    split; [reflexivity|]. split; [exists "["%char; auto|].
    exists b, (word ++ c ++ ["]"%char])%list. split; [reflexivity|].
    split; [split; [apply all_dot | cbn; split; [lia | exact Logic.I]]|].
    apply lang_then_lit; [reflexivity|]. exists (c ++ ["]"%char])%list.
    split; [reflexivity|]. cbn [Lang.lang].
    exists c, ["]"%char]. split; [reflexivity|].
    split; [split; [apply all_dot | cbn; split; [lia | exact Logic.I]]|].
    exists ["]"%char], []. split; [reflexivity|]. split; [|reflexivity].
    exists "]"%char. auto.
Qed.

Lemma simple_bracketed (word : list ascii) :
  Lang.simple (Spec.bracketed word) = true.
Proof. unfold Spec.bracketed. cbn. now rewrite simple_then_lit. Qed.

Lemma tagged_b_list (t : Spec.tag) (line : string) :
  Spec.tagged_b t line = true
  <-> exists a b c d,
        chars line = (a ++ "["%char :: b ++ chars (Spec.tag_word t) ++ c
                        ++ "]"%char :: d)%list.
Proof.
  unfold Spec.tagged_b, Host.grep_match. rewrite bre_tag. unfold Re.matches.
  rewrite search_iff by apply simple_bracketed. split.
  - intros (pre & mid & post & E & H). apply lang_bracketed in H.
    destruct H as (b & c & ->). exists pre, b, c, post. rewrite E.
    cbn. rewrite <- !app_assoc. reflexivity.
  - intros (a & b & c & d & E). exists a, ("["%char :: b ++ chars (Spec.tag_word t) ++ c ++ ["]"%char])%list, d.
    split; [|apply lang_bracketed; eauto].
    rewrite E. cbn. rewrite <- !app_assoc. reflexivity.
Qed.

Lemma tagged_iff (t : Spec.tag) (line : string) :
  Spec.tagged_b t line = true <-> Spec.tagged t line.
Proof.
  rewrite tagged_b_list. unfold Spec.tagged. split.
  - intros (a & b & c & d & E).
    exists (str a), (str b), (str c), (str d).
    rewrite <- (str_chars line), E.
    rewrite <- (str_chars (Spec.tag_word t)) at 2.
    apply (f_equal str) in E. clear E.
    rewrite <- (chars_str a), <- (chars_str b), <- (chars_str c), <- (chars_str d) at 1.
    change ("["%char :: chars (str b) ++ chars (Spec.tag_word t) ++ chars (str c) ++ "]"%char :: chars (str d))%list
      with (chars "[" ++ chars (str b) ++ chars (Spec.tag_word t) ++ chars (str c) ++ chars "]" ++ chars (str d))%list.
    rewrite <- !chars_append, !str_chars. reflexivity.
  - intros (a & b & c & d & ->). exists (chars a), (chars b), (chars c), (chars d).
    rewrite !chars_append. reflexivity.
Qed.

Lemma exec_tag (h : Host.files) (t : Spec.tag) :
  Host.exec h ("grep '\[.*" ++ upper (Spec.tag_arg t) ++ ".*\]' "
               ++ "/var/log/rhsm/rhsm.log" ++ " |sort")
  = (0, Host.unlines (StringSort.sort
                        (filter (Spec.tagged_b t)
                           (Host.file_lines (Host.log_text h))))).
Proof. destruct t; reflexivity. Qed.

Lemma tagged_solid (t : Spec.tag) (s line : string) :
  In line (Host.file_lines s) -> Spec.tagged_b t line = true ->
  solid (chars line).
Proof.
  intros Hin Ht. split; [eapply file_lines_no_nl; exact Hin|].
  apply tagged_b_list in Ht. destruct Ht as (a & b & c & d & E).
  exists "["%char. split; [|reflexivity].
  rewrite E. apply in_or_app. right. now left.
Qed.

(** C9, as amended.  On a host whose log file is given, [error_warning]
    returns the number of log lines that carry the bracketed tag with the
    word in upper case (matched case-sensitively), and with it those lines,
    each as it is in the log, in sorted order. *)
Theorem error_warning_counts (mode rt : string) (h : Host.files)
    (t : Spec.tag) (w : world) :
  let self := init mode rt (Host.static h) in
  let hit := filter (Spec.tagged_b t) (Host.file_lines (Host.log_text h)) in
  fst (error_warning self (Spec.tag_arg t) w)
  = Ok (Z.of_nat (List.length hit), Host.unlines (StringSort.sort hit))
  /\ Permutation hit (StringSort.sort hit)
  /\ (forall line, Spec.tagged_b t line = true <-> Spec.tagged t line).
Proof.
  intros self hit.
  split; [|split; [apply StringSort.Permuted_sort | apply tagged_iff]].
  unfold error_warning, bind, runcmd. cbn [ssh self init rhsm_log_file fst snd].
  unfold Host.static. rewrite exec_tag. fold hit.
  pose proof (StringSort.Permuted_sort hit) as Hp.
  destruct (StringSort.sort hit) as [|l ls] eqn:Es.
  - apply Permutation_sym, Permutation_nil in Hp. rewrite Hp. reflexivity.
  - rewrite unlines_nonempty. cbn [negb fst ret].
    unfold count. rewrite count_printed.
    + now rewrite (Permutation_length Hp).
    + discriminate.
    + apply Forall_forall. intros x Hx.
      apply (Permutation_in _ (Permutation_sym Hp)) in Hx.
      subst hit. apply filter_In in Hx. destruct Hx as [Hin Ht].
      eapply tagged_solid; eauto.
Qed.

(** C9, counterexample: a line whose tag is in lower case matches the tag
    case-insensitively and is not counted. *)
Lemma error_warning_is_case_sensitive :
  match fst (error_warning (init "esx" "rhsm" (Sample.host Sample.lower_case_log))
               "error" start_world) with
  | Ok (n, _) =>
      n <> Z.of_nat (List.length (filter (Spec.tagged_any_case Spec.Errors)
                                    (Host.file_lines Sample.lower_case_log)))
  | Raise _ => False
  end.
Proof. vm_compute. discriminate. Qed.

(** The scenario of the specification: one ERROR line and one WARNING line
    give the counts 1 and 1, each with its line. *)
Example error_and_warning_once :
  let self := init "esx" "rhsm" (Sample.host Sample.tagged_log) in
  fst (error_warning self "error" start_world)
  = Ok (1, Sample.text
             ["2022-03-01 10:00:01,100 [virtwho.main ERROR] no route to host"])
  /\ fst (error_warning self "warning" start_world)
     = Ok (1, Sample.text
                ["2022-03-01 10:00:02,100 [virtwho.main WARNING] slow answer"]).
Proof. split; vm_compute; reflexivity. Qed.

(** ** Numbers as the shell prints them *)

Lemma digits_val_uint (d : Decimal.uint) :
  forall (acc : nat) (pd : bool),
    (d <> Decimal.Nil \/ pd = true) ->
    digits_val (Z.of_nat acc) pd (chars (NilEmpty.string_of_uint d))
    = Some (Z.of_nat (Nat.of_uint_acc d acc)).
Proof.
  induction d as [|d IH|d IH|d IH|d IH|d IH|d IH|d IH|d IH|d IH|d IH];
    intros acc pd H;
    [ destruct H as [H|H]; [congruence | subst; reflexivity] | .. ];
    cbn [NilEmpty.string_of_uint chars list_ascii_of_string digits_val Nat.of_uint_acc];
    change (is_digit _) with true; cbv iota;
    rewrite <- (IH _ true (or_intror eq_refl)); f_equal;
    rewrite Nat.tail_mul_spec; unfold digit_val;
    change (code _) with 48%nat || change (code _) with 49%nat
    || change (code _) with 50%nat || change (code _) with 51%nat
    || change (code _) with 52%nat || change (code _) with 53%nat
    || change (code _) with 54%nat || change (code _) with 55%nat
    || change (code _) with 56%nat || change (code _) with 57%nat;
    rewrite ?Nat2Z.inj_succ, Nat2Z.inj_mul; cbn [Nat.sub]; lia.
Qed.

Lemma to_uint_nonnil (n : nat) : Nat.to_uint n <> Decimal.Nil.
Proof.
  intros H. pose proof (Unsigned.of_to n) as E. rewrite H in E. cbn in E.
  subst n. discriminate.
Qed.

Lemma uint_chars_digits (d : Decimal.uint) :
  Forall (fun c => is_digit c = true) (chars (NilEmpty.string_of_uint d)).
Proof. induction d; cbn; constructor; auto. Qed.

Lemma digit_not_int_space (c : ascii) :
  is_digit c = true -> is_int_space c = false.
Proof.
  unfold is_digit, is_int_space. intros H.
  apply andb_prop in H. destruct H as [H1 H2].
  apply Nat.leb_le in H1, H2.
  repeat match goal with
         | |- context [(?a <=? ?b)%nat] => destruct (Nat.leb_spec a b)
         | |- context [(?a =? ?b)%nat] => destruct (Nat.eqb_spec a b)
         end; cbn; try reflexivity; lia.
Qed.

(** [int] reads back what the shell prints for a count. *)
Lemma int_of_nat (n : nat) : int (of_nat n ++ NL) = Some (Z.of_nat n).
Proof.
  unfold int, of_nat. rewrite chars_append.
  pose proof (to_uint_nonnil n) as Hn.
  pose proof (uint_chars_digits (Nat.to_uint n)) as Hd.
  pose proof (digits_val_uint (Nat.to_uint n) 0 false (or_introl Hn)) as Hv.
  change (Nat.of_uint_acc (Nat.to_uint n) 0) with (Nat.of_uint (Nat.to_uint n)) in Hv.
  rewrite Unsigned.of_to in Hv.
  set (l := chars (NilEmpty.string_of_uint (Nat.to_uint n))) in *.
  assert (Hne : l <> []).
  { subst l. destruct (Nat.to_uint n); cbn; congruence. }
  destruct l as [|c l]; [congruence|]. clear Hne.
  inversion Hd as [|? ? Hc Hl]; subst.
  unfold int_chars. cbn [app int_lstrip chars list_ascii_of_string NL].
  rewrite (digit_not_int_space c Hc).
  assert (E : int_lstrip (rev (c :: l ++ [nl])) = rev (c :: l)).
  { change (c :: l ++ [nl])%list with ((c :: l) ++ [nl])%list.
    rewrite rev_app_distr. cbn [rev app int_lstrip].
    change (is_int_space nl) with true. cbv iota.
    destruct (rev l ++ [c])%list as [|x r] eqn:Er.
    - destruct (rev l); discriminate.
    - cbn [int_lstrip].
      assert (Hx : is_digit x = true).
      { assert (Hin : In x (rev l ++ [c])%list) by (rewrite Er; now left).
        apply in_app_or in Hin. destruct Hin as [Hin|[<-|[]]]; [|exact Hc].
        apply in_rev in Hin. rewrite Forall_forall in Hl. auto. }
      now rewrite (digit_not_int_space x Hx). }
  rewrite E, rev_involutive.
  assert (Hdash : c <> "-"%char /\ c <> "+"%char).
  { split; intros ->; discriminate. }
  destruct Hdash as [Hm Hp].
  assert (Eu : match c :: l with
               | "-"%char :: l' => option_map Z.opp (unsigned_val l')
               | "+"%char :: l' => unsigned_val l'
               | l' => unsigned_val l'
               end = unsigned_val (c :: l)).
  { destruct c as [[] [] [] [] [] [] [] []]; try reflexivity; congruence. }
  rewrite Eu. unfold unsigned_val. rewrite Hc. exact Hv.
Qed.

(** ** grep with a plain pattern *)

Lemma plain_char_facts (c : ascii) :
  Spec.plain_char c = true ->
  Ascii.eqb c "\" = false /\ Host.special c = false
  /\ Ascii.eqb c "." = false /\ Ascii.eqb c "*" = false
  /\ Ascii.eqb c "'" = false.
Proof.
  unfold Spec.plain_char, Host.special. cbn [chars list_ascii_of_string existsb].
  destruct (Ascii.eqb c "\"), (Ascii.eqb c "."), (Ascii.eqb c "*"),
    (Ascii.eqb c "["), (Ascii.eqb c "^"), (Ascii.eqb c "$"),
    (Ascii.eqb c "'"); cbn; intros H; try discriminate; auto.
Qed.

Lemma bre_plain (l : list ascii) :
  forallb Spec.plain_char l = true -> Host.bre l = Some (Lang.lit l).
Proof.
  induction l as [|c l IH]; intros H; [reflexivity|].
  cbn [forallb] in H. apply andb_prop in H. destruct H as [Hc Hl].
  destruct (plain_char_facts c Hc) as (E1 & E2 & E3 & _ & _).
  cbn [Host.bre]. rewrite E1, E2. unfold Host.bre_atom. rewrite E3.
  destruct l as [|s l2].
  - reflexivity.
  - assert (Hs : Ascii.eqb s "*" = false).
    { cbn [forallb] in Hl. apply andb_prop in Hl. destruct Hl as [Hs _].
      apply plain_char_facts in Hs. tauto. }
    rewrite Hs, (IH Hl). reflexivity.
Qed.

Lemma starts_with_iff (p l : list ascii) :
  starts_with p l = true <-> exists post, l = (p ++ post)%list.
Proof.
  revert l. induction p as [|a p IH]; intros l; cbn [starts_with].
  - split; [intros _; exists l; reflexivity | auto].
  - destruct l as [|b l].
    + split; [discriminate | intros (post & E); discriminate].
    + split.
      * intros H. apply andb_prop in H. destruct H as [H1 H2].
        apply Ascii.eqb_eq in H1. subst b. apply IH in H2.
        destruct H2 as (post & ->). exists post. reflexivity.
      * intros (post & E). injection E as -> ->.
        rewrite Ascii.eqb_refl. cbn. apply IH. eauto.
Qed.

Lemma contains_iff (p l : list ascii) :
  contains p l = true <-> exists pre post, l = (pre ++ p ++ post)%list.
Proof.
  induction l as [|b l IH]; cbn [contains].
  - rewrite orb_false_r, starts_with_iff. split.
    + intros (post & E). exists [], post. exact E.
    + intros (pre & post & E). destruct pre; [|discriminate]. exists post. exact E.
  - rewrite orb_true_iff, starts_with_iff, IH. split.
    + intros [(post & E) | (pre & post & E)].
      * exists [], post. exact E.
      * exists (b :: pre), post. now rewrite E.
    + intros (pre & post & E). destruct pre as [|x pre].
      * left. exists post. exact E.
      * right. injection E as -> ->. eauto.
Qed.

Lemma simple_lit (l : list ascii) : Lang.simple (Lang.lit l) = true.
Proof. unfold Lang.lit. now rewrite simple_then_lit. Qed.

Lemma lang_lit (l s : list ascii) :
  Lang.lang Host.line_flags (Lang.lit l) s <-> s = l.
Proof.
  unfold Lang.lit. rewrite lang_then_lit by reflexivity. cbn [Lang.lang]. split.
  - intros (s' & -> & ->). now rewrite app_nil_r.
  - intros ->. exists []. now rewrite app_nil_r.
Qed.

(** A plain pattern selects the lines that contain it. *)
Lemma grep_plain (pat line : string) :
  Spec.plain pat -> Host.grep_match pat line = str_in pat line.
Proof.
  intros Hp. unfold Host.grep_match, str_in. rewrite (bre_plain _ Hp).
  unfold Re.matches. apply eq_iff_eq_true.
  rewrite search_iff by apply simple_lit. rewrite contains_iff. split.
  - intros (pre & mid & post & E & H). apply lang_lit in H. subst mid. eauto.
  - intros (pre & post & E). exists pre, (chars pat), post.
    split; [exact E | now apply lang_lit].
Qed.

Lemma grep_filter (pat : string) (ls : list string) :
  Spec.plain pat -> Host.grep pat ls = filter (str_in pat) ls.
Proof.
  intros Hp. unfold Host.grep. apply filter_ext. intros l. now apply grep_plain.
Qed.

Lemma plain_phrase (name : string) :
  Spec.plain name -> Spec.plain (Spec.report_phrase name).
Proof.
  unfold Spec.plain, Spec.report_phrase. intros H.
  rewrite !chars_append, !forallb_app, H. reflexivity.
Qed.

Lemma quoted_plain (a b : string) :
  Spec.plain a -> Host.quoted (a ++ String "'" b) = (a, String "'" b).
Proof.
  unfold Spec.plain. induction a as [|c a IH]; intros H; [reflexivity|].
  cbn [chars list_ascii_of_string forallb] in H.
  apply andb_prop in H. destruct H as [Hc Ha].
  apply plain_char_facts in Hc. destruct Hc as (_ & _ & _ & _ & Hq).
  cbn [append Host.quoted]. rewrite Hq, (IH Ha). reflexivity.
Qed.

(** ** The report commands on a host with files *)

Lemma plain_markers :
  Spec.plain "Report for config" /\ Spec.plain "placing in datastore".
Proof. split; reflexivity. Qed.

Lemma firstn_filter_find {A} (f : A -> bool) (l : list A) :
  firstn 1 (filter f l) = match find f l with Some x => [x] | None => [] end.
Proof.
  induction l as [|x l IH]; [reflexivity|]. cbn [filter find].
  destruct (f x); [reflexivity | exact IH].
Qed.

Lemma filter_filter {A} (f g : A -> bool) (l : list A) :
  filter g (filter f l) = filter (fun x => f x && g x) l.
Proof.
  induction l as [|x l IH]; [reflexivity|]. cbn [filter].
  destruct (f x); cbn [filter andb]; [destruct (g x)|]; now rewrite IH.
Qed.

Lemma exec_first (h : Host.files) :
  Host.exec h Host.first_report_cmd
  = (0, match Spec.located (Host.file_lines (Host.log_text h)) with
        | Some first => first ++ NL
        | None => ""
        end).
Proof.
  transitivity
    (0, Host.unlines
          (firstn 1 (Host.grep "placing in datastore"
                       (Host.grep "Report for config"
                          (Host.file_lines (Host.log_text h)))))).
  { reflexivity. }
  destruct plain_markers as [H1 H2].
  rewrite (grep_filter _ _ H1), (grep_filter _ _ H2), filter_filter,
    firstn_filter_find.
  unfold Spec.located.
  destruct (find _ _); [|reflexivity].
  reflexivity.
Qed.

Lemma exec_count (h : Host.files) (name : string) :
  Spec.plain name ->
  Host.exec h ("grep '" ++ Spec.report_phrase name ++ "' "
               ++ Host.log_path ++ " | wc -l")
  = (0, of_nat (List.length
                  (filter (str_in (Spec.report_phrase name))
                     (Host.file_lines (Host.log_text h)))) ++ NL).
Proof.
  intros Hp. apply plain_phrase in Hp.
  unfold Host.exec.
  change (String.eqb ("grep '" ++ Spec.report_phrase name ++ "' "
                      ++ Host.log_path ++ " | wc -l")
            ("cat " ++ Host.log_path)) with false.
  change (String.eqb ("grep '" ++ Spec.report_phrase name ++ "' "
                      ++ Host.log_path ++ " | wc -l")
            ("cat " ++ Host.print_path)) with false.
  change (String.eqb ("grep '" ++ Spec.report_phrase name ++ "' "
                      ++ Host.log_path ++ " | wc -l")
            Host.count_cmd) with false.
  change (String.eqb ("grep '" ++ Spec.report_phrase name ++ "' "
                      ++ Host.log_path ++ " | wc -l")
            Host.first_report_cmd) with false.
  cbv iota.
  change (Host.strip_prefix "grep '"
            ("grep '" ++ Spec.report_phrase name ++ "' "
             ++ Host.log_path ++ " | wc -l"))
    with (Some (Spec.report_phrase name
                ++ String "'" (" " ++ Host.log_path ++ " | wc -l"))).
  cbv iota. rewrite (quoted_plain _ _ Hp).
  change (String.eqb (String "'" (" " ++ Host.log_path ++ " | wc -l"))
            ("' " ++ Host.log_path ++ " |sort")) with false.
  change (String.eqb (String "'" (" " ++ Host.log_path ++ " | wc -l"))
            ("' " ++ Host.log_path ++ " | wc -l")) with true.
  cbv iota. now rewrite (grep_filter _ _ Hp).
Qed.

Lemma exec_head (h : Host.files) (name : string) :
  Spec.plain name ->
  Host.exec h ("grep '" ++ Spec.report_phrase name ++ "' "
               ++ Host.log_path ++ " | head -2")
  = (0, Host.unlines
          (firstn 2 (filter (str_in (Spec.report_phrase name))
                       (Host.file_lines (Host.log_text h))))).
Proof.
  intros Hp. apply plain_phrase in Hp.
  unfold Host.exec.
  change (String.eqb ("grep '" ++ Spec.report_phrase name ++ "' "
                      ++ Host.log_path ++ " | head -2")
            ("cat " ++ Host.log_path)) with false.
  change (String.eqb ("grep '" ++ Spec.report_phrase name ++ "' "
                      ++ Host.log_path ++ " | head -2")
            ("cat " ++ Host.print_path)) with false.
  change (String.eqb ("grep '" ++ Spec.report_phrase name ++ "' "
                      ++ Host.log_path ++ " | head -2")
            Host.count_cmd) with false.
  change (String.eqb ("grep '" ++ Spec.report_phrase name ++ "' "
                      ++ Host.log_path ++ " | head -2")
            Host.first_report_cmd) with false.
  cbv iota.
  change (Host.strip_prefix "grep '"
            ("grep '" ++ Spec.report_phrase name ++ "' "
             ++ Host.log_path ++ " | head -2"))
    with (Some (Spec.report_phrase name
                ++ String "'" (" " ++ Host.log_path ++ " | head -2"))).
  cbv iota. rewrite (quoted_plain _ _ Hp).
  change (String.eqb (String "'" (" " ++ Host.log_path ++ " | head -2"))
            ("' " ++ Host.log_path ++ " |sort")) with false.
  change (String.eqb (String "'" (" " ++ Host.log_path ++ " | head -2"))
            ("' " ++ Host.log_path ++ " | wc -l")) with false.
  change (String.eqb (String "'" (" " ++ Host.log_path ++ " | head -2"))
            ("' " ++ Host.log_path ++ " | head -2")) with true.
  cbv iota. now rewrite (grep_filter _ _ Hp).
Qed.

Lemma split_unlines (ls : list string) :
  Forall (fun l => ~ In nl (chars l)) ls ->
  split nl (Host.unlines ls) = (ls ++ [""])%list.
Proof.
  intros H. unfold split. rewrite chars_unlines.
  rewrite <- (app_nil_r (ulines (map chars ls))).
  rewrite split_ulines.
  - rewrite map_app, map_map. cbn [map str string_of_list_ascii]. f_equal.
    rewrite <- (map_id ls) at 2. apply map_ext. intros l. apply str_chars.
  - apply Forall_map. exact H.
  - intros [].
Qed.

Lemma append_not_empty (a : string) : String.eqb (a ++ NL) "" = false.
Proof. destruct a; reflexivity. Qed.

Lemma findall_name_empty :
  Re.findall ("Report for config " ++ DQ ++ "(.*?)" ++ DQ) "" Re.no_flags
  = Some [].
Proof. vm_compute. reflexivity. Qed.

Lemma findall_name_some (s : string) :
  exists keys,
    Re.findall ("Report for config " ++ DQ ++ "(.*?)" ++ DQ) s Re.no_flags
    = Some keys.
Proof.
  unfold Re.findall.
  destruct (Re.compile ("Report for config " ++ DQ ++ "(.*?)" ++ DQ)) eqn:E.
  - eexists. reflexivity.
  - vm_compute in E. discriminate.
Qed.

(** [loop_number] on a host with files. *)
Lemma loop_number_spec (mode rt : string) (h : Host.files) (w : world) :
  let ls := Host.file_lines (Host.log_text h) in
  (forall name, Spec.report_name ls = Some name -> Spec.plain name) ->
  exists w',
    loop_number (init mode rt (Host.static h)) w
    = (Ok (match Spec.report_name ls with
           | Some name =>
               (Spec.report_phrase name,
                Z.of_nat (List.length (filter (str_in (Spec.report_phrase name)) ls))
                - 1)
           | None => ("", 0)
           end), w').
Proof.
  intros ls Hplain. unfold loop_number.
  cbn [rhsm_log_file ssh init].
  change ("grep 'Report for config' " ++ "/var/log/rhsm/rhsm.log" ++ " |" ++ NL
          ++ "                 grep 'placing in datastore' |" ++ NL
          ++ "                 head -1") with Host.first_report_cmd.
  unfold bind at 1, runcmd at 1, Host.static at 1. rewrite exec_first. fold ls.
  unfold Spec.report_name in *.
  destruct (Spec.located ls) as [first|].
  - unfold Spec.config_name in *.
    destruct (findall_name_some (first ++ NL)) as [keys Hk].
    unfold bind at 1, re_findall at 1. rewrite Hk in *. cbn [ret fst snd].
    destruct keys as [|k0 keys]; [eexists; reflexivity|].
    rewrite append_not_empty. cbn [negb].
    specialize (Hplain k0 eq_refl).
    change ("Report for config " ++ DQ ++ k0 ++ DQ
            ++ " gathered, placing in datastore") with (Spec.report_phrase k0).
    unfold bind at 1, runcmd at 1, Host.static at 1.
    change "/var/log/rhsm/rhsm.log" with Host.log_path.
    rewrite (exec_count h k0 Hplain). fold ls.
    unfold bind, py_int. rewrite int_of_nat. eexists. reflexivity.
  - unfold bind at 1, re_findall at 1. rewrite findall_name_empty.
    eexists. reflexivity.
Qed.

Lemma seconds_hms (d : string) (t : Z) (w : world) :
  Spec.hms d = Some t -> seconds d w = (Ok t, w).
Proof.
  unfold Spec.hms, seconds.
  destruct (split ":" (strip d)) as [|h [|m [|s [|x l]]]]; try discriminate.
  unfold bind, py_int.
  destruct (int h) as [zh|]; [|discriminate].
  destruct (int m) as [zm|]; [|discriminate].
  destruct (int s) as [zs|]; [|discriminate].
  intros E. injection E as <-. reflexivity.
Qed.

Lemma first_time_clock (line : string) (w : world) :
  Spec.clock line <> None ->
  exists d t, first_time line w = (Ok d, w) /\ Spec.hms d = Some t
              /\ Spec.clock line = Some t.
Proof.
  unfold Spec.clock, first_time, bind, re_findall.
  destruct (Re.findall "\d{2}:\d{2}:\d{2}" line Re.no_flags) as [[|d l]|];
    try congruence.
  destruct (Spec.hms d) as [t|] eqn:E; [|congruence].
  intros _. exists d, t. auto.
Qed.

(** What [loop_info] returns where the name is read as it is written.  On
    a host whose log file is given and regular (the name of the first
    report line has no character that grep or the shell reads specially,
    that line carries the phrase of its name, and the first two lines with
    the phrase carry a time of day): loop-count is the
    number of log lines that contain the phrase of the located name, minus
    one; with one such line loop-count is 0 and loop-interval is -1; with
    two or more, loop-interval is the time of day of the second line minus
    that of the first, in seconds; without a report line loop-count is 0
    and loop-interval is -1. *)
Theorem loop_info_counts (mode rt : string) (h : Host.files) (w : world)
    (Hreg : Spec.regular (Host.file_lines (Host.log_text h))) :
  fst (loop_info (init mode rt (Host.static h)) w)
  = Ok (Spec.loop_interval (Host.file_lines (Host.log_text h)),
        Spec.loop_count (Host.file_lines (Host.log_text h))).
Proof.
  set (ls := Host.file_lines (Host.log_text h)) in *.
  assert (Hplain : forall name, Spec.report_name ls = Some name ->
                                Spec.plain name).
  { intros name Hn. unfold Spec.regular, Spec.report_name in *.
    destruct (Spec.located ls) as [first|]; [|discriminate].
    rewrite Hn in Hreg. apply Hreg. }
  destruct (loop_number_spec mode rt h w Hplain) as [w' Hln]. fold ls in Hln.
  unfold loop_info. unfold bind at 1. rewrite Hln.
  unfold Spec.loop_interval, Spec.loop_count, Spec.occurrences.
  unfold Spec.regular in Hreg. unfold Spec.report_name in *.
  destruct (Spec.located ls) as [first|] eqn:El; [|reflexivity].
  destruct (Spec.config_name first) as [name|] eqn:En; [|reflexivity].
  destruct Hreg as (Hp & Hfirst & Hclock).
  set (occ := filter (str_in (Spec.report_phrase name)) ls) in *.
  assert (Hin : In first occ).
  { subst occ. apply filter_In. split; [|exact Hfirst].
    unfold Spec.located in El. apply find_some in El. apply El. }
  assert (Hnl : Forall (fun l => ~ In nl (chars l)) occ).
  { apply Forall_forall. intros l Hl. subst occ. apply filter_In in Hl.
    eapply file_lines_no_nl. apply Hl. }
  destruct occ as [|l1 [|l2 rest]] eqn:Eo; [destruct Hin | reflexivity |].
  cbn [List.length].
  replace (Z.of_nat (S (S (List.length rest))) - 1 =? 0) with false
    by (symmetry; apply Z.eqb_neq; lia).
  cbn [negb rhsm_log_file ssh init].
  unfold bind at 1, runcmd at 1, Host.static at 1.
  change "/var/log/rhsm/rhsm.log" with Host.log_path.
  rewrite (exec_head h name Hp). fold ls. cbn [snd].
  change (filter (str_in (Spec.report_phrase name)) ls) with occ. subst occ.
  rewrite Eo. cbn [firstn].
  rewrite split_unlines.
  2:{ inversion Hnl as [|? ? H1 Hn2]; subst. inversion Hn2; subst.
      repeat constructor; assumption. }
  cbn [app].
  destruct Hclock as [Hc1 Hc2].
  destruct (first_time_clock l1
              {| trace := (trace w' ++ [Cmd ("grep '" ++ Spec.report_phrase name
                                             ++ "' " ++ Host.log_path
                                             ++ " | head -2")])%list;
                 logs := logs w' |} Hc1) as (d1 & t1 & F1 & H1 & C1).
  rewrite (bind_step _ _ _ _ _ F1).
  unfold bind at 1, ret at 1.
  destruct (first_time_clock l2
              {| trace := (trace w' ++ [Cmd ("grep '" ++ Spec.report_phrase name
                                             ++ "' " ++ Host.log_path
                                             ++ " | head -2")])%list;
                 logs := logs w' |} Hc2) as (d2 & t2 & F2 & H2 & C2).
  rewrite (bind_step _ _ _ _ _ F2).
  rewrite (bind_step _ _ _ _ _ (seconds_hms d1 t1 _ H1)).
  rewrite (bind_step _ _ _ _ _ (seconds_hms d2 t2 _ H2)).
  rewrite C1, C2. reflexivity.
Qed.

(** Three reports of the configuration [esx], one minute apart. *)
Lemma loop_info_counts_witness :
  let h := {| Host.log_text := Sample.loop_log; Host.print_text := None;
              Host.processes := 1 |} in
  Spec.regular (Host.file_lines (Host.log_text h))
  /\ fst (loop_info (init "esx" "rhsm" (Host.static h)) start_world)
     = Ok (Spec.loop_interval (Host.file_lines (Host.log_text h)),
           Spec.loop_count (Host.file_lines (Host.log_text h)))
  /\ (Spec.loop_interval (Host.file_lines (Host.log_text h)),
      Spec.loop_count (Host.file_lines (Host.log_text h))) = (60, 2).
Proof.
  cbv zeta.
  assert (Hreg : Spec.regular
                   (Host.file_lines
                      (Host.log_text
                         {| Host.log_text := Sample.loop_log;
                            Host.print_text := None;
                            Host.processes := 1 |}))).
  { vm_compute. split; [reflexivity|]. split; [reflexivity|].
    split; discriminate. }
  split; [exact Hreg|]. split.
  - exact (loop_info_counts "esx" "rhsm" _ start_world Hreg).
  - vm_compute. reflexivity.
Defined.

(** C6.  [loop_number] builds the exact phrase of the located name and
    puts it between the quotes of a [grep] as it is, so grep reads the name
    as a pattern.  In a log with one report of the configuration [a.b] and
    one of [aXb] the located name is [a.b] and its phrase occurs once:
    loop-count should be 0 and loop-interval -1.  The dot of the name
    stands for any character, the report of [aXb] is counted with it, and
    [loop_info] returns loop-count 1 and loop-interval 5. *)
Lemma loop_number_reads_name_as_pattern :
  let ls := Host.file_lines Sample.dotted_log in
  let out := fst (loop_info (init "esx" "rhsm" (Sample.host Sample.dotted_log))
                    start_world) in
  Spec.report_name ls = Some "a.b"
  /\ List.length (Spec.occurrences ls) = 1%nat
  /\ out = Ok (5, 1)
  /\ out <> Ok (Spec.loop_interval ls, Spec.loop_count ls).
Proof.
  cbv zeta.
  split; [vm_compute; reflexivity|].
  split; [vm_compute; reflexivity|].
  split; [vm_compute; reflexivity|].
  vm_compute. discriminate.
Qed.

(** Two reports without a time of day: loop-count is 1, and [loop_info]
    takes the first time of a line that has none. *)
Example loop_info_untimed_raises :
  fst (loop_info (init "esx" "rhsm" (Sample.host Sample.untimed_log))
         start_world)
  = Raise IndexError.
Proof. vm_compute. reflexivity. Qed.

(** ** Running by command line *)

Lemma command_line_shape (mode : string) (debug oneshot prt : bool)
    (interval : option Z) (cfg : option string) :
  exists body,
    Spec.command_line mode debug oneshot interval prt cfg
    = "virt-who " ++ body
      ++ (if prt then " > /root/print.json" else "").
Proof.
  unfold Spec.command_line.
  exists ((if debug then "-d " else "")
          ++ (if oneshot then "-o " else "")
          ++ match interval with
             | Some n => "-i " ++ of_Z n ++ " "
             | None => ""
             end
          ++ (if prt then "-p " else "")
          ++ match cfg with
             | Some c =>
                 if String.eqb c "" then ""
                 else if String.eqb c "default"
                      then "-c /etc/virt-who.d/" ++ mode ++ ".conf "
                      else "-c " ++ c ++ " "
             | None => ""
             end).
  rewrite !append_assoc. reflexivity.
Qed.

(** C10, counterexample: the interval 0 is given, and the command has no
    [-i] option. *)
Lemma run_cli_drops_zero_interval :
  let self := init "esx" "rhsm" (Sample.host "") in
  cli_of self true true (Some 0) false (Some "default")
  = "virt-who -d -o -c /etc/virt-who.d/esx.conf "
  /\ Spec.command_line "esx" true true (Some 0) false (Some "default")
     = "virt-who -d -o -i 0 -c /etc/virt-who.d/esx.conf "
  /\ cli_of self true true (Some 0) false (Some "default")
     <> Spec.command_line "esx" true true (Some 0) false (Some "default").
Proof.
  cbv zeta. split; [vm_compute; reflexivity|].
  split; [vm_compute; reflexivity|].
  vm_compute. discriminate.
Qed.

End Facts.

(* ================================================================= *)
(** * Further properties of the runner *)

(** ** Events added to the trace *)

Module FootprintFacts.
Import Py Val World Runner WorldFacts Footprint.
#[local] Open Scope list_scope.
#[local] Open Scope monad_scope.

Lemma emits_quiet {A} (Q : event -> Prop) (c : M A) : quiet c -> emits Q c.
Proof.
  intros H w. exists []. rewrite app_nil_r. split; [|constructor].
  now apply quiet_trace.
Qed.

Lemma emits_emit (Q : event -> Prop) (e : event) : Q e -> emits Q (emit e).
Proof. intros H w. exists [e]. split; [reflexivity | now constructor]. Qed.

Lemma emits_runcmd (Q : event -> Prop) (ssh : remote) (cmd : string) :
  Q (Cmd cmd) -> emits Q (runcmd ssh cmd).
Proof. intros H w. exists [Cmd cmd]. split; [reflexivity | now constructor]. Qed.

Lemma emits_bind {A B} (Q : event -> Prop) (c : M A) (f : A -> M B) :
  emits Q c -> (forall a, emits Q (f a)) -> emits Q (bind c f).
Proof.
  intros Hc Hf w. unfold bind. destruct (Hc w) as (e1 & E1 & F1).
  destruct (c w) as [[a|e] w']; cbn [snd] in *.
  - destruct (Hf a w') as (e2 & E2 & F2). exists (e1 ++ e2).
    rewrite E2, E1, app_assoc. split; [reflexivity | now apply Forall_app].
  - exists e1. auto.
Qed.

Lemma emits_for_each {A S R} (Q : event -> Prop) (l : list A)
    (body : A -> S -> M (ctl S R)) :
  (forall x s, emits Q (body x s)) -> forall s, emits Q (for_each l s body).
Proof.
  intros Hb. induction l as [|x l IH]; intros s; cbn [for_each].
  - apply emits_quiet, quiet_ret.
  - apply emits_bind; [apply Hb|].
    intros [s'|s'|r]; auto using emits_quiet, quiet_ret.
Qed.

Lemma emits_weaken {A} (Q Q' : event -> Prop) (c : M A) :
  (forall e, Q e -> Q' e) -> emits Q c -> emits Q' c.
Proof.
  intros HQ H w. destruct (H w) as (evs & E & F). exists evs.
  split; [exact E|]. eapply Forall_impl; eauto.
Qed.

(** The seconds slept. *)
Lemma slept_app (a b : list event) : slept (a ++ b) = slept a + slept b.
Proof.
  induction a as [|e a IH]; [reflexivity|]. cbn [app slept fold_right].
  fold (slept (a ++ b)). fold (slept a). rewrite IH. destruct e; lia.
Qed.

Lemma sleeps_quiet {A} (c : M A) : quiet c -> sleeps_le 0 c.
Proof. intros H w. rewrite (quiet_trace c w H). lia. Qed.

Lemma sleeps_runcmd ssh cmd : sleeps_le 0 (runcmd ssh cmd).
Proof.
  intros w. unfold runcmd. cbn [snd trace]. rewrite slept_app. cbn. lia.
Qed.

Lemma sleeps_spawn cmd : sleeps_le 0 (spawn cmd).
Proof.
  intros w. unfold spawn, emit. cbn [snd trace]. rewrite slept_app. cbn. lia.
Qed.

Lemma sleeps_sleep secs : 0 <= secs -> sleeps_le secs (sleep secs).
Proof.
  intros H w. rewrite sleep_ok by exact H. unfold emit. cbn [snd trace].
  rewrite slept_app. cbn. lia.
Qed.

Lemma emits_sleep (Q : event -> Prop) secs :
  Q (Sleep secs) -> emits Q (sleep secs).
Proof.
  intros H w. unfold sleep. destruct (secs <? 0).
  - exists []. cbn [raise snd]. now rewrite app_nil_r.
  - now apply emits_emit.
Qed.

Lemma sleeps_bind {A B} (k1 k2 : Z) (c : M A) (f : A -> M B) :
  0 <= k2 -> sleeps_le k1 c -> (forall a, sleeps_le k2 (f a)) ->
  sleeps_le (k1 + k2) (bind c f).
Proof.
  intros H2 Hc Hf w. unfold bind. specialize (Hc w).
  destruct (c w) as [[a|e] w']; cbn [snd] in *.
  - specialize (Hf a w'). lia.
  - lia.
Qed.

Lemma sleeps_free_bind {A B} (c : M A) (f : A -> M B) :
  sleeps_le 0 c -> (forall a, sleeps_le 0 (f a)) -> sleeps_le 0 (bind c f).
Proof. apply (sleeps_bind 0 0). lia. Qed.

Lemma sleeps_weaken {A} (k k' : Z) (c : M A) :
  k <= k' -> sleeps_le k c -> sleeps_le k' c.
Proof. intros Hk H w. specialize (H w). lia. Qed.

Lemma sleeps_for_each_free {A S R} (l : list A) (body : A -> S -> M (ctl S R)) :
  (forall x s, sleeps_le 0 (body x s)) ->
  forall s, sleeps_le 0 (for_each l s body).
Proof.
  intros Hb. induction l as [|x l IH]; intros s; cbn [for_each].
  - apply sleeps_quiet, quiet_ret.
  - apply sleeps_free_bind; [apply Hb|].
    intros [s'|s'|r]; auto using sleeps_quiet, quiet_ret.
Qed.

(** A loop whose round for [x] sleeps [k x] at most. *)
Lemma sleeps_for_each {A S R} (k : A -> Z) (l : list A)
    (body : A -> S -> M (ctl S R)) :
  (forall x, 0 <= k x) ->
  (forall x s, sleeps_le (k x) (body x s)) ->
  forall s, sleeps_le (fold_right (fun x acc => k x + acc) 0 l)
              (for_each l s body).
Proof.
  intros Hk Hb. induction l as [|x l IH]; intros s; cbn [for_each fold_right].
  - apply sleeps_quiet, quiet_ret.
  - assert (H0 : 0 <= fold_right (fun x acc => k x + acc) 0 l).
    { clear - Hk. induction l as [|y l IH]; cbn; [lia|]. specialize (Hk y). lia. }
    apply sleeps_bind; [exact H0 | apply Hb |].
    intros [s'|s'|r]; [apply IH | |];
      (eapply sleeps_weaken; [exact H0 | apply sleeps_quiet, quiet_ret]).
Qed.

End FootprintFacts.

Module Laws.
Import Py Val World Runner StrFacts ReFacts WorldFacts Lines LineFacts.
Import Footprint FootprintFacts Facts.
#[local] Open Scope list_scope.
#[local] Open Scope monad_scope.

(** ** The commands of the analyzer *)

Ltac emits_step :=
  match goal with
  | |- emits _ (bind _ _) => apply emits_bind; [|intros ?]
  | |- emits _ (ret _) => apply emits_quiet, quiet_ret
  | |- emits _ (raise _) => apply emits_quiet, quiet_raise
  | |- emits _ (lift _) => apply emits_quiet, quiet_lift
  | |- emits _ (log _ _ _) => apply emits_quiet, quiet_log
  | |- emits _ (py_int _) => apply emits_quiet, quiet_py_int
  | |- emits _ (re_findall _ _ _) => apply emits_quiet, quiet_re_findall
  | |- emits _ (msg_search _ _ _) => apply emits_quiet, quiet_msg_search
  | |- emits _ (send_number _ _) => apply emits_quiet, quiet_send_number
  | |- emits _ (reporter_id _ _) => apply emits_quiet, quiet_reporter_id
  | |- emits _ (interval_time _ _) => apply emits_quiet, quiet_interval_time
  | |- emits _ (mappings _ _) => apply emits_quiet, quiet_mappings
  | |- emits _ (hypervisor_id _ _ _) => apply emits_quiet, quiet_hypervisor_id
  | |- emits _ (for_each _ _ _) => apply emits_for_each; intros ? ?
  | |- emits _ (runcmd _ _) => apply emits_runcmd; try reflexivity; try exact Logic.I
  | |- emits _ (sleep _) => apply emits_sleep; try reflexivity; try exact Logic.I
  | |- emits _ (match ?x with _ => _ end) => destruct x
  end.

Lemma emits_analyzer_queries config self rhsm_log :
  emits (fun e => query_prefix e = true) (analyzer config self rhsm_log).
Proof.
  unfold analyzer, thread_number, loop_info, loop_number, first_time, seconds,
    print_json, error_warning.
  repeat emits_step.
Qed.

Ltac listed := solve [repeat first [left; reflexivity | right]].

Lemma emits_analyzer_probes config self rhsm_log :
  emits (probe self) (analyzer config self rhsm_log).
Proof.
  unfold analyzer, thread_number, loop_info, loop_number, first_time, seconds,
    print_json, error_warning.
  repeat first
    [ apply emits_runcmd; cbn [probe];
        first [ left; unfold probes; cbn [In]; listed
              | right; eexists; left; reflexivity
              | right; eexists; right; reflexivity ]
    | emits_step ].
Qed.

(** What the analyzer asks of the remote host.  Every event it adds to the
    trace is a command, never a sleep or a launch, and the command is one
    of the five fixed ones (process count, first report line, [cat] of the
    print file, sorted [grep] for the ERROR and for the WARNING tag) or one
    of the two that [loop_number] and [loop_info] build around a key.  The
    key is put between the quotes of the [grep] as it is; it holds the name
    read from the log, so what these two commands do on the host is for
    the name to decide. *)
Theorem analyzer_sends_probes (config : Configure.settings)
    (self : VirtwhoRunner) (rhsm_log : string) (w : world) :
  exists evs,
    trace (snd (analyzer config self rhsm_log w)) = trace w ++ evs
    /\ Forall (probe self) evs.
Proof. exact (emits_analyzer_probes config self rhsm_log w). Qed.


(** ** Stopping before launching *)

Lemma stop_spec (self : VirtwhoRunner) (w : world) :
  let listing := snd (ssh self (trace w ++ stop_events) survivors_cmd) in
  stop self w
  = (if String.eqb (strip listing) "" then Ok tt
     else Raise (FailException "Failed to stop and clean virt-who process"),
     Spec.traced w (stop_events ++ [Cmd survivors_cmd])).
Proof.
  cbv zeta. unfold stop, operate_service, kill_pid, bind, runcmd, sleep.
  change (10 <? 0) with false. cbv iota.
  unfold emit, ret, raise, Spec.traced.
  cbn [snd fst trace logs].
  change ("systemctl " ++ "stop" ++ " " ++ "virt-who")%string
    with "systemctl stop virt-who".
  change ("rm -f /var/run/" ++ "virt-who" ++ ".pid")%string
    with "rm -f /var/run/virt-who.pid".
  change ("ps -ef | grep " ++ "virt-who" ++ " -i | grep -v grep |sort")%string
    with survivors_cmd.
  rewrite <- !app_assoc. cbn [app].
  change (((trace w ++
            [Cmd "systemctl stop virt-who"; Sleep 10;
             Cmd ("ps -ef |" ++ NL ++ "                grep " ++ "virt-who"
                  ++ " -i |" ++ NL ++ "                grep -v grep |" ++ NL
                  ++ "                awk '{print $2}' |" ++ NL
                  ++ "                xargs -I {} kill -9 {}");
             Cmd "rm -f /var/run/virt-who.pid"])))
    with (trace w ++ stop_events).
  destruct (ssh self (trace w ++ stop_events) survivors_cmd) as [rc listing].
  cbn [snd]. destruct (String.eqb (strip listing) ""); reflexivity.
Qed.

Lemma emits_rhsm_log_get (self : VirtwhoRunner) (wait : option Z) :
  emits no_spawn (rhsm_log_get self wait).
Proof.
  unfold rhsm_log_get, poll_round, thread_number. repeat emits_step.
Qed.

(** The agent is launched only after the old one is gone.  [thread_start]
    stops the service, kills what is left, removes the pid file
    /var/run/virt-who.pid and lists the processes by name; if the listing
    is not blank it raises there: the logs and the print file are not
    removed and nothing is launched; if it is blank it removes the logs and
    the print file, then launches the command once, and nothing it does
    afterwards is a launch. *)
Theorem thread_start_gate (self : VirtwhoRunner) (cli : option string)
    (wait : option Z) (w : world) :
  let listing := snd (ssh self (trace w ++ stop_events) survivors_cmd) in
  let out := thread_start self cli wait w in
  if String.eqb (strip listing) "" then
    exists polling,
      trace (snd out)
      = trace w ++ stop_events
        ++ [ Cmd survivors_cmd;
             Cmd "rm -rf /var/log/rhsm/*";
             Cmd ("rm -rf " ++ print_json_file self);
             Spawn (start self cli) ]
        ++ polling
      /\ Forall no_spawn polling
  else
    out = (Raise (FailException "Failed to stop and clean virt-who process"),
           Spec.traced w (stop_events ++ [Cmd survivors_cmd])).
Proof.
  cbv zeta. pose proof (stop_spec self w) as Hs. cbv zeta in Hs.
  destruct (String.eqb
              (strip (snd (ssh self (trace w ++ stop_events) survivors_cmd)))
              "");
    unfold thread_start; unfold bind at 1; rewrite Hs; [|reflexivity].
  unfold bind at 1, log_clean at 1.
  unfold bind at 1 2, runcmd at 1 2, ret at 1. cbn [snd fst trace logs].
  unfold bind at 1, spawn at 1, emit at 1. cbn [snd fst trace logs].
  match goal with
  | |- context [bind (rhsm_log_get self wait) _ ?w1] =>
      destruct (emits_rhsm_log_get self wait w1) as (polling & E & F);
      unfold bind; destruct (rhsm_log_get self wait w1) as [[text|e] w2]
  end; cbn [snd trace] in *; exists polling; (split; [|exact F]).
  all: unfold ret; cbn [snd]; rewrite E; unfold Spec.traced; cbn [trace];
    rewrite <- !app_assoc; reflexivity.
Qed.

(** ** The time a run sleeps *)

Ltac awake_step :=
  match goal with
  | |- sleeps_le 0 (bind _ _) => apply sleeps_free_bind; [|intros ?]
  | |- sleeps_le 0 (ret _) => apply sleeps_quiet, quiet_ret
  | |- sleeps_le 0 (raise _) => apply sleeps_quiet, quiet_raise
  | |- sleeps_le 0 (lift _) => apply sleeps_quiet, quiet_lift
  | |- sleeps_le 0 (log _ _ _) => apply sleeps_quiet, quiet_log
  | |- sleeps_le 0 (runcmd _ _) => apply sleeps_runcmd
  | |- sleeps_le 0 (spawn _) => apply sleeps_spawn
  | |- sleeps_le 0 (py_int _) => apply sleeps_quiet, quiet_py_int
  | |- sleeps_le 0 (re_findall _ _ _) => apply sleeps_quiet, quiet_re_findall
  | |- sleeps_le 0 (msg_search _ _ _) => apply sleeps_quiet, quiet_msg_search
  | |- sleeps_le 0 (send_number _ _) => apply sleeps_quiet, quiet_send_number
  | |- sleeps_le 0 (reporter_id _ _) => apply sleeps_quiet, quiet_reporter_id
  | |- sleeps_le 0 (interval_time _ _) => apply sleeps_quiet, quiet_interval_time
  | |- sleeps_le 0 (mappings _ _) => apply sleeps_quiet, quiet_mappings
  | |- sleeps_le 0 (hypervisor_id _ _ _) =>
      apply sleeps_quiet, quiet_hypervisor_id
  | |- sleeps_le 0 (for_each _ _ _) => apply sleeps_for_each_free; intros ? ?
  | |- sleeps_le 0 (match ?x with _ => _ end) => destruct x
  end.

Lemma sleeps_analyzer config self rhsm_log :
  sleeps_le 0 (analyzer config self rhsm_log).
Proof.
  unfold analyzer, thread_number, loop_info, loop_number, first_time, seconds,
    print_json, error_warning.
  repeat awake_step.
Qed.

Lemma sleeps_after {A B} (k : Z) (c : M A) (f : A -> M B) :
  sleeps_le k c -> (forall a, sleeps_le 0 (f a)) -> sleeps_le k (bind c f).
Proof.
  intros Hc Hf. replace k with (k + 0) by lia.
  apply sleeps_bind; [lia | exact Hc | exact Hf].
Qed.

Lemma sleeps_before {A B} (k : Z) (c : M A) (f : A -> M B) :
  0 <= k -> sleeps_le 0 c -> (forall a, sleeps_le k (f a)) ->
  sleeps_le k (bind c f).
Proof.
  intros Hk Hc Hf. replace k with (0 + k) by lia.
  apply sleeps_bind; [exact Hk | exact Hc | exact Hf].
Qed.

Lemma sleeps_poll_round self (i : nat) (s : string) :
  sleeps_le 15 (poll_round self i s).
Proof.
  unfold poll_round. apply sleeps_after; [apply sleeps_sleep; lia|].
  intros _. unfold thread_number. repeat awake_step.
Qed.

Lemma budget_of_rounds (n : nat) (l : list nat) :
  List.length l = n ->
  fold_right (fun (_ : nat) acc => 15 + acc) 0 l = 15 * Z.of_nat n.
Proof.
  intros <-. induction l as [|x l IH]; [reflexivity|].
  cbn [fold_right List.length]. rewrite IH. lia.
Qed.

Lemma wait_secs_nonneg (wait : option Z) : sound_wait wait -> 0 <= wait_secs wait.
Proof.
  unfold sound_wait, wait_secs. destruct wait as [z|]; cbn; [|lia].
  destruct (z =? 0); cbn; lia.
Qed.

Lemma sleeps_rhsm_log_get self (wait : option Z) :
  sound_wait wait ->
  sleeps_le (wait_secs wait + 30 * 15) (rhsm_log_get self wait).
Proof.
  intros Hw. unfold rhsm_log_get. apply sleeps_bind; [lia | |].
  - unfold wait_secs. destruct (set_num wait);
      [apply sleeps_sleep | apply sleeps_quiet, quiet_ret].
    destruct wait; [exact Hw | lia].
  - intros _. apply sleeps_after; [|intros; apply sleeps_quiet, quiet_ret].
    replace (30 * 15) with (fold_right (fun (_ : nat) acc => 15 + acc) 0 (range 30))
      by reflexivity.
    apply (sleeps_for_each (fun _ => 15)); [lia|].
    intros x s. apply sleeps_poll_round.
Qed.

Lemma sleeps_stop self : sleeps_le 10 (stop self).
Proof.
  unfold stop, operate_service, kill_pid.
  apply sleeps_after.
  - apply sleeps_before; [lia | apply sleeps_runcmd |].
    intros. apply sleeps_after; [apply sleeps_sleep; lia|].
    intros. apply sleeps_quiet, quiet_ret.
  - intros. repeat awake_step.
Qed.

Lemma sleeps_thread_start self cli (wait : option Z) :
  sound_wait wait ->
  sleeps_le (attempt_budget wait) (thread_start self cli wait).
Proof.
  intros Hw. pose proof (wait_secs_nonneg wait Hw) as H0.
  unfold thread_start, attempt_budget.
  replace (10 + wait_secs wait + 30 * 15)
    with (10 + (wait_secs wait + 30 * 15)) by lia.
  apply sleeps_bind; [lia | apply sleeps_stop |].
  intros _. apply sleeps_before; [lia | unfold log_clean; repeat awake_step |].
  intros _. apply sleeps_before; [lia | apply sleeps_spawn |].
  intros _. apply sleeps_after; [now apply sleeps_rhsm_log_get|].
  intros. apply sleeps_quiet, quiet_ret.
Qed.

Lemma sleeps_attempt config self cli (wait : option Z) (i : nat) (u : unit) :
  sound_wait wait ->
  sleeps_le (attempt_budget wait + 60 * (Z.of_nat i + 3))
    (attempt config self cli wait i u).
Proof.
  intros Hw. pose proof (wait_secs_nonneg wait Hw) as H0.
  unfold attempt. apply sleeps_bind; [lia | now apply sleeps_thread_start |].
  intros text. apply sleeps_before; [lia | apply sleeps_quiet, quiet_msg_search |].
  intros [|].
  - apply sleeps_before; [lia | apply sleeps_quiet, quiet_log |].
    intros _. apply sleeps_after; [apply sleeps_sleep; lia|].
    intros. apply sleeps_quiet, quiet_ret.
  - apply sleeps_before; [lia | apply sleeps_quiet, quiet_msg_search |].
    intros [|].
    + apply sleeps_before; [lia | apply sleeps_quiet, quiet_log |].
      intros _. apply (sleeps_weaken 60); [lia|].
      apply sleeps_after; [apply sleeps_sleep; lia|].
      intros. apply sleeps_quiet, quiet_ret.
    + apply (sleeps_weaken 0); [lia|].
      apply sleeps_free_bind; [apply sleeps_analyzer|].
      intros. apply sleeps_quiet, quiet_ret.
Qed.

(** The time budget of a run.  With a wait that is not negative, the
    main thread of a run sleeps at most four times 10 seconds (the stop),
    the wait and 30 rounds of 15 seconds, and 180 + 240 + 300 + 360 seconds
    of back-off: 2920 seconds and four times the wait.  The delay of the
    launch thread is its own and is not counted. *)
Theorem run_start_sleep_budget (config : Configure.settings)
    (self : VirtwhoRunner) (cli : option string) (wait : option Z)
    (w : world) (Hwait : sound_wait wait) :
  slept (trace (snd (run_start config self cli wait w)))
  <= slept (trace w) + run_budget wait
  /\ run_budget wait = 2920 + 4 * wait_secs wait.
Proof.
  split; [|unfold run_budget, attempt_budget; lia].
  revert w. change (sleeps_le (run_budget wait) (run_start config self cli wait)).
  pose proof (wait_secs_nonneg wait Hwait) as H0.
  unfold run_start. apply sleeps_after.
  - replace (run_budget wait)
      with (fold_right (fun i acc => (attempt_budget wait
                                        + 60 * (Z.of_nat i + 3)) + acc)
              0 (range 4))
      by (unfold run_budget, range; cbn [seq fold_right]; lia).
    apply (sleeps_for_each (fun i => attempt_budget wait + 60 * (Z.of_nat i + 3))).
    + intros i. unfold attempt_budget. lia.
    + intros i u. now apply sleeps_attempt.
  - intros [u|d]; [apply sleeps_quiet, quiet_raise | apply sleeps_quiet, quiet_ret].
Qed.

(** A run with a wait of 5 seconds on a host whose log has the rate-limit
    marker sleeps 1200 seconds; its budget is 2940. *)
Lemma run_start_sleep_budget_witness :
  sound_wait (Some 5)
  /\ slept (trace (snd (run_start Sample.config
                          (init "esx" "rhsm" (Sample.host Sample.limited_log))
                          None (Some 5) start_world)))
     <= slept (trace start_world) + run_budget (Some 5)
  /\ slept (trace (snd (run_start Sample.config
                          (init "esx" "rhsm" (Sample.host Sample.limited_log))
                          None (Some 5) start_world))) = 1200
  /\ run_budget (Some 5) = 2940.
Proof.
  assert (H : sound_wait (Some 5)) by (cbn; lia).
  split; [exact H|]. split.
  - exact (proj1 (run_start_sleep_budget Sample.config
                    (init "esx" "rhsm" (Sample.host Sample.limited_log))
                    None (Some 5) start_world H)).
  - split; vm_compute; reflexivity.
Defined.

(** ** What a run launches *)

Lemma emits_thread_start self cli wait :
  emits (spawns_only (start self cli)) (thread_start self cli wait).
Proof.
  unfold thread_start, stop, operate_service, kill_pid, log_clean.
  repeat first
    [ apply (emits_weaken no_spawn);
        [intros [] H; trivial; destruct H | apply emits_rhsm_log_get]
    | apply emits_emit; reflexivity
    | emits_step ].
Qed.

Lemma cli_of_nonempty self debug oneshot interval prt cfg :
  String.eqb (cli_of self debug oneshot interval prt cfg) "" = false.
Proof.
  unfold cli_of.
  destruct debug, oneshot, prt;
    destruct interval as [n|]; try destruct (negb (n =? 0));
    destruct cfg as [c|]; try destruct (negb (String.eqb c ""));
    reflexivity.
Qed.

(** A run launches nothing but the command it was asked for.  Every event
    [run_start] adds is a command, a sleep or the launch of what [start]
    selects: the command line when one is given and not empty, the
    service restart otherwise.  So [run_service] launches only
    [systemctl restart virt-who] and [run_cli] only the command line it
    built. *)
Theorem run_start_launches_requested (config : Configure.settings)
    (self : VirtwhoRunner) (cli : option string) (wait : option Z)
    (w : world) :
  (exists evs,
     trace (snd (run_start config self cli wait w)) = trace w ++ evs
     /\ Forall (spawns_only (start self cli)) evs)
  /\ start self None = "systemctl restart virt-who"
  /\ start self (Some "") = "systemctl restart virt-who"
  /\ (forall debug oneshot interval prt cfg,
        start self (Some (cli_of self debug oneshot interval prt cfg))
        = cli_of self debug oneshot interval prt cfg).
Proof.
  split; [|split; [reflexivity | split; [reflexivity|]]].
  - revert w. change (emits (spawns_only (start self cli))
                        (run_start config self cli wait)).
    unfold run_start, attempt.
    repeat first
      [ apply emits_thread_start
      | apply (emits_weaken (fun e => query_prefix e = true));
          [intros [] H; try discriminate H; exact Logic.I
          | apply emits_analyzer_queries]
      | emits_step ].
  - intros. unfold start. now rewrite cli_of_nonempty.
Qed.

(** ** Searching for messages *)







(** Case is folded above the ASCII range too: the word with the small
    accented letter is found in the text that has it in capitals.  The
    multiplication and the division sign, 32 apart, are not letters and do
    not match each other. *)
Example msg_search_folds_latin :
  fst (msg_search (init "esx" "rhsm" (Sample.host "")) Search.cafe_ferme
         (Str Search.cafe) start_world)
  = Ok true
  /\ Re.atom_ok Re.I (Re.Chr (ascii_of_nat 215)) (ascii_of_nat 247) = false.
Proof. split; vm_compute; reflexivity. Qed.

(** ** Dictionaries with string keys *)

Lemma key_eqb_str (a : string) (k : value) :
  key_eqb (VStr a) k = true -> k = VStr a.
Proof.
  destruct k; cbn; try discriminate. intros H.
  apply String.eqb_eq in H. now subst.
Qed.

Lemma dict_get_set_same {V} (a : string) (v : V) (d : dict_of V) :
  dict_get (VStr a) (dict_set (VStr a) v d) = Some v.
Proof.
  induction d as [|[k x] d IH]; cbn [dict_set dict_get].
  - cbn. now rewrite String.eqb_refl.
  - destruct (key_eqb (VStr a) k) eqn:E; cbn [dict_get]; rewrite E;
      [reflexivity | exact IH].
Qed.

Lemma dict_get_set_other {V} (a b : string) (v : V) (d : dict_of V) :
  a <> b -> dict_get (VStr b) (dict_set (VStr a) v d) = dict_get (VStr b) d.
Proof.
  intros Hab. induction d as [|[k x] d IH]; cbn [dict_set dict_get].
  - cbn. destruct (String.eqb_spec b a); [congruence | reflexivity].
  - destruct (key_eqb (VStr a) k) eqn:E; cbn [dict_get].
    + apply key_eqb_str in E. subst k. cbn.
      destruct (String.eqb_spec b a); [congruence | reflexivity].
    + now rewrite IH.
Qed.

Lemma dict_get_map {V W} (f : V -> W) (k : value) (d : dict_of V) :
  dict_get k (map (fun kv => (fst kv, f (snd kv))) d)
  = option_map f (dict_get k d).
Proof.
  induction d as [|[k' x] d IH]; [reflexivity|]. cbn [map dict_get fst snd].
  destruct (key_eqb k k'); [reflexivity | exact IH].
Qed.

(** ** The mappings of the remote modes *)

(** One round of the loop over the organisations, once the block is
    read: it stores the organisation or raises. *)
Lemma org_entry_stores (rhsm_log org : string) (data : dict_of slot)
    (org_data : dict) (found : list string) (block : string) (info : value)
    (w w' : world) (c : ctl (dict_of slot * dict) value) :
  Re.findall Mapping.block_pattern rhsm_log Re.S_ = Some found ->
  last_item found = Ok block ->
  Json.loads (remove_char nl block) = Some info ->
  org_entry rhsm_log org (data, org_data) w = (Ok c, w') ->
  exists org_data', c = Next (dict_set (VStr org) Shared data, org_data').
Proof.
  intros Hf Hl Hj. unfold org_entry, re_findall.
  change "(?<=: ){.*?}\n+(?=202|$)" with Mapping.block_pattern.
  rewrite Hf. unfold bind at 1, ret at 1. rewrite Hl.
  unfold bind at 1, lift at 1. rewrite Hj.
  intros H.
  repeat match type of H with
         | bind ?c ?f ?w = (Ok _, _) =>
             let a := fresh "a" in
             let w1 := fresh "w" in
             let E := fresh "E" in
             unfold bind at 1 in H;
             destruct (c w) as [[a|?] w1] eqn:E; [|discriminate H]
         end.
  unfold ret in H. injection H as <- _. eexists. reflexivity.
Qed.

Lemma org_entry_fails (rhsm_log org : string) (st : dict_of slot * dict)
    (found : list string) (block : string) (w : world) :
  Re.findall Mapping.block_pattern rhsm_log Re.S_ = Some found ->
  last_item found = Ok block ->
  Json.loads (remove_char nl block) = None ->
  fst (org_entry rhsm_log org st w)
  = Ok (Return (resolve (fst st) (snd st))).
Proof.
  intros Hf Hl Hj. destruct st as [data org_data].
  unfold org_entry, re_findall.
  change "(?<=: ){.*?}\n+(?=202|$)" with Mapping.block_pattern.
  rewrite Hf. unfold bind at 1, ret at 1. rewrite Hl.
  unfold bind at 1, lift at 1. rewrite Hj. reflexivity.
Qed.

Lemma org_entry_no_block (rhsm_log org : string) (st : dict_of slot * dict)
    (e : exn) (found : list string) (w : world) :
  Re.findall Mapping.block_pattern rhsm_log Re.S_ = Some found ->
  last_item found = Raise e ->
  fst (org_entry rhsm_log org st w) = Raise e.
Proof.
  intros Hf Hl. destruct st as [data org_data]. unfold org_entry, re_findall.
  change "(?<=: ){.*?}\n+(?=202|$)" with Mapping.block_pattern.
  rewrite Hf. unfold bind at 1, ret at 1. rewrite Hl. reflexivity.
Qed.

Lemma stored_step (names done : list string) (org : string)
    (data : dict_of slot) :
  Mapping.stored names done data ->
  Mapping.stored names (done ++ [org]) (dict_set (VStr org) Shared data).
Proof.
  intros [H1 H2]. split.
  - intros o Ho. apply in_app_or in Ho. destruct Ho as [Ho|[->|[]]].
    + destruct (string_dec org o) as [->|Hne];
        [apply dict_get_set_same | rewrite dict_get_set_other; auto].
    + apply dict_get_set_same.
  - intros Hn. rewrite dict_get_set_other.
    + apply H2. intros Hd. apply Hn, in_or_app. now left.
    + intros ->. apply Hn, in_or_app. right. now left.
Qed.

Lemma org_loop_stores (rhsm_log : string) (names found : list string)
    (block : string) (info : value) :
  Re.findall Mapping.block_pattern rhsm_log Re.S_ = Some found ->
  last_item found = Ok block ->
  Json.loads (remove_char nl block) = Some info ->
  forall (l done : list string) (data : dict_of slot) (org_data : dict)
         (w w' : world) (r : (dict_of slot * dict) + value),
    Mapping.stored names done data ->
    for_each l (data, org_data) (org_entry rhsm_log) w = (Ok r, w') ->
    exists data' org_data',
      r = inl (data', org_data') /\ Mapping.stored names (done ++ l) data'.
Proof.
  intros Hf Hl Hj. induction l as [|org l IH]; intros done data od w w' r Hs.
  - cbn [for_each]. unfold ret. intros H. injection H as <- _.
    exists data, od. rewrite app_nil_r. auto.
  - cbn [for_each]. unfold bind at 1.
    destruct (org_entry rhsm_log org (data, od) w) as [[c|e] w1] eqn:E;
      [|discriminate].
    destruct (org_entry_stores _ _ _ _ _ _ _ _ _ _ Hf Hl Hj E) as [od' ->].
    intros H. apply IH with (done := done ++ [org]) in H.
    + rewrite <- app_assoc in H. exact H.
    + now apply stored_step.
Qed.

Lemma getitem_resolve (data : dict_of slot) (org_data : dict) (k : string) :
  getitem (resolve data org_data) k
  = match dict_get (VStr k) data with
    | Some (Own v) => Ok v
    | Some Shared => Ok (VDict org_data)
    | None => Raise KeyError
    end.
Proof.
  unfold resolve, getitem.
  rewrite (dict_get_map (fun s => match s with
                                  | Own v => v
                                  | Shared => VDict org_data
                                  end)).
  destruct (dict_get (VStr k) data) as [[v|]|]; reflexivity.
Qed.

(** In the remote modes every organisation gets one and the same data.
    When [mappings_remote] returns, its result is the empty dictionary (the
    text names no organisation), or the list of names alone under [orgs]
    (the last block of the text is no JSON), or a dictionary in which every
    organisation of the text is bound to the same dictionary. *)
Theorem mappings_remote_one_data (self : VirtwhoRunner) (rhsm_log : string)
    (w : world) (v : value)
    (Hret : fst (mappings_remote self rhsm_log w) = Ok v) :
  exists orgs,
    Re.findall Mapping.orgs_pattern rhsm_log Re.no_flags = Some orgs
    /\ match orgs with
       | [] => v = VDict []
       | _ :: _ =>
           v = VDict [(VStr "orgs", VList (map VStr orgs))]
           \/ exists shared,
                (forall org, In org orgs -> getitem v org = Ok (VDict shared))
                /\ (~ In "orgs" orgs ->
                    getitem v "orgs" = Ok (VList (map VStr orgs)))
       end.
Proof.
  revert Hret. unfold mappings_remote, re_findall.
  change "Host-to-guest mapping being sent to '(.*?)'" with Mapping.orgs_pattern.
  destruct (Re.findall Mapping.orgs_pattern rhsm_log Re.no_flags)
    as [orgs|] eqn:Eo; [|discriminate].
  intros H. exists orgs. split; [reflexivity|].
  unfold bind at 1, ret at 1 in H.
  destruct orgs as [|o orgs]; [cbn in H; injection H as <-; reflexivity|].
  set (names := o :: orgs) in *.
  set (data0 := dict_set (VStr "orgs") (Own (VList (map VStr names))) []) in *.
  assert (H0 : Mapping.stored names [] data0).
  { split; [intros ? []|]. intros _. reflexivity. }
  assert (Hc : exists found,
             Re.findall Mapping.block_pattern rhsm_log Re.S_ = Some found).
  { unfold Re.findall.
    destruct (Re.compile Mapping.block_pattern) eqn:Ec;
      [eexists; reflexivity | vm_compute in Ec; discriminate Ec]. }
  destruct Hc as [found Ef].
  destruct (last_item found) as [block|e] eqn:El.
  2:{ exfalso. unfold names in H. cbn [for_each] in H. unfold bind at 1 2 in H.
      match type of H with
      | context [org_entry ?a ?b ?st ?x] =>
          pose proof (org_entry_no_block a b st e found x Ef El) as Hn;
          destruct (org_entry a b st x) as [[c|e'] w1]
      end; cbn [fst] in Hn; [discriminate Hn|].
      cbv beta iota in H. cbn [fst] in H. discriminate H. }
  destruct (Json.loads (remove_char nl block)) as [info|] eqn:Ej.
  - right. unfold bind at 1 in H.
    match type of H with
    | context [for_each ?l ?st ?b ?x] =>
        destruct (for_each l st b x) as [[r|e] w1] eqn:E
    end; [|discriminate H].
    destruct (org_loop_stores rhsm_log names found block info Ef El Ej
                names [] data0 [] w w1 r H0 E) as (data' & od & -> & [S1 S2]).
    unfold ret in H. cbn [fst] in H. injection H as <-.
    exists od. split.
    + intros org Hin. rewrite getitem_resolve, (S1 org Hin). reflexivity.
    + intros Hn. rewrite getitem_resolve, (S2 Hn). reflexivity.
  - left. unfold names in H. cbn [for_each] in H. unfold bind at 1 2 in H.
    match type of H with
    | context [org_entry ?a ?b ?st ?x] =>
        pose proof (org_entry_fails a b st found block x Ef El Ej) as Hn;
        destruct (org_entry a b st x) as [[c|e'] w1]
    end; cbn [fst snd] in Hn; [|discriminate Hn].
    injection Hn as ->. cbv beta iota in H. unfold ret in H. cbn [fst] in H.
    injection H as <-. reflexivity.
Qed.

(** The log with one block for [org1] and a later one for [org2]. *)
Lemma mappings_remote_one_data_witness :
  let v := VDict [ (VStr "orgs", VList [VStr "org1"; VStr "org2"]);
                   (VStr "org1", Sample.org_data_of "hB" "gB");
                   (VStr "org2", Sample.org_data_of "hB" "gB") ] in
  fst (mappings_remote (init "esx" "rhsm" (Sample.host ""))
         Sample.two_orgs_log start_world) = Ok v
  /\ exists orgs,
       Re.findall Mapping.orgs_pattern Sample.two_orgs_log Re.no_flags
       = Some orgs
       /\ match orgs with
          | [] => v = VDict []
          | _ :: _ =>
              v = VDict [(VStr "orgs", VList (map VStr orgs))]
              \/ exists shared,
                   (forall org, In org orgs ->
                                getitem v org = Ok (VDict shared))
                   /\ (~ In "orgs" orgs ->
                       getitem v "orgs" = Ok (VList (map VStr orgs)))
          end.
Proof.
  cbv zeta.
  assert (H : fst (mappings_remote (init "esx" "rhsm" (Sample.host ""))
                     Sample.two_orgs_log start_world)
              = Ok (VDict [ (VStr "orgs", VList [VStr "org1"; VStr "org2"]);
                            (VStr "org1", Sample.org_data_of "hB" "gB");
                            (VStr "org2", Sample.org_data_of "hB" "gB") ]))
    by (vm_compute; reflexivity).
  split; [exact H|].
  exact (mappings_remote_one_data _ _ _ _ H).
Defined.

(** ** The hypervisor of the configured guest *)

Lemma getitem_dict (v : value) (k : string) (x : value) :
  getitem v k = Ok x -> exists d, v = VDict d.
Proof. destruct v; cbn; try discriminate. eauto. Qed.

(** The loop of [hypervisor_id] over organisations that all hold [shared],
    none of which lists the guest. *)
Lemma hypervisor_loop_none (mapping : value) (shared : dict) (guest : string)
    (names : list string) (w : world) :
  (forall org, In org names -> getitem mapping org = Ok (VDict shared)) ->
  dict_has (VStr guest) shared = false ->
  for_each (map VStr names) tt (fun org _ =>
    org_dict <- lift (getkey mapping org) ;;
    found <- lift (in_keys guest org_dict) ;;
    if found then
      d <- lift (getkey mapping org) ;;
      g <- lift (getitem d guest) ;;
      h <- lift (getitem g "guest_hypervisor") ;;
      ret (Return h)
    else ret (Next tt)) w
  = (Ok (inl tt), w).
Proof.
  intros Hall Hno. induction names as [|o names IH]; [reflexivity|].
  cbn [map for_each]. unfold bind at 1 2, lift at 1.
  destruct (getitem_dict _ _ _ (Hall o (or_introl eq_refl))) as [d ->].
  change (getkey (VDict d) (VStr o)) with (getitem (VDict d) o).
  rewrite (Hall o (or_introl eq_refl)).
  unfold bind at 1, lift at 1. cbn [in_keys]. rewrite Hno.
  unfold ret at 1. apply IH. intros org Hin. apply Hall. now right.
Qed.

(** After [mappings_remote], [hypervisor_id] reads the shared data.  For a
    mapping whose key [orgs] lists the organisations and in which every
    one of them is bound to the same dictionary, the result is the
    [guest_hypervisor] of the configured guest in that dictionary, and
    the empty string when the dictionary does not list the guest; the
    remote host is not asked. *)
Theorem hypervisor_id_of_shared (config : Configure.settings)
    (self : VirtwhoRunner) (mapping : value) (names : list string)
    (shared : dict) (w : world)
    (Horgs : getitem mapping "orgs" = Ok (VList (map VStr names)))
    (Hall : forall org, In org names ->
                        getitem mapping org = Ok (VDict shared)) :
  let guest :=
    Configure.guest_uuid (Configure.get_hypervisor_handler config (mode self)) in
  hypervisor_id config self mapping w
  = (match names with
     | [] => Ok (VStr "")
     | _ :: _ =>
         if dict_has (VStr guest) shared
         then rbind (getitem (VDict shared) guest)
                (fun g => getitem g "guest_hypervisor")
         else Ok (VStr "")
     end, w).
Proof.
  cbv zeta. unfold hypervisor_id.
  destruct (getitem_dict _ _ _ Horgs) as [d ->].
  assert (Ht : truthy (VDict d) = true).
  { destruct d; [discriminate Horgs | reflexivity]. }
  rewrite Ht. unfold bind at 1, lift at 1. rewrite Horgs.
  unfold bind at 1, lift at 1. cbn [iter].
  set (guest := Configure.guest_uuid
                  (Configure.get_hypervisor_handler config (mode self))).
  destruct names as [|o names]; [reflexivity|].
  destruct (dict_has (VStr guest) shared) eqn:Eh.
  - cbn [map for_each]. unfold bind at 1 2 3, lift at 1.
    change (getkey (VDict d) (VStr o)) with (getitem (VDict d) o).
    rewrite (Hall o (or_introl eq_refl)).
    unfold bind at 1, lift at 1. cbn [in_keys]. rewrite Eh.
    unfold bind at 1, lift at 1.
    unfold bind at 1, lift at 1.
    unfold rbind.
    destruct (getitem (VDict shared) guest) as [g|e]; [|reflexivity].
    unfold bind at 1, lift at 1.
    destruct (getitem g "guest_hypervisor") as [h|e]; reflexivity.
  - unfold bind at 1.
    rewrite (hypervisor_loop_none (VDict d) shared guest (o :: names) w Hall Eh).
    reflexivity.
Qed.

(** The mapping of the log with two organisations, and the guest [gB]. *)
Lemma hypervisor_id_of_shared_witness :
  let mapping := VDict [ (VStr "orgs", VList [VStr "org1"; VStr "org2"]);
                         (VStr "org1", Sample.org_data_of "hB" "gB");
                         (VStr "org2", Sample.org_data_of "hB" "gB") ] in
  let config : Configure.settings :=
    fun _ => {| Configure.guest_uuid := "gB" |} in
  getitem mapping "orgs" = Ok (VList (map VStr ["org1"; "org2"]))
  /\ fst (hypervisor_id config (init "esx" "rhsm" (Sample.host "")) mapping
            start_world) = Ok (VStr "hB").
Proof.
  cbv zeta.
  set (mapping := VDict [ (VStr "orgs", VList [VStr "org1"; VStr "org2"]);
                          (VStr "org1", Sample.org_data_of "hB" "gB");
                          (VStr "org2", Sample.org_data_of "hB" "gB") ]).
  set (shared := match Sample.org_data_of "hB" "gB" with
                 | VDict d => d
                 | _ => []
                 end).
  assert (Ho : getitem mapping "orgs" = Ok (VList (map VStr ["org1"; "org2"])))
    by reflexivity.
  assert (Hall : forall org, In org ["org1"; "org2"] ->
                             getitem mapping org = Ok (VDict shared))
    by (intros org [<-|[<-|[]]]; reflexivity).
  split; [exact Ho|].
  rewrite (hypervisor_id_of_shared (fun _ => {| Configure.guest_uuid := "gB" |})
             (init "esx" "rhsm" (Sample.host "")) mapping ["org1"; "org2"]
             shared start_world Ho Hall).
  vm_compute. reflexivity.
Defined.

(** ** Numerals between blanks *)

Lemma lstrip_blanks (pre l : list ascii) :
  Forall (fun c => is_space c = true) pre -> lstrip (pre ++ l) = lstrip l.
Proof.
  induction 1 as [|c pre Hc _ IH]; [reflexivity|].
  cbn [app lstrip]. now rewrite Hc.
Qed.

Lemma lstrip_all_blank (l : list ascii) :
  Forall (fun c => is_space c = true) l -> lstrip l = [].
Proof.
  intros H. rewrite <- (app_nil_r l). now rewrite lstrip_blanks.
Qed.

Lemma lstrip_inked (l r : list ascii) :
  Forall (fun c => is_space c = false) l -> l <> [] -> lstrip (l ++ r) = l ++ r.
Proof.
  intros H Hne. destruct l as [|c l]; [congruence|].
  inversion H; subst. cbn [app lstrip]. now rewrite H2.
Qed.

(** [strip] takes the blanks around a text without blanks away. *)
Lemma strip_chars_padded (pre body post : list ascii) :
  Forall (fun c => is_space c = true) pre ->
  Forall (fun c => is_space c = true) post ->
  Forall (fun c => is_space c = false) body ->
  strip_chars (pre ++ body ++ post) = body.
Proof.
  intros Hpre Hpost Hbody. unfold strip_chars. rewrite lstrip_blanks by exact Hpre.
  destruct body as [|c body].
  - cbn [app]. rewrite (lstrip_all_blank post Hpost). reflexivity.
  - rewrite lstrip_inked by (auto; discriminate).
    rewrite rev_app_distr, lstrip_blanks by now apply Forall_rev.
    rewrite <- (app_nil_r (rev (c :: body))).
    rewrite lstrip_inked.
    + now rewrite app_nil_r, rev_involutive.
    + now apply Forall_rev.
    + cbn. destruct (rev body); discriminate.
Qed.

Lemma digit_not_space (c : ascii) : is_digit c = true -> is_space c = false.
Proof.
  unfold is_digit, is_space. intros H.
  apply andb_prop in H. destruct H as [H1 H2].
  apply Nat.leb_le in H1, H2.
  repeat match goal with
         | |- context [(?a <=? ?b)%nat] => destruct (Nat.leb_spec a b)
         | |- context [(?a =? ?b)%nat] => destruct (Nat.eqb_spec a b)
         end; cbn; try reflexivity; lia.
Qed.

Lemma numeral_digits (n : nat) :
  Forall (fun c => is_digit c = true) (chars (of_nat n)) /\ chars (of_nat n) <> [].
Proof.
  unfold of_nat. split; [apply uint_chars_digits|].
  pose proof (to_uint_nonnil n). destruct (Nat.to_uint n); cbn; congruence.
Qed.

Lemma int_lstrip_digits (l r : list ascii) :
  Forall (fun c => is_digit c = true) l -> l <> [] ->
  int_lstrip (l ++ r) = l ++ r.
Proof.
  intros H Hne. destruct l as [|c l]; [congruence|].
  inversion H; subst. cbn [app int_lstrip].
  now rewrite digit_not_int_space.
Qed.

(** [int] reads a numeral back. *)
Lemma int_numeral (n : nat) : int (of_nat n) = Some (Z.of_nat n).
Proof.
  destruct (numeral_digits n) as [Hd Hne].
  pose proof (digits_val_uint (Nat.to_uint n) 0 false
                (or_introl (to_uint_nonnil n))) as Hv.
  change (Nat.of_uint_acc (Nat.to_uint n) 0) with (Nat.of_uint (Nat.to_uint n)) in Hv.
  rewrite Unsigned.of_to in Hv. fold (of_nat n) in Hv.
  unfold int, int_chars.
  set (l := chars (of_nat n)) in *.
  rewrite <- (app_nil_r l) at 1. rewrite int_lstrip_digits by assumption.
  rewrite app_nil_r. rewrite <- (app_nil_r (rev l)).
  rewrite int_lstrip_digits.
  - rewrite app_nil_r, rev_involutive.
    destruct l as [|c l]; [congruence|]. inversion Hd as [|? ? Hc Hl]; subst.
    assert (Eu : match c :: l with
                 | "-"%char :: l' => option_map Z.opp (unsigned_val l')
                 | "+"%char :: l' => unsigned_val l'
                 | l' => unsigned_val l'
                 end = unsigned_val (c :: l)).
    { destruct c as [[] [] [] [] [] [] [] []]; try reflexivity; discriminate Hc. }
    rewrite Eu. unfold unsigned_val. rewrite Hc. exact Hv.
  - now apply Forall_rev.
  - destruct l; [congruence|]. cbn. destruct (rev l); discriminate.
Qed.

Lemma strip_numeral (pre post : list ascii) (n : nat) :
  Forall (fun c => is_space c = true) pre ->
  Forall (fun c => is_space c = true) post ->
  strip (str pre ++ of_nat n ++ str post)%string = of_nat n.
Proof.
  intros Hpre Hpost. unfold strip.
  rewrite !chars_append, !chars_str, strip_chars_padded; auto.
  - apply str_chars.
  - destruct (numeral_digits n) as [Hd _].
    eapply Forall_impl; [|exact Hd]. apply digit_not_space.
Qed.

(** ** The thread count *)

(** [thread_number] reads back the count the remote host prints: for an
    answer that is the numeral of [n] between blanks (spaces, tabs, line
    ends), the result is [n], whatever the return code. *)
Theorem thread_number_reads_count (self : VirtwhoRunner) (w : world)
    (rc : Z) (pre post : list ascii) (n : nat)
    (Hpre : Forall (fun c => is_space c = true) pre)
    (Hpost : Forall (fun c => is_space c = true) post)
    (Hans : ssh self (trace w) Host.count_cmd
            = (rc, (str pre ++ of_nat n ++ str post)%string)) :
  fst (thread_number self w) = Ok (Z.of_nat n).
Proof.
  unfold thread_number, bind, runcmd.
  change "ps -ef | grep virt-who -i | grep -v grep |wc -l" with Host.count_cmd.
  rewrite Hans. cbn [snd fst].
  assert (Hne : String.eqb (str pre ++ of_nat n ++ str post)%string "" = false).
  { apply String.eqb_neq. intros E. apply (f_equal chars) in E.
    rewrite !chars_append, chars_str in E. cbn [chars list_ascii_of_string] in E.
    apply app_eq_nil in E. destruct E as [_ E].
    apply app_eq_nil in E. destruct E as [E _].
    destruct (numeral_digits n) as [_ Hn]. contradiction. }
  rewrite Hne. cbn [negb].
  rewrite strip_numeral by assumption.
  unfold py_int. rewrite int_numeral. reflexivity.
Qed.

(** A host with three agent processes, as [wc -l] prints the count. *)
Lemma thread_number_reads_count_witness :
  let self := init "esx" "rhsm"
                (Host.static {| Host.log_text := ""; Host.print_text := None;
                                Host.processes := 3 |}) in
  ssh self (trace start_world) Host.count_cmd
  = (0, (str [] ++ of_nat 3 ++ str [nl])%string)
  /\ fst (thread_number self start_world) = Ok 3.
Proof.
  cbv zeta.
  assert (H : ssh (init "esx" "rhsm"
                     (Host.static {| Host.log_text := ""; Host.print_text := None;
                                     Host.processes := 3 |}))
                (trace start_world) Host.count_cmd
              = (0, (str [] ++ of_nat 3 ++ str [nl])%string)) by reflexivity.
  split; [exact H|].
  apply (thread_number_reads_count _ start_world 0 [] [nl] 3);
    [constructor | repeat constructor | exact H].
Defined.

(** ** The first match of a framed pattern *)

Lemma starts_with_app (p r : list ascii) : starts_with p (p ++ r) = true.
Proof.
  induction p as [|c p IH]; [reflexivity|]. cbn. now rewrite Ascii.eqb_refl.
Qed.

Lemma starts_with_skip (p l : list ascii) :
  starts_with p l = true -> l = p ++ skipn (List.length p) l.
Proof.
  revert l. induction p as [|c p IH]; intros l H; [reflexivity|].
  destruct l as [|x l]; [discriminate|]. cbn in H.
  apply andb_prop in H. destruct H as [E H]. apply Ascii.eqb_eq in E. subst x.
  cbn [List.length skipn app]. f_equal. now apply IH.
Qed.

(** A text in front of a pattern: it must be there, and the rest of the
    pattern goes on behind it. *)
Lemma run_then_lit (l : list ascii) (r : Re.regex) :
  forall (p : Re.pos) (k : Re.pos -> option Re.pos),
    Re.run Re.no_flags (Lang.then_lit l r) p k
    = if starts_with l (Re.rest p)
      then Re.run Re.no_flags r
             (Re.at_ (rev l ++ Re.seen p) (skipn (List.length l) (Re.rest p))
                (Re.grp p)) k
      else None.
Proof.
  induction l as [|c l IH]; intros p k.
  - cbn [Lang.then_lit starts_with rev app List.length skipn].
    now rewrite pos_eta.
  - cbn [Lang.then_lit Re.run]. destruct (Re.rest p) as [|x rs] eqn:Er.
    + reflexivity.
    + cbn [Re.atom_ok Re.no_flags Re.ignorecase starts_with].
      rewrite (Ascii.eqb_sym c x).
      destruct (Ascii.eqb_spec x c) as [->|Hne]; [|reflexivity].
      cbn [andb]. rewrite IH. cbn [Re.rest Re.seen Re.grp List.length skipn rev].
      now rewrite <- app_assoc.
Qed.

(** The lazy star takes the shortest run after which the rest succeeds. *)
Lemma rep_lazy_first (fl : Re.flags) (a : Re.atom) (g : option (list ascii))
    (k : Re.pos -> option Re.pos) (r : list ascii) (q : Re.pos) :
  forall (m sn : list ascii),
    Forall (fun x => Re.atom_ok fl a x = true) m ->
    (forall m1 m2, m = m1 ++ m2 -> m2 <> [] ->
                   k (Re.at_ (rev m1 ++ sn) (m2 ++ r) g) = None) ->
    k (Re.at_ (rev m ++ sn) r g) = Some q ->
    Re.rep fl a false 0 None sn (m ++ r) g k = Some q.
Proof.
  induction m as [|x m IH]; intros sn Hm Hno Hk.
  - cbn [app rev] in *. destruct r; cbn [Re.rep]; now rewrite Hk.
  - inversion Hm as [|? ? Hx Hm']; subst.
    cbn [app Re.rep].
    pose proof (Hno [] (x :: m) eq_refl ltac:(discriminate)) as H0.
    cbn [rev app] in H0. rewrite H0.
    cbn [Re.orelse Re.hi_allows andb]. rewrite Hx. cbn [pred Re.hi_pred option_map].
    apply IH; [exact Hm' | |].
    + intros m1 m2 E Hne. specialize (Hno (x :: m1) m2).
      cbn [rev app] in Hno. rewrite <- app_assoc in Hno. cbn [app] in Hno.
      apply Hno; [now rewrite E | exact Hne].
    + cbn [rev] in Hk. now rewrite <- app_assoc in Hk.
Qed.

Lemma skipn_own (l r : list ascii) : skipn (List.length l) (l ++ r) = r.
Proof. induction l as [|c l IH]; [reflexivity | exact IH]. Qed.

Lemma firstn_own (l r : list ascii) : firstn (List.length l) (l ++ r) = l.
Proof. induction l as [|c l IH]; [reflexivity | cbn; now rewrite IH]. Qed.

Lemma has_group_then_lit (l : list ascii) (r : Re.regex) :
  Re.has_group (Lang.then_lit l r) = Re.has_group r.
Proof. induction l as [|c l IH]; [reflexivity | exact IH]. Qed.

(** A framed pattern at the place where its first text begins: the group
    takes the characters up to the first place where the second text
    follows. *)
Lemma framed_match (l1 l2 mid post sn : list ascii) :
  Forall (fun x => x <> nl) mid ->
  (forall m1 m2, mid = m1 ++ m2 -> m2 <> [] ->
                 starts_with l2 (m2 ++ l2 ++ post) = false) ->
  Re.match_at Re.no_flags (Text.framed l1 l2) false sn
    (l1 ++ mid ++ l2 ++ post)
  = Some (Re.at_ (rev l2 ++ rev mid ++ rev l1 ++ sn) post (Some mid)).
Proof.
  intros Hnl Hno. unfold Re.match_at, Text.framed.
  rewrite run_then_lit. cbn [Re.rest Re.seen Re.grp Re.at_].
  rewrite starts_with_app, skipn_own.
  cbn [Re.run Re.rest Re.seen Re.grp Re.at_].
  apply rep_lazy_first.
  - eapply Forall_impl; [|exact Hnl]. intros x Hx.
    cbn [Re.atom_ok Re.no_flags Re.dotall orb].
    destruct (Ascii.eqb_spec x nl); [contradiction | reflexivity].
  - intros m1 m2 E Hne. cbn [Re.rest Re.seen Re.grp Re.at_].
    rewrite run_then_lit. cbn [Re.rest Re.seen Re.grp Re.at_].
    now rewrite (Hno m1 m2 E Hne).
  - cbn [Re.rest Re.seen Re.grp Re.at_].
    rewrite run_then_lit. cbn [Re.rest Re.seen Re.grp Re.at_].
    rewrite starts_with_app, skipn_own. cbn [Re.run andb].
    unfold Re.passed. cbn [Re.rest Re.seen Re.grp Re.at_].
    rewrite length_app, Nat.add_sub.
    rewrite firstn_own, rev_involutive.
    reflexivity.
Qed.

Lemma scan_first (fl : Re.flags) (r : Re.regex) (rs : list ascii)
    (p : Re.pos) (n : nat) :
  forall (pre sn : list ascii),
    (forall a b, pre = a ++ b -> b <> [] ->
                 Re.match_at fl r false (rev a ++ sn) (b ++ rs) = None) ->
    Re.match_at fl r false (rev pre ++ sn) rs = Some p ->
    Re.width rs p = S n ->
    exists tl, Re.scan fl r sn (pre ++ rs) 0 = Re.item r rs p :: tl.
Proof.
  induction pre as [|x pre IH]; intros sn Hno Hm Hw.
  - cbn [rev app] in *. destruct rs as [|y rs]; cbn [Re.scan];
      rewrite Hm, Hw; eexists; reflexivity.
  - cbn [app Re.scan].
    pose proof (Hno [] (x :: pre) eq_refl ltac:(discriminate)) as H0.
    cbn [rev app] in H0. rewrite H0.
    apply IH; [| |exact Hw].
    + intros a b E Hne. specialize (Hno (x :: a) b).
      cbn [rev app] in Hno. rewrite <- app_assoc in Hno. cbn [app] in Hno.
      apply Hno; [now rewrite E | exact Hne].
    + cbn [rev] in Hm. now rewrite <- app_assoc in Hm.
Qed.

(** Before its first place a text begins nowhere. *)
Lemma find_from_first (p rest : list ascii) :
  forall (pre : list ascii) (i : nat),
    Text.find_from p (pre ++ rest) i = Some (i + List.length pre)%nat ->
    forall a b, pre = a ++ b -> b <> [] -> starts_with p (b ++ rest) = false.
Proof.
  induction pre as [|x pre IH]; intros i H a b E Hne.
  - destruct a, b; try discriminate. congruence.
  - cbn [app Text.find_from] in H.
    destruct (starts_with p (x :: pre ++ rest)) eqn:Es.
    + injection H as H. cbn in H. lia.
    + destruct a as [|y a].
      * cbn in E. subst b. exact Es.
      * injection E as -> E. apply (IH (S i)) with (a := a); [|exact E | exact Hne].
        rewrite H. f_equal. cbn. lia.
Qed.

(** The first item [findall] reports for a framed pattern. *)
Lemma framed_first (l1 l2 pre mid post : list ascii) :
  l1 <> [] ->
  Text.find_from l1 (pre ++ l1 ++ mid ++ l2 ++ post) 0
  = Some (List.length pre) ->
  Forall (fun x => x <> nl) mid ->
  (forall m1 m2, mid = m1 ++ m2 -> m2 <> [] ->
                 starts_with l2 (m2 ++ l2 ++ post) = false) ->
  exists tl,
    Re.scan Re.no_flags (Text.framed l1 l2) []
      (pre ++ l1 ++ mid ++ l2 ++ post) 0 = mid :: tl.
Proof.
  intros Hne Hfind Hnl Hno.
  pose proof (framed_match l1 l2 mid post (rev pre ++ []) Hnl Hno) as Hm.
  destruct (scan_first Re.no_flags (Text.framed l1 l2)
              (l1 ++ mid ++ l2 ++ post)
              (Re.at_ (rev l2 ++ rev mid ++ rev l1 ++ rev pre ++ []) post
                 (Some mid))
              (pred (List.length (l1 ++ mid ++ l2)))
              pre [])
    as [tl Htl].
  - intros a b E Hb. unfold Re.match_at, Text.framed.
    rewrite run_then_lit. cbn [Re.rest Re.at_].
    now rewrite (find_from_first l1 (l1 ++ mid ++ l2 ++ post) pre 0 Hfind a b E Hb).
  - exact Hm.
  - unfold Re.width. cbn [Re.rest Re.at_].
    rewrite !length_app.
    assert (0 < List.length l1)%nat by (destruct l1; [congruence | cbn; lia]).
    lia.
  - exists tl. rewrite Htl. f_equal. unfold Re.item, Text.framed.
    now rewrite has_group_then_lit.
Qed.

(** ** The interval and the reporter id in the log *)

Lemma compile_interval :
  Re.compile "Starting infinite loop with(.*?)seconds interval"
  = Some (Text.framed (chars "Starting infinite loop with")
            (chars "seconds interval")).
Proof. vm_compute. reflexivity. Qed.

Lemma compile_reporter :
  Re.compile "reporter_id='(.*?)'"
  = Some (Text.framed (chars "reporter_id='") (chars "'")).
Proof. vm_compute. reflexivity. Qed.

(** [interval_time] reads the number virt-who logs.  When the first
    [Starting infinite loop with] of the text is followed by a blank, the
    numeral of [n], a blank and [seconds interval], the result is [n]. *)
Theorem interval_time_reads_number (self : VirtwhoRunner) (pre post : string)
    (n : nat) (w : world)
    (Hfirst : Text.find "Starting infinite loop with"
                (pre ++ "Starting infinite loop with " ++ of_nat n
                 ++ " seconds interval" ++ post)%string
              = Some (String.length pre)) :
  interval_time self
    (pre ++ "Starting infinite loop with " ++ of_nat n
     ++ " seconds interval" ++ post)%string w
  = (Ok (Some (Z.of_nat n)), w).
Proof.
  set (l1 := chars "Starting infinite loop with").
  set (l2 := chars "seconds interval").
  set (mid := (" "%char :: chars (of_nat n)) ++ [" "%char]).
  assert (E : chars (pre ++ "Starting infinite loop with " ++ of_nat n
                     ++ " seconds interval" ++ post)%string
              = chars pre ++ l1 ++ mid ++ l2 ++ chars post).
  { rewrite chars_append.
    change ("Starting infinite loop with " ++ of_nat n
            ++ " seconds interval" ++ post)%string
      with ("Starting infinite loop with"
            ++ (" " ++ of_nat n ++ " seconds interval" ++ post))%string.
    rewrite !chars_append. subst l1 l2 mid.
    change (chars " seconds interval") with (" "%char :: chars "seconds interval").
    change (chars " ") with [" "%char].
    rewrite <- !app_assoc. reflexivity. }
  unfold Text.find in Hfirst. rewrite E in Hfirst.
  assert (Hlen : String.length pre = List.length (chars pre)).
  { clear. induction pre as [|c pre IH]; [reflexivity | cbn; now rewrite IH]. }
  rewrite Hlen in Hfirst.
  destruct (numeral_digits n) as [Hd _].
  destruct (framed_first l1 l2 (chars pre) mid (chars post)) as [tl Htl].
  - discriminate.
  - exact Hfirst.
  - subst mid. apply Forall_app. split; [constructor; [discriminate|]|
                                          constructor; [discriminate | constructor]].
    eapply Forall_impl; [|exact Hd]. intros c Hc ->. discriminate Hc.
  - intros m1 m2 Em Hne. destruct m2 as [|c m2]; [congruence|].
    assert (Hin : In c mid). { rewrite Em. apply in_or_app. right. now left. }
    assert (Hc : c <> "s"%char).
    { subst mid. apply in_app_or in Hin. destruct Hin as [[<-|Hin]|[<-|[]]];
        try discriminate.
      rewrite Forall_forall in Hd. intros ->. specialize (Hd _ Hin).
      discriminate Hd. }
    subst l2.
    change (chars "seconds interval") with ("s"%char :: chars "econds interval").
    cbn [app starts_with].
    apply andb_false_intro1, Ascii.eqb_neq. congruence.
  - unfold interval_time, re_findall, Re.findall.
    rewrite compile_interval. fold l1 l2. rewrite E, Htl.
    cbn [map]. unfold bind at 1, ret at 1.
    assert (Es : strip (str mid) = of_nat n).
    { subst mid.
      change (str ((" "%char :: chars (of_nat n)) ++ [" "%char]))
        with (str ((" "%char :: chars (of_nat n)) ++ [" "%char])).
      replace (str ((" "%char :: chars (of_nat n)) ++ [" "%char]))
        with (str [" "%char] ++ of_nat n ++ str [" "%char])%string.
      - apply strip_numeral; repeat constructor.
      - rewrite <- (str_chars (str [" "%char] ++ of_nat n ++ str [" "%char])).
        now rewrite !chars_append, !chars_str. }
    rewrite Es. unfold py_int, bind. rewrite int_numeral. reflexivity.
Qed.

(** A log whose second line has the interval. *)
Lemma interval_time_reads_number_witness :
  let pre := ("2022-03-01 10:00:00,100 [virtwho.main DEBUG] Started" ++ NL
              ++ "2022-03-01 10:00:01,100 [virtwho.main DEBUG] ")%string in
  Text.find "Starting infinite loop with"
    (pre ++ "Starting infinite loop with " ++ of_nat 3600
     ++ " seconds interval" ++ NL)%string
  = Some (String.length pre)
  /\ interval_time (init "esx" "rhsm" (Sample.host ""))
       (pre ++ "Starting infinite loop with " ++ of_nat 3600
        ++ " seconds interval" ++ NL)%string start_world
     = (Ok (Some 3600), start_world).
Proof.
  cbv zeta.
  assert (H : Text.find "Starting infinite loop with"
                (("2022-03-01 10:00:00,100 [virtwho.main DEBUG] Started" ++ NL
                  ++ "2022-03-01 10:00:01,100 [virtwho.main DEBUG] ")
                 ++ "Starting infinite loop with " ++ of_nat 3600
                 ++ " seconds interval" ++ NL)%string
              = Some (String.length
                        ("2022-03-01 10:00:00,100 [virtwho.main DEBUG] Started"
                         ++ NL
                         ++ "2022-03-01 10:00:01,100 [virtwho.main DEBUG] ")%string))
    by (vm_compute; reflexivity).
  split; [exact H|].
  exact (interval_time_reads_number _ _ _ 3600%nat start_world H).
Defined.

Lemma length_chars (s : string) : String.length s = List.length (chars s).
Proof. induction s as [|c s IH]; [reflexivity | cbn; now rewrite IH]. Qed.

(** [reporter_id] reads the id virt-who logs.  When the first
    [reporter_id='] of the text is followed by an id without quote and
    line end and by a quote, the result is the id without the blanks
    around it. *)
Theorem reporter_id_reads_id (self : VirtwhoRunner) (pre id post : string)
    (w : world)
    (Hfirst : Text.find "reporter_id='"
                (pre ++ "reporter_id='" ++ id ++ "'" ++ post)%string
              = Some (String.length pre))
    (Hid : Forall (fun c => c <> nl /\ c <> "'"%char) (chars id)) :
  reporter_id self (pre ++ "reporter_id='" ++ id ++ "'" ++ post)%string w
  = (Ok (Some (strip id)), w).
Proof.
  set (l1 := chars "reporter_id='").
  set (l2 := chars "'").
  assert (E : chars (pre ++ "reporter_id='" ++ id ++ "'" ++ post)%string
              = chars pre ++ l1 ++ chars id ++ l2 ++ chars post).
  { now rewrite !chars_append. }
  unfold Text.find in Hfirst. rewrite E, length_chars in Hfirst.
  destruct (framed_first l1 l2 (chars pre) (chars id) (chars post))
    as [tl Htl].
  - discriminate.
  - exact Hfirst.
  - eapply Forall_impl; [|exact Hid]. intros c [Hc _]. exact Hc.
  - intros m1 m2 Em Hne. destruct m2 as [|c m2]; [congruence|].
    assert (Hin : In c (chars id)).
    { rewrite Em. apply in_or_app. right. now left. }
    rewrite Forall_forall in Hid. destruct (Hid c Hin) as [_ Hq].
    subst l2. change (chars "'") with ["'"%char]. cbn [app starts_with].
    apply andb_false_intro1, Ascii.eqb_neq. congruence.
  - unfold reporter_id, re_findall, Re.findall.
    rewrite compile_reporter. fold l1 l2. rewrite E, Htl.
    cbn [map]. unfold bind, ret. now rewrite str_chars.
Qed.

(** A log line with the reporter id. *)
Lemma reporter_id_reads_id_witness :
  let pre := "2022-03-01 10:00:00,100 [virtwho.main DEBUG] Using " in
  let id := "host-1.example.com-6f5a" in
  Text.find "reporter_id='" (pre ++ "reporter_id='" ++ id ++ "'" ++ NL)%string
  = Some (String.length pre)
  /\ Forall (fun c => c <> nl /\ c <> "'"%char) (chars id)
  /\ reporter_id (init "esx" "rhsm" (Sample.host ""))
       (pre ++ "reporter_id='" ++ id ++ "'" ++ NL)%string start_world
     = (Ok (Some id), start_world).
Proof.
  cbv zeta.
  assert (H : Text.find "reporter_id='"
                ("2022-03-01 10:00:00,100 [virtwho.main DEBUG] Using "
                 ++ "reporter_id='" ++ "host-1.example.com-6f5a" ++ "'" ++ NL)%string
              = Some (String.length
                        "2022-03-01 10:00:00,100 [virtwho.main DEBUG] Using "))
    by (vm_compute; reflexivity).
  assert (Hid : Forall (fun c => c <> nl /\ c <> "'"%char)
                  (chars "host-1.example.com-6f5a"))
    by (repeat constructor; discriminate).
  split; [exact H|]. split; [exact Hid|].
  exact (reporter_id_reads_id _ _ _ _ start_world H Hid).
Defined.

(** ** The configuration file of a mode *)

Ltac by_mode m :=
  destruct (String.eqb_spec m "local") as [->|?];
  [|destruct (String.eqb_spec m "kubevirt") as [->|?];
    [|destruct (String.eqb_spec m "esx") as [->|?];
      [|destruct (String.eqb_spec m "xen") as [->|?];
        [|destruct (String.eqb_spec m "hyperv") as [->|?];
          [|destruct (String.eqb_spec m "rhevm") as [->|?];
            [|destruct (String.eqb_spec m "libvirt") as [->|?];
              [|destruct (String.eqb_spec m "ahv") as [->|?]]]]]]]].

(** What [create] writes.  For every mode and every store, all calls go
    to the section [virtwho-<mode>]; no option is written twice; the last
    six options are those of the registration; [hypervisor_id] is written
    in every mode but local, [kubeconfig] in the mode kubevirt only, and
    [server], [username] and [password] in the modes esx, xen, hyperv,
    rhevm, libvirt and ahv only. *)
Theorem create_options (hostname_get : value -> value -> value -> string)
    (cfg : ConfigFile.ini) (mode register_type : string) :
  let self := ConfigFile.init mode register_type in
  let calls := fst (ConfigFile.create hostname_get cfg self) in
  let names := map ConfigFile.option_name calls in
  Forall (fun c => ConfigFile.in_section c = ("virtwho-" ++ mode)%string) calls
  /\ NoDup names
  /\ (exists front, names = front ++ ConfigFile.registration_options)
  /\ (In "hypervisor_id" names <-> mode <> "local")
  /\ (In "kubeconfig" names <-> mode = "kubevirt")
  /\ (forall o, In o ["server"; "username"; "password"] ->
                (In o names <-> In mode ConfigFile.remote_modes)).
Proof.
  cbv zeta. unfold ConfigFile.create, ConfigFile.init, ConfigFile.update.
  cbn [ConfigFile.mode ConfigFile.section ConfigFile.register
       ConfigFile.hypervisor].
  cbn [existsb].
  by_mode mode; cbn [existsb orb String.eqb Ascii.eqb Bool.eqb app fst map
                       ConfigFile.option_name ConfigFile.in_section];
    (split;
     [apply Forall_forall; cbn [In]; intros c Hc;
      repeat destruct Hc as [Hc|Hc]; try contradiction; subst c; reflexivity|]);
    (split; [repeat (apply NoDup_cons; [cbn [In]; intuition discriminate|]);
             apply NoDup_nil|]);
    (split;
     [unfold ConfigFile.registration_options;
      first [ exists ["type"]; reflexivity
            | exists ["type"; "hypervisor_id"]; reflexivity
            | exists ["type"; "hypervisor_id"; "kubeconfig"]; reflexivity
            | exists ["type"; "hypervisor_id"; "server"; "username"; "password"];
              reflexivity ]|]);
    unfold ConfigFile.remote_modes; cbn [In];
    repeat split; intros; intuition (try discriminate; try congruence).
Qed.

(** What [create] does to the store of settings.  It changes the store in
    the mode rhevm only, and there only the server of the section rhevm,
    which becomes the address it wrote: [https://], the name of the
    host, a colon, a line end and 45 blanks, and [443/ovirt-engine].
    The address has a line end in it; and a second [create] asks for the
    host name of that address, not of the server the settings had. *)
Theorem create_store (hostname_get : value -> value -> value -> string)
    (cfg : ConfigFile.ini) (mode register_type : string) :
  let self := ConfigFile.init mode register_type in
  let url := ConfigFile.rhevm_server hostname_get cfg self in
  let rhevm := ConfigFile.init "rhevm" register_type in
  let url1 := ConfigFile.rhevm_server hostname_get cfg rhevm in
  snd (ConfigFile.create hostname_get cfg self)
  = (if String.eqb mode "rhevm"
     then ConfigFile.setattr cfg "rhevm" "server" (VStr url)
     else cfg)
  /\ In nl (chars url)
  /\ In (ConfigFile.update rhevm "server" (VStr url1))
       (fst (ConfigFile.create hostname_get cfg rhevm))
  /\ In (ConfigFile.update rhevm "server"
           (VStr ("https://"
                  ++ hostname_get (VStr url1) (cfg "rhevm" "ssh_username")
                       (cfg "rhevm" "ssh_password")
                  ++ ":" ++ NL ++ ConfigFile.spaces 45 ++ "443/ovirt-engine")))
       (fst (ConfigFile.create hostname_get
               (snd (ConfigFile.create hostname_get cfg rhevm)) rhevm)).
Proof.
  cbv zeta. split; [|split; [|split]].
  - unfold ConfigFile.create, ConfigFile.init.
    cbn [ConfigFile.mode ConfigFile.section ConfigFile.register
         ConfigFile.hypervisor existsb].
    unfold ConfigFile.get_hypervisor_handler. cbn [existsb].
    by_mode mode; reflexivity.
  - unfold ConfigFile.rhevm_server. rewrite !chars_append.
    apply in_or_app. right. apply in_or_app. right.
    apply in_or_app. right. apply in_or_app. left. now left.
  - cbn. auto 10.
  - cbn. right. right. left. reflexivity.
Qed.

(** ** The entries of the mappings *)

Lemma dict_set_values (Q : value -> Prop) (k v : value) (d : dict) :
  Entry.values_are Q d -> Q v -> Entry.values_are Q (dict_set k v d).
Proof.
  unfold Entry.values_are. intros Hd Hv.
  induction Hd as [|[k' x] d Hx Hd IH]; cbn [dict_set].
  - repeat constructor. exact Hv.
  - destruct (key_eqb k k'); constructor; auto.
Qed.

Lemma setitem_values (Q : value -> Prop) (k v : value) (d d' : dict) :
  Entry.values_are Q d -> Q v -> setitem k v d = Ok d' ->
  Entry.values_are Q d'.
Proof.
  unfold setitem. intros Hd Hv. destruct (hashable k); [|discriminate].
  intros E. injection E as <-. now apply dict_set_values.
Qed.

(** A loop whose rounds keep a property of the state keeps it. *)
Lemma for_each_keeps {A S} (P : S -> Prop) (body : A -> S -> M (ctl S Empty_set))
    (l : list A) :
  (forall x s w c w', P s -> body x s w = (Ok c, w') ->
                      match c with
                      | Next s' | Break s' => P s'
                      | Return r => match r with end
                      end) ->
  forall s w r w', P s -> for_each l s body w = (Ok r, w') -> P (no_return r).
Proof.
  intros Hb. induction l as [|x l IH]; intros s w r w' Hs; cbn [for_each].
  - unfold ret. intros E. injection E as <- _. exact Hs.
  - unfold bind at 1. destruct (body x s w) as [[c|e] w1] eqn:E; [|discriminate].
    pose proof (Hb x s w c w1 Hs E) as Hc.
    destruct c as [s'|s'|[]].
    + apply IH. exact Hc.
    + unfold ret. intros E'. injection E' as <- _. exact Hc.
Qed.

Ltac bind_inv H :=
  repeat match type of H with
         | bind ?c ?f ?w = (Ok _, _) =>
             let a := fresh "a" in
             let w1 := fresh "w" in
             let E := fresh "E" in
             unfold bind at 1 in H;
             destruct (c w) as [[a|?] w1] eqn:E; [|discriminate H]
         end.

(** The local mappings keep state, active and type of every guest.  When
    [mappings_local] returns, its result is a dictionary each of whose
    values is a dictionary with exactly the keys [state], [active] and
    [type], in this order; the remote host is not asked. *)
Theorem mappings_local_entries (self : VirtwhoRunner) (rhsm_log : string)
    (w : world) (v : value)
    (Hret : fst (mappings_local self rhsm_log w) = Ok v) :
  (exists data, v = VDict data /\ Entry.values_are Entry.local_guest data)
  /\ trace (snd (mappings_local self rhsm_log w)) = trace w.
Proof.
  split; [|apply quiet_trace, quiet_mappings_local].
  unfold mappings_local in Hret.
  match type of Hret with
  | fst (?c w) = _ => destruct (c w) as [r w'] eqn:E
  end.
  cbn [fst] in Hret. subst r.
  bind_inv E.
  destruct (Json.loads (remove_char nl a0)) as [info|].
  - bind_inv E. unfold ret in E. injection E as <- _.
    eexists. split; [reflexivity|].
    match goal with
    | Hf : for_each _ _ _ _ = (Ok _, _) |- _ =>
        eapply (for_each_keeps (Entry.values_are Entry.local_guest));
          [| |exact Hf]
    end.
    + intros item data wa c wb Hd Hb. cbv beta in Hb. bind_inv Hb.
      unfold ret in Hb. injection Hb as <- _.
      match goal with
      | Hs : lift (setitem _ _ _) _ = (Ok _, _) |- _ =>
          unfold lift in Hs; injection Hs as Hs _;
          eapply setitem_values; [exact Hd | | exact Hs]
      end.
      do 3 eexists. reflexivity.
    + constructor.
  - bind_inv E. unfold ret in E. injection E as <- _.
    exists []. split; [reflexivity | constructor].
Qed.

(** The local log with one guest. *)
Lemma mappings_local_entries_witness :
  fst (mappings_local (init "local" "rhsm" (Sample.host ""))
         Sample.local_log start_world)
  = Ok (VDict [ (VStr "g1", VDict [ (VStr "state", VInt 1);
                                    (VStr "active", VInt 1);
                                    (VStr "type", VStr "libvirt") ]) ])
  /\ exists data,
       VDict [ (VStr "g1", VDict [ (VStr "state", VInt 1);
                                   (VStr "active", VInt 1);
                                   (VStr "type", VStr "libvirt") ]) ]
       = VDict data
       /\ Entry.values_are Entry.local_guest data.
Proof.
  assert (H : fst (mappings_local (init "local" "rhsm" (Sample.host ""))
                     Sample.local_log start_world)
              = Ok (VDict [ (VStr "g1", VDict [ (VStr "state", VInt 1);
                                                (VStr "active", VInt 1);
                                                (VStr "type", VStr "libvirt") ]) ]))
    by (vm_compute; reflexivity).
  split; [exact H|].
  exact (proj1 (mappings_local_entries _ _ _ _ H)).
Defined.

Lemma dict_set_all {V} (Q : V -> Prop) (k : value) (v : V) (d : dict_of V) :
  Forall (fun kv => Q (snd kv)) d -> Q v ->
  Forall (fun kv => Q (snd kv)) (dict_set k v d).
Proof.
  intros Hd Hv. induction Hd as [|[k' x] d Hx Hd IH]; cbn [dict_set].
  - repeat constructor. exact Hv.
  - destruct (key_eqb k k'); constructor; auto.
Qed.

(** A loop whose rounds keep a property of the state, and return only
    what has another. *)
Lemma for_each_inv {A S R} (P : S -> Prop) (Q : R -> Prop)
    (body : A -> S -> M (ctl S R)) (l : list A) :
  (forall x s w c w', P s -> body x s w = (Ok c, w') ->
                      match c with
                      | Next s' | Break s' => P s'
                      | Return r => Q r
                      end) ->
  forall s w r w', P s -> for_each l s body w = (Ok r, w') ->
                   match r with inl s' => P s' | inr x => Q x end.
Proof.
  intros Hb. induction l as [|x l IH]; intros s w r w' Hs; cbn [for_each].
  - unfold ret. intros E. injection E as <- _. exact Hs.
  - unfold bind at 1. destruct (body x s w) as [[c|e] w1] eqn:E; [|discriminate].
    pose proof (Hb x s w c w1 Hs E) as Hc.
    destruct c as [s'|s'|x'].
    + apply IH. exact Hc.
    + unfold ret. intros E'. injection E' as <- _. exact Hc.
    + unfold ret. intros E'. injection E' as <- _. exact Hc.
Qed.

Lemma guest_entry_keeps (hypervisorId guest : value) (st : list value * dict)
    (w w' : world) (c : ctl (list value * dict) Empty_set) :
  Entry.values_are Entry.remote_entry (snd st) ->
  guest_entry hypervisorId guest st w = (Ok c, w') ->
  match c with
  | Next s' | Break s' => Entry.values_are Entry.remote_entry (snd s')
  | Return r => match r with end
  end.
Proof.
  destruct st as [guests od]. cbn [snd]. intros Hd H.
  unfold guest_entry in H. bind_inv H. unfold ret in H. injection H as <- _.
  cbn [snd].
  match goal with
  | Hs : lift (setitem _ _ _) _ = (Ok _, _) |- _ =>
      unfold lift in Hs; injection Hs as Hs _;
      eapply setitem_values; [exact Hd | | exact Hs]
  end.
  right. left. do 4 eexists. reflexivity.
Qed.

Lemma hypervisor_entry_keeps (item : value) (od : dict) (w w' : world)
    (c : ctl dict Empty_set) :
  Entry.values_are Entry.remote_entry od ->
  hypervisor_entry item od w = (Ok c, w') ->
  match c with
  | Next s' | Break s' => Entry.values_are Entry.remote_entry s'
  | Return r => match r with end
  end.
Proof.
  intros Hd H. unfold hypervisor_entry in H. bind_inv H.
  match goal with
  | Hf : for_each ?l0 ?s0 (guest_entry ?h0) ?x0 = (Ok ?r0, ?y0) |- _ =>
      pose proof (for_each_keeps
                    (fun st => Entry.values_are Entry.remote_entry (snd st))
                    (guest_entry h0) l0
                    (fun g st wa ca wb Hs Hb =>
                       guest_entry_keeps h0 g st wa wb ca Hs Hb)
                    s0 x0 r0 y0 Hd Hf) as Hg;
      destruct r0 as [[guests od']|[]]
  end.
  cbn [no_return] in H. bind_inv H. unfold ret in H. injection H as <- _.
  match goal with
  | Hs : lift (setitem _ _ _) _ = (Ok _, _) |- _ =>
      unfold lift in Hs; injection Hs as Hs _;
      eapply setitem_values; [exact Hg | | exact Hs]
  end.
  right. right. do 7 eexists. reflexivity.
Qed.

Lemma org_entry_keeps (rhsm_log org : string) (st : dict_of slot * dict)
    (w w' : world) (c : ctl (dict_of slot * dict) value) :
  Forall (fun kv => Entry.remote_slot (snd kv)) (fst st)
  /\ Entry.values_are Entry.remote_entry (snd st) ->
  org_entry rhsm_log org st w = (Ok c, w') ->
  match c with
  | Next s' | Break s' =>
      Forall (fun kv => Entry.remote_slot (snd kv)) (fst s')
      /\ Entry.values_are Entry.remote_entry (snd s')
  | Return r => exists d, r = VDict d
                          /\ Entry.values_are Entry.remote_value d
  end.
Proof.
  destruct st as [data od]. cbn [fst snd]. intros [Hs Hd] H.
  unfold org_entry in H. bind_inv H.
  destruct (Json.loads _) as [info|].
  - bind_inv H.
    match goal with
    | Hf : for_each ?l0 ?s0 hypervisor_entry ?x0 = (Ok ?r0, ?y0) |- _ =>
        assert (Hg : Entry.values_are Entry.remote_entry (no_return r0));
          [ apply (for_each_keeps (Entry.values_are Entry.remote_entry)
                     hypervisor_entry l0
                     (fun it o wa ca wb Ho Hb =>
                        hypervisor_entry_keeps it o wa wb ca Ho Hb)
                     s0 x0 r0 y0);
              [ apply dict_set_values; [exact Hd | left; eexists; reflexivity]
              | exact Hf ]
          | ]
    end.
    unfold ret in H. injection H as <- _. cbn [fst snd]. split; [|exact Hg].
    apply dict_set_all; [exact Hs | exact Logic.I].
  - bind_inv H. unfold ret in H. injection H as <- _.
    eexists. split; [reflexivity|].
    unfold Entry.values_are. rewrite Forall_map.
    eapply Forall_impl; [|exact Hs].
    intros [k [v|]] Hk; cbn [fst snd] in *.
    + left. exact Hk.
    + right. eexists. split; [reflexivity | exact Hd].
Qed.

(** The remote mappings keep lists and remote entries only.  When
    [mappings_remote] returns, its result is a dictionary whose values
    are the list of organisations or a dictionary in which every value
    is the number of hypervisors, a guest with hypervisor, state, active
    and type, or a hypervisor with name, type, version, socket, dmi,
    cluster and the list of its guests. *)
Theorem mappings_remote_entries (self : VirtwhoRunner) (rhsm_log : string)
    (w : world) (v : value)
    (Hret : fst (mappings_remote self rhsm_log w) = Ok v) :
  exists data, v = VDict data /\ Entry.values_are Entry.remote_value data.
Proof.
  unfold mappings_remote in Hret.
  match type of Hret with
  | fst (?c w) = _ => destruct (c w) as [r w'] eqn:E
  end.
  cbn [fst] in Hret. subst r. bind_inv E.
  destruct a as [|o orgs].
  - unfold ret in E. injection E as <- _. exists []. split; [reflexivity|].
    constructor.
  - bind_inv E.
    match goal with
    | Hf : for_each ?l0 ?s0 (org_entry ?t0) ?x0 = (Ok ?r0, ?y0) |- _ =>
        pose proof (for_each_inv
                      (fun st =>
                         Forall (fun kv => Entry.remote_slot (snd kv)) (fst st)
                         /\ Entry.values_are Entry.remote_entry (snd st))
                      (fun r => exists d, r = VDict d
                                          /\ Entry.values_are Entry.remote_value d)
                      (org_entry t0) l0
                      (fun g st wa ca wb Hs Hb =>
                         org_entry_keeps t0 g st wa wb ca Hs Hb)
                      s0 x0 r0 y0) as Hg
    end.
    cbn [fst snd] in Hg.
    assert (H0 : Forall (fun kv => Entry.remote_slot (snd kv))
                   (dict_set (VStr "orgs")
                      (Own (VList (map VStr (o :: orgs)))) [])
                 /\ Entry.values_are Entry.remote_entry []).
    { split; [|constructor]. repeat constructor. cbn. eexists. reflexivity. }
    specialize (Hg H0).
    match goal with
    | Hf : for_each _ _ _ _ = (Ok _, _) |- _ => specialize (Hg Hf)
    end.
    destruct a as [[data od]|r]; unfold ret in E; injection E as <- _.
    + cbn [fst snd] in Hg. destruct Hg as [Hs Hd].
      eexists. split; [reflexivity|].
      unfold Entry.values_are. rewrite Forall_map.
      eapply Forall_impl; [|exact Hs].
      intros [k [x|]] Hk; cbn [fst snd] in *.
      * left. exact Hk.
      * right. eexists. split; [reflexivity | exact Hd].
    + exact Hg.
Qed.

(** The log with two organisations. *)
Lemma mappings_remote_entries_witness :
  let v := VDict [ (VStr "orgs", VList [VStr "org1"; VStr "org2"]);
                   (VStr "org1", Sample.org_data_of "hB" "gB");
                   (VStr "org2", Sample.org_data_of "hB" "gB") ] in
  fst (mappings_remote (init "esx" "rhsm" (Sample.host ""))
         Sample.two_orgs_log start_world) = Ok v
  /\ exists data, v = VDict data /\ Entry.values_are Entry.remote_value data.
Proof.
  cbv zeta.
  assert (H : fst (mappings_remote (init "esx" "rhsm" (Sample.host ""))
                     Sample.two_orgs_log start_world)
              = Ok (VDict [ (VStr "orgs", VList [VStr "org1"; VStr "org2"]);
                            (VStr "org1", Sample.org_data_of "hB" "gB");
                            (VStr "org2", Sample.org_data_of "hB" "gB") ]))
    by (vm_compute; reflexivity).
  split; [exact H|].
  exact (mappings_remote_entries _ _ _ _ H).
Defined.

(** ** A stop that fails *)

(** A run whose stop fails ends at once.  When the process listing after
    the kill is not blank, [run_start] raises the stop failure from its
    first attempt.  All it has done by then is the stop: the service
    stopped, 10 seconds slept, the processes killed, the pid file
    /var/run/virt-who.pid removed, the processes listed.  It does not
    remove the logs or the print file, launches nothing, does not back off
    and does not try again. *)
Theorem run_start_stop_failure (config : Configure.settings)
    (self : VirtwhoRunner) (cli : option string) (wait : option Z)
    (w : world)
    (Hbusy : String.eqb
               (strip (snd (ssh self (trace w ++ stop_events) survivors_cmd)))
               "" = false) :
  run_start config self cli wait w
  = (Raise (FailException "Failed to stop and clean virt-who process"),
     Spec.traced w (stop_events ++ [Cmd survivors_cmd])).
Proof.
  unfold run_start, range. cbn [seq for_each].
  unfold bind at 1 2, attempt at 1. unfold bind at 1, thread_start at 1.
  unfold bind at 1. pose proof (stop_spec self w) as Hs. cbv zeta in Hs.
  rewrite Hbusy in Hs. rewrite Hs. reflexivity.
Qed.

(** A host on which the agent survives the kill. *)
Lemma run_start_stop_failure_witness :
  let self := init "esx" "rhsm" Hosts.busy in
  String.eqb (strip (snd (ssh self (trace start_world ++ stop_events)
                            survivors_cmd))) "" = false
  /\ run_start Sample.config self None None start_world
     = (Raise (FailException "Failed to stop and clean virt-who process"),
        Spec.traced start_world (stop_events ++ [Cmd survivors_cmd])).
Proof.
  cbv zeta.
  assert (H : String.eqb
                (strip (snd (ssh (init "esx" "rhsm" Hosts.busy)
                               (trace start_world ++ stop_events)
                               survivors_cmd))) "" = false)
    by (vm_compute; reflexivity).
  split; [exact H|].
  exact (run_start_stop_failure Sample.config _ None None start_world H).
Defined.

(** ** The count of error and warning lines *)

(** [error_warning] counts nothing exactly when [grep] prints nothing.
    Whatever the remote host, the text returned is the output of the
    command as it is, the count is 0 when that output is empty and the
    number of its lines (at least 1) otherwise, and the return code is
    not looked at. *)
Theorem error_warning_zero_iff (self : VirtwhoRunner) (t : Spec.tag)
    (w : world) :
  let msg := Spec.tag_arg t in
  let cmd := ("grep '\[.*" ++ upper msg ++ ".*\]' " ++ rhsm_log_file self
              ++ " |sort")%string in
  let output := snd (ssh self (trace w) cmd) in
  exists n,
    error_warning self msg w
    = (Ok (n, output), Spec.traced w [Cmd cmd])
    /\ (n = 0 <-> output = "")
    /\ (output <> "" ->
        n = Z.of_nat (List.length (split nl (strip output))) /\ 1 <= n).
Proof.
  cbv zeta. unfold error_warning, bind, runcmd, Spec.traced.
  destruct (ssh self (trace w) _) as [rc output]. cbn [snd fst].
  destruct (String.eqb_spec output "") as [->|Hne]; cbn [negb].
  - exists 0. split; [reflexivity|]. split; [tauto | congruence].
  - eexists. split; [reflexivity|].
    assert (H1 : 1 <= count (split nl (strip output))).
    { unfold count, split. rewrite length_map.
      pose proof (split_chars_nonempty nl (chars (strip output))) as Hn.
      destruct (split_chars nl (chars (strip output))); [congruence | cbn; lia]. }
    split; [split; [lia | congruence]|].
    intros _. split; [reflexivity | exact H1].
Qed.

(** ** The print file of a run *)

Lemma file_app agent old (tr evs : list event) :
  PrintFile.file agent old (tr ++ evs)
  = fold_left (PrintFile.step agent) evs (PrintFile.file agent old tr).
Proof. unfold PrintFile.file. apply fold_left_app. Qed.

Lemma file_kept agent (evs : list event) (f : option string) :
  Forall (fun e => PrintFile.keeps e = true) evs ->
  fold_left (PrintFile.step agent) evs f = f.
Proof.
  induction 1 as [|e evs He _ IH]; [reflexivity|]. cbn [fold_left].
  rewrite <- IH at 2. f_equal.
  destruct e as [secs|c|c]; cbn [PrintFile.keeps PrintFile.step] in *;
    [reflexivity | | discriminate].
  destruct (String.eqb c _); [discriminate | reflexivity].
Qed.

Lemma emits_kept {A} agent old (c : M A) (w w' : world) (r : res A) :
  emits (fun e => PrintFile.keeps e = true) c ->
  c w = (r, w') ->
  PrintFile.file agent old (trace w') = PrintFile.file agent old (trace w).
Proof.
  intros Hc E. destruct (Hc w) as (evs & Ht & Hk). rewrite E in Ht.
  cbn [snd] in Ht. rewrite Ht, file_app. now apply file_kept.
Qed.

Lemma query_keeps (e : event) :
  query_prefix e = true -> PrintFile.keeps e = true.
Proof.
  destruct e as [secs|c|c]; cbn [query_prefix PrintFile.keeps];
    [discriminate | | discriminate].
  intros H. destruct (String.eqb_spec c ("rm -rf " ++ PrintFile.path)%string)
    as [->|_]; [discriminate H | reflexivity].
Qed.

Lemma kept_analyzer config self rhsm_log :
  emits (fun e => PrintFile.keeps e = true) (analyzer config self rhsm_log).
Proof.
  apply (emits_weaken (fun e => query_prefix e = true));
    [exact query_keeps | apply emits_analyzer_queries].
Qed.

Lemma kept_rhsm_log_get mode rt conn (wait : option Z) :
  emits (fun e => PrintFile.keeps e = true)
    (rhsm_log_get (init mode rt conn) wait).
Proof.
  unfold rhsm_log_get, poll_round, thread_number. repeat emits_step.
Qed.

Lemma start_given self (cmd : string) :
  String.eqb cmd "" = false -> start self (Some cmd) = cmd.
Proof. intros H. unfold start. now rewrite H. Qed.

(** After [thread_start] the print file is what the launch made of it. *)
Lemma thread_start_file mode rt agent old base (cmd : string)
    (wait : option Z) (w w1 : world) (text : string) :
  String.eqb cmd "" = false ->
  thread_start (init mode rt (PrintFile.host agent old base)) (Some cmd) wait w
  = (Ok text, w1) ->
  PrintFile.file agent old (trace w1)
  = if PrintFile.redirects cmd then Some (agent cmd) else None.
Proof.
  intros Hne E. unfold thread_start in E. bind_inv E.
  unfold ret in E. injection E as _ <-.
  match goal with
  | H : rhsm_log_get _ _ _ = _ |- _ =>
      rewrite (emits_kept agent old _ _ _ _ (kept_rhsm_log_get _ _ _ _) H)
  end.
  match goal with
  | H : spawn _ _ = _ |- _ =>
      unfold spawn, emit in H; injection H as _ <-
  end.
  match goal with
  | H : log_clean _ _ = _ |- _ =>
      unfold log_clean, bind, runcmd, ret in H; injection H as _ <-
  end.
  cbn [trace fst snd print_json_file init].
  rewrite Hne. cbn [negb].
  rewrite !file_app. cbn [fold_left PrintFile.step].
  change (String.eqb "rm -rf /var/log/rhsm/*" ("rm -rf " ++ PrintFile.path))
    with false.
  change (String.eqb "rm -rf /root/print.json" ("rm -rf " ++ PrintFile.path))
    with true.
  cbv iota. reflexivity.
Qed.

(** One step of a computation that leaves the print file alone. *)
Ltac kept_step H F :=
  match type of H with
  | fst (bind ?c _ ?u) = Ok _ =>
      let a := fresh "a" in
      let u' := fresh "u" in
      let E := fresh "E" in
      apply bind_ok in H; destruct H as (a & u' & E & H);
      match type of F with
      | PrintFile.file ?agent ?old _ = _ =>
          let K := fresh "K" in
          assert (K : emits (fun e => PrintFile.keeps e = true) c)
            by (unfold thread_number, loop_info, loop_number, first_time,
                  seconds; repeat emits_step);
          rewrite <- (emits_kept agent old c u u' _ K E) in F;
          clear K E
      end;
      try match type of H with
          | fst ((let (_, _) := ?p in _) _) = Ok _ => destruct p
          end
  end.

(** The print file [analyzer] shows is the one it finds. *)
Lemma analyzer_print config mode rt agent old base (rhsm_log : string)
    (w : world) (d : Result.t) :
  fst (analyzer config (init mode rt (PrintFile.host agent old base))
         rhsm_log w) = Ok d ->
  Result.print_json d
  = PrintFile.shown (PrintFile.file agent old (trace w)).
Proof.
  intros H. remember (PrintFile.file agent old (trace w)) as f0 eqn:F.
  symmetry in F. unfold analyzer in H.
  do 10 kept_step H F.
  apply bind_ok in H. destruct H as (p & u' & E & H).
  repeat match type of H with
         | fst (bind _ _ _) = Ok _ =>
             apply bind_ok in H; destruct H as (? & ? & _ & H)
         | fst ((let (_, _) := ?p in _) _) = Ok _ => destruct p
         end.
  unfold ret in H. cbn [fst] in H. injection H as <-. cbn [Result.print_json].
  unfold print_json, bind, runcmd in E. cbn [ssh init print_json_file fst snd] in E.
  unfold PrintFile.host in E at 1.
  change (String.eqb ("cat " ++ "/root/print.json") ("cat " ++ PrintFile.path))
    with true in E.
  cbv iota in E. rewrite F in E.
  destruct f0 as [content|]; cbn [PrintFile.shown].
  - change (0 =? 0) with true in E. cbn [andb] in E.
    destruct (String.eqb content ""); cbn [negb] in E; unfold ret in E;
      now injection E as <- _.
  - change (1 =? 0) with false in E. cbn [andb] in E. unfold ret in E.
    now injection E as <- _.
Qed.

(** A run that returns a result has it from the analyzer, after a launch
    that succeeded. *)
Lemma runs_returns config self cli wait (i : nat) (w w' : world)
    (r : res Result.t) :
  Spec.runs config self cli wait i w r w' ->
  forall d, r = Ok d ->
  exists j text w0 w1,
    thread_start self cli wait w0 = (Ok text, w1)
    /\ fst (analyzer config self text (Spec.logged w1 (Spec.notes j text)))
       = Ok d.
Proof.
  induction 1 as [w | i w w1 e Hi Ht | i w w1 w' text secs r Hi Ht Hb Hr IH
                 | i w w1 w' text r Hi Ht Hb Ha]; intros d Hd.
  - discriminate.
  - discriminate.
  - exact (IH d Hd).
  - subst r. exists i, text, w, w1. split; [exact Ht|]. now rewrite Ha.
Qed.

Lemma ends_with_app (suffix s : string) :
  PrintFile.ends_with suffix (s ++ suffix) = true.
Proof.
  unfold PrintFile.ends_with. rewrite chars_append, rev_app_distr.
  induction (rev (chars suffix)) as [|c l IH]; [reflexivity|].
  cbn [app starts_with]. now rewrite Ascii.eqb_refl.
Qed.

(** A string that ends with a blank. *)
Lemma blank_app (a b : string) :
  (exists t, b = t ++ " ")%string -> exists t, (a ++ b = t ++ " ")%string.
Proof. intros [t ->]. exists (a ++ t)%string. now rewrite append_assoc. Qed.

Lemma no_redirect_after_blank (t : string) :
  PrintFile.redirects (t ++ " ") = false.
Proof.
  unfold PrintFile.redirects, PrintFile.ends_with.
  rewrite (chars_append t " "), rev_app_distr. reflexivity.
Qed.

Lemma command_line_redirects mode debug oneshot interval prt cfg :
  PrintFile.redirects (Spec.command_line mode debug oneshot interval prt cfg)
  = prt.
Proof.
  destruct prt.
  - unfold Spec.command_line. rewrite <- !append_assoc.
    apply (ends_with_app " > /root/print.json").
  - assert (H : exists t, Spec.command_line mode debug oneshot interval false cfg
                          = (t ++ " ")%string).
    { unfold Spec.command_line. rewrite !append_nil_r.
      assert (B : forall a b : string,
                 (exists t, a = t ++ " ")%string ->
                 b = "" \/ (exists t, b = t ++ " ")%string ->
                 exists t, (a ++ b = t ++ " ")%string).
      { intros a b Ha [->|Hb]; [now rewrite append_nil_r | now apply blank_app]. }
      rewrite <- !append_assoc.
      repeat apply B.
      - exists "virt-who". reflexivity.
      - destruct debug; [right; exists "-d"; reflexivity | now left].
      - destruct oneshot; [right; exists "-o"; reflexivity | now left].
      - destruct interval as [n|]; [right|now left].
        exists ("-i " ++ of_Z n)%string. now rewrite append_assoc.
      - now left.
      - destruct cfg as [c|]; [|now left].
        destruct (String.eqb c ""); [now left|]. right.
        destruct (String.eqb c "default").
        + exists ("-c /etc/virt-who.d/" ++ mode ++ ".conf")%string.
          now rewrite !append_assoc.
        + exists ("-c " ++ c)%string. now rewrite append_assoc. }
    destruct H as [t ->]. apply no_redirect_after_blank.
Qed.

(** C10, as amended.  For every option combination the command [run_cli]
    hands to the run loop is [virt-who ] followed by [-d ] exactly when
    debug is set, [-o ] exactly when oneshot is set, [-i <interval> ]
    exactly when an interval is given and is not 0, [-p ] exactly when prt
    is set, and [-c <file> ] unless config is empty, <file> being
    /etc/virt-who.d/<mode>.conf for the config [default] and the given file
    otherwise.  That command is the one the launch thread runs, and it
    ends with a redirection to /root/print.json exactly when prt is set.
    On a host where the print file is what the commands of the run make of
    it, a run that returns has in its print_json field the output of the
    command it launched itself when prt is set (nothing if that output is
    empty), and nothing when prt is not set, whatever the file held
    before. *)
Theorem run_cli_command_line (config : Configure.settings)
    (mode rt : string) (conn : remote) (debug oneshot prt : bool)
    (interval : option Z) (cfg : option string) (wait : option Z) :
  let self := init mode rt conn in
  let cmd := Spec.command_line mode debug oneshot (Spec.given interval) prt
               cfg in
  run_cli config self debug oneshot interval prt cfg wait
  = run_start config self (Some cmd) wait
  /\ start self (Some cmd) = cmd
  /\ (exists body, cmd = "virt-who " ++ body
                         ++ (if prt then " > " ++ print_json_file self else ""))%string
  /\ PrintFile.redirects cmd = prt
  /\ (forall agent old base w d,
        conn = PrintFile.host agent old base ->
        fst (run_cli config self debug oneshot interval prt cfg wait w) = Ok d ->
        Result.print_json d
        = if prt then PrintFile.shown (Some (agent cmd)) else None).
Proof.
  cbv zeta.
  assert (Hcli : cli_of (init mode rt conn) debug oneshot interval prt cfg
                 = Spec.command_line mode debug oneshot (Spec.given interval)
                     prt cfg) by apply cli_of_command_line.
  assert (Hne : String.eqb (Spec.command_line mode debug oneshot
                              (Spec.given interval) prt cfg) "" = false).
  { rewrite <- Hcli. apply cli_of_nonempty. }
  split; [unfold run_cli; now rewrite Hcli|].
  split; [now apply start_given|].
  split; [apply command_line_shape|].
  split; [apply command_line_redirects|].
  intros agent old base w d -> Hd. unfold run_cli in Hd. rewrite Hcli in Hd.
  pose proof (for_each_runs config
                (init mode rt (PrintFile.host agent old base))
                (Some (Spec.command_line mode debug oneshot
                         (Spec.given interval) prt cfg)) wait 4 0 w eq_refl)
    as Hr.
  cbv zeta in Hr.
  destruct (runs_returns _ _ _ _ _ _ _ _ Hr d Hd) as (j & text & w0 & w1 & Ht & Ha).
  rewrite (analyzer_print _ _ _ _ _ _ _ _ _ Ha).
  cbn [Spec.logged trace].
  rewrite (thread_start_file _ _ _ _ _ _ _ _ _ _ Hne Ht).
  rewrite command_line_redirects. destruct prt; reflexivity.
Qed.

(** C10, witness: debug, oneshot, an interval of 60 seconds, prt and the
    default configuration in mode esx, on a host whose print file is stale
    and whose agent prints its own command line. *)
Lemma run_cli_command_line_witness :
  let self := init "esx" "rhsm" PrintFile.sample in
  let cmd := "virt-who -d -o -i 60 -p -c /etc/virt-who.d/esx.conf  > /root/print.json" in
  Spec.command_line "esx" true true (Spec.given (Some 60)) true (Some "default")
  = cmd
  /\ fst (run_cli Sample.config self true true (Some 60) true (Some "default")
            None start_world)
     = Ok (Sample.plain_result 0 (Some ("ran " ++ cmd)%string))
  /\ Result.print_json (Sample.plain_result 0 (Some ("ran " ++ cmd)%string))
     = PrintFile.shown (Some (PrintFile.echo cmd)).
Proof.
  cbv zeta.
  assert (H : fst (run_cli Sample.config (init "esx" "rhsm" PrintFile.sample)
                     true true (Some 60) true (Some "default") None
                     start_world)
              = Ok (Sample.plain_result 0
                      (Some ("ran " ++ "virt-who -d -o -i 60 -p -c /etc/virt-who.d/esx.conf  > /root/print.json")%string)))
    by (vm_compute; reflexivity).
  split; [vm_compute; reflexivity|]. split; [exact H|].
  exact (proj2 (proj2 (proj2 (proj2
           (run_cli_command_line Sample.config "esx" "rhsm" PrintFile.sample
              true true true (Some 60) (Some "default") None))))
           PrintFile.echo (Some "stale") Sample.other_host start_world _
           eq_refl H).
Defined.

End Laws.
